(** * ageDB_scratch: the training harness of the FAR repository

    A shallow embedding of [ageDB_scratch.py]: option parsing and the
    derived run names, criterion selection and the per-batch loss, the
    evaluation routine, and the epoch loop with its checkpoints.

    Numbers are modelled in exact arithmetic: integers as [Z], floating
    point values as real numbers [R] (rounding, infinities and NaN are
    outside the model; the statistics of degenerate columns, which the
    libraries return as NaN, are asserted nowhere).  Tensors of shape
    [N,1] are lists of reals.  What rounding does to a sum is shown on the
    MAE, with [float_MAE] over binary floating-point numbers. *)

From Stdlib Require Import Reals Lra Lia ZArith List String Ascii Permutation.
From Stdlib Require Import DecimalString FinFun.
From Stdlib Require SpecFloat.
From stdpp Require Import base gmap strings.
Import ListNotations.
Local Open Scope string_scope.

(** ** Python results: a value or a raised exception *)

Inductive exn : Type :=
| IndexError
| KeyError (key : string)
| TypeError
| ValueError
| ZeroDivisionError
| FileNotFoundError (path : string)
| FileExistsError (path : string)
| RuntimeError.

Inductive result (A : Type) : Type :=
| Ok (a : A)
| Raise (e : exn).
Arguments Ok {A} a.
Arguments Raise {A} e.

Definition is_ok {A : Type} (r : result A) : bool :=
  match r with Ok _ => true | Raise _ => false end.

Definition rbind {A B : Type} (r : result A) (k : A -> result B) : result B :=
  match r with
  | Ok a => k a
  | Raise e => Raise e
  end.

(** ** Strings as Python uses them in [parse_option] *)

Module PyStr.

(** [s.split(sep)] for a one-character separator. *)
Fixpoint split (sep : ascii) (s : string) : list string :=
  match s with
  | EmptyString => [EmptyString]
  | String c s' =>
      if Ascii.eqb c sep then EmptyString :: split sep s'
      else match split sep s' with
           | [] => [String c EmptyString]
           | w :: ws => String c w :: ws
           end
  end.

(** [l[i]] with Python's negative indices; out of range raises. *)
Definition index {A : Type} (l : list A) (i : Z) : result A :=
  let n := Z.of_nat (List.length l) in
  let j := if (i <? 0)%Z then (i + n)%Z else i in
  if ((j <? 0) || (n <=? j))%Z then Raise IndexError
  else match nth_error l (Z.to_nat j) with
       | Some x => Ok x
       | None => Raise IndexError
       end.

Definition startswith (s : string) (c : ascii) : bool :=
  match s with
  | String c' _ => Ascii.eqb c' c
  | EmptyString => false
  end.

Fixpoint endswith (s : string) (c : ascii) : bool :=
  match s with
  | EmptyString => false
  | String c' EmptyString => Ascii.eqb c' c
  | String _ s' => endswith s' c
  end.

(** [str(n)] of an int. *)
Definition of_int (n : Z) : string := NilZero.string_of_int (Z.to_int n).

(** [os.path.join(a, b)] on a POSIX system. *)
Definition path_join (a b : string) : string :=
  if startswith b "/" then b
  else if (String.length a =? 0)%nat || endswith a "/" then a ++ b
  else a ++ "/" ++ b.

End PyStr.

(** ** Run options *)

(** The namespace returned by [parser.parse_args()]. *)
Record args : Type := mk_args {
  print_freq : Z;
  save_freq : Z;
  save_curr_freq : Z;
  batch_size : Z;
  num_workers : Z;
  epochs : Z;
  learning_rate : R;
  lr_decay_rate : R;
  weight_decay : R;
  momentum : R;
  alpha : R;
  trial : string;
  loss : string;
  data_folder : string;
  dataset : string;
  model : string;
  resume : string;
  aug : string
}.

(** The namespace after [parse_option] has added the derived attributes. *)
Record options : Type := mk_options {
  parsed :> args;
  model_path : string;
  model_name : string;
  save_folder : string
}.

(** The argparse defaults. *)
Definition default_args : args := {|
  print_freq := 10; save_freq := 100; save_curr_freq := 1;
  batch_size := 256; num_workers := 1; epochs := 400;
  learning_rate := 2 / 10; lr_decay_rate := 1 / 10; weight_decay := 1 / 10000;
  momentum := 9 / 10; alpha := 1;
  trial := "0"; loss := "FAR";
  data_folder := "../Rank-N-Contrast/data"; dataset := "AgeDB";
  model := "resnet18"; resume := "";
  aug := "crop,flip,color,grayscale"
|}.

Definition with_save_curr_freq (a : args) (n : Z) : args := {|
  print_freq := print_freq a; save_freq := save_freq a; save_curr_freq := n;
  batch_size := batch_size a; num_workers := num_workers a; epochs := epochs a;
  learning_rate := learning_rate a; lr_decay_rate := lr_decay_rate a;
  weight_decay := weight_decay a; momentum := momentum a; alpha := alpha a;
  trial := trial a; loss := loss a; data_folder := data_folder a;
  dataset := dataset a; model := model a; resume := resume a; aug := aug a
|}.

Definition with_resume (a : args) (path : string) : args := {|
  print_freq := print_freq a; save_freq := save_freq a;
  save_curr_freq := save_curr_freq a;
  batch_size := batch_size a; num_workers := num_workers a; epochs := epochs a;
  learning_rate := learning_rate a; lr_decay_rate := lr_decay_rate a;
  weight_decay := weight_decay a; momentum := momentum a; alpha := alpha a;
  trial := trial a; loss := loss a; data_folder := data_folder a;
  dataset := dataset a; model := model a; resume := path; aug := aug a
|}.

(** [len(s)] used as a condition. *)
Definition nonempty (s : string) : bool := negb (String.length s =? 0)%nat.

(** Membership of a string in a literal list, [x in [...]]. *)
Definition str_in (x : string) (l : list string) : bool :=
  existsb (String.eqb x) l.

Section Harness.

(** ** The framework the script is assembled from

    The deep-learning framework and the repository's other modules are
    parameters: the types of tensors and state dictionaries and the
    functions the script calls on them. *)

Variable params : Type.      (* model.state_dict() *)
Variable ostate : Type.      (* optimizer.state_dict() *)
Variable images : Type.      (* a batch of images *)
Variable features : Type.    (* the encoder's feature tensor *)
Variable transform : Type.   (* an augmentation pipeline *)
Variable data : Type.        (* a dataset split *)

(** [repr] of a Python float, as ['{}'.format] prints it. *)
Variable float_repr : R -> string.

(** ** Persisted objects, files and output *)

Inductive pyval : Type :=
| VInt (n : Z)
| VFloat (x : R)
| VStr (s : string)
| VStateDict (p : params)
| VOptimState (s : ostate)
| VNone.

Inductive fnode : Type :=
| Dir
| LogFile
| Pickle (d : gmap string pyval)   (* a dict written by torch.save *)
| Blob.                            (* any other file content *)

Inductive event : Type :=
| PrintWarningFolderExist
| PrintModelName (name : string)
| PrintOptions (o : options)
| PrintTrainTransforms (t : transform)
| PrintValTransforms (t : transform)
| PrintSizes (n_train n_val n_test : Z)
| PrintResumed (epoch : pyval) (path : string)
| PrintTrain (epoch idx total : Z) (loss_val loss_avg : R)
| PrintList (l : list R)
| PrintValid (l : list R)
| PrintBestError (b : R)
| PrintTest (l : list R)
| PrintBestTest (l : list R)
| Write (path : string) (n : fnode).

(** The file system, and the trace of what the run printed and wrote
    (the timings a progress line shows are left out of the trace). *)
Record world : Type := mk_world {
  fs : gmap string fnode;
  trace : list event
}.

(** ** The state-and-exception monad of the script *)

Definition M (A : Type) : Type := world -> result A * world.

Definition ret {A : Type} (a : A) : M A := fun w => (Ok a, w).

Definition raise {A : Type} (e : exn) : M A := fun w => (Raise e, w).

Definition bind {A B : Type} (m : M A) (k : A -> M B) : M B :=
  fun w => match m w with
           | (Ok a, w') => k a w'
           | (Raise e, w') => (Raise e, w')
           end.

Definition lift {A : Type} (r : result A) : M A := fun w => (r, w).

Definition print (e : event) : M unit :=
  fun w => (Ok tt, {| fs := fs w; trace := trace w ++ [e] |}).

Definition write_file (path : string) (n : fnode) : M unit :=
  fun w => (Ok tt, {| fs := <[path := n]> (fs w);
                       trace := trace w ++ [Write path n] |}).

Definition read_file (path : string) : M (option fnode) :=
  fun w => (Ok (fs w !! path), w).

Notation "'let*' x ':=' m 'in' k" := (bind m (fun x => k))
  (at level 10, x pattern, m at level 100, k at level 200, only parsing).
Notation "m ';;' k" := (bind m (fun _ => k))
  (at level 100, k at level 200, right associativity, only parsing).

(** [torch.save(obj, path)] and [torch.load(path)]. *)
Definition torch_save (d : gmap string pyval) (path : string) : M unit :=
  write_file path (Pickle d).

Definition torch_load (path : string) : M (gmap string pyval) :=
  let* n := read_file path in
  match n with
  | Some (Pickle d) => ret d
  | Some _ => raise RuntimeError
  | None => raise (FileNotFoundError path)
  end.

(** [d[key]] on a dict. *)
Definition getitem (d : gmap string pyval) (key : string) : M pyval :=
  match d !! key with
  | Some v => ret v
  | None => raise (KeyError key)
  end.


(** ** [parse_option]: the derived names and the run folder *)

(** Lines 42-49: [model_path], [model_name] and [save_folder]. *)
Definition derive_names (a : args) : result (string * string * string) :=
  let model_path := "./save/" ++ dataset a ++ "_models" in
  let model_name :=
    loss a ++ "_" ++ dataset a ++ "_" ++ model a
      ++ "_ep_" ++ PyStr.of_int (epochs a)
      ++ "_lr_" ++ float_repr (learning_rate a)
      ++ "_d_" ++ float_repr (lr_decay_rate a)
      ++ "_wd_" ++ float_repr (weight_decay a)
      ++ "_alpha_" ++ float_repr (alpha a)
      ++ "_mmt_" ++ float_repr (momentum a)
      ++ "_bsz_" ++ PyStr.of_int (batch_size a)
      ++ "_aug_" ++ aug a
      ++ "_trial_" ++ trial a in
  rbind (if nonempty (resume a)
         then PyStr.index (PyStr.split "/" (resume a)) (-2)
         else Ok model_name)
    (fun model_name =>
       Ok (model_path, model_name, PyStr.path_join model_path model_name)).

(** [os.makedirs] when the folder is missing, a warning when it is there. *)
Definition ensure_folder (folder : string) : M unit :=
  let* n := read_file folder in
  match n with
  | Some Dir => print PrintWarningFolderExist
  | Some _ => raise (FileExistsError folder)
  | None => write_file folder Dir
  end.

(** [logging.FileHandler] opens the log file for appending. *)
Definition open_log (path : string) : M unit :=
  let* n := read_file path in
  match n with
  | Some _ => ret tt
  | None => write_file path LogFile
  end.

Definition parse_option (a : args) : M options :=
  let* names := lift (derive_names a) in
  let '(model_path, model_name, save_folder) := names in
  let opt := {| parsed := a; model_path := model_path;
                model_name := model_name; save_folder := save_folder |} in
  ensure_folder save_folder ;;
  open_log (PyStr.path_join save_folder "training.log") ;;
  print (PrintModelName model_name) ;;
  print (PrintOptions opt) ;;
  ret opt.


(** ** [set_loader] *)

(** [get_transforms] of [utils.py] and the dataset class of [dataset.py]
    that [globals()[opt.dataset]] looks up; a name that is not defined
    raises. *)
Variable get_transforms : string -> string -> transform.
Variable load_dataset : string -> string -> transform -> string -> result data.
Variable dataset_len : data -> Z.

Record DataLoader : Type := mk_loader {
  dl_dataset : data;
  dl_batch_size : Z;
  dl_shuffle : bool;
  dl_num_workers : Z
}.

(** One pass over a loader: the batches [(images, labels)] it yields.  A
    shuffled loader may yield a different order at every pass. *)
Variable iterate : DataLoader -> Z -> list (images * list R).

Definition set_loader (opt : options) : M (DataLoader * DataLoader * DataLoader) :=
  let train_transform := get_transforms "train" (aug opt) in
  let val_transform := get_transforms "val" (aug opt) in
  print (PrintTrainTransforms train_transform) ;;
  print (PrintValTransforms val_transform) ;;
  let* train_dataset :=
    lift (load_dataset (dataset opt) (data_folder opt) train_transform "train") in
  let* val_dataset :=
    lift (load_dataset (dataset opt) (data_folder opt) val_transform "val") in
  let* test_dataset :=
    lift (load_dataset (dataset opt) (data_folder opt) val_transform "test") in
  print (PrintSizes (dataset_len train_dataset) (dataset_len val_dataset)
           (dataset_len test_dataset)) ;;
  ret (mk_loader train_dataset (batch_size opt) true (num_workers opt),
       mk_loader val_dataset (batch_size opt) false (num_workers opt),
       mk_loader test_dataset (batch_size opt) false (num_workers opt)).

(** ** [set_model]: the network and the criterion *)

(** [SupResNet] of [models.py] (the initial parameters of the named
    architecture) and [get_label_dim] of [utils.py]. *)
Variable SupResNet : string -> Z -> params.
Variable get_label_dim : string -> Z.

(** A [torch.nn.Module]: its parameters and its train/eval mode flag. *)
Record module : Type := mk_module {
  state_dict : params;
  training : bool
}.

Inductive criterion : Type :=
| FAR (alpha : R) (version : string)
| L1Loss.

(** Device placement ([.cuda()], [DataParallel]) is not part of the model. *)
Definition set_model (opt : options) : module * criterion :=
  let model := mk_module (SupResNet (model opt) (get_label_dim (dataset opt))) true in
  let criterion :=
    if str_in (loss opt) ["FAR"; "FAR-EXP"]
    then FAR (alpha opt) (loss opt)
    else L1Loss in
  (model, criterion).

(** ** Tensors and the loss of one training batch *)

(** The three tensors a training step has at hand. *)
Inductive tensor : Type := Output | Labels | Feat.

Inductive tvalue : Type :=
| Reals (v : list R)
| Features (f : features).

(** The loss of one batch, as the expression [train] builds it: which
    function is called on which tensors. *)
Inductive loss_term : Type :=
| Criterion (c : criterion) (actuals : list tensor)
| ConR (actuals : list tensor)
| Ranksim (actuals : list tensor) (a : R)
| FocalL1 (actuals : list tensor) (beta : R)
| FocalMSE (actuals : list tensor) (beta : R)
| Plus (a b : loss_term)
| Scale (k : R) (a : loss_term).

(** Lines 138-147 of [train]. *)
Definition batch_loss (opt : options) (criterion : criterion) : loss_term :=
  if (loss opt =? "ConR")%string then
    Plus (Criterion criterion [Output; Labels])
         (Scale (alpha opt) (ConR [Feat; Labels; Output]))
  else if (loss opt =? "ranksim")%string then
    Plus (Criterion criterion [Output; Labels])
         (Ranksim [Feat; Labels] (alpha opt))
  else if (loss opt =? "focal-l1")%string then
    FocalL1 [Output; Labels] (alpha opt)
  else if (loss opt =? "focal-mse")%string then
    FocalMSE [Output; Labels] (alpha opt)
  else
    Criterion criterion [Output; Labels].


(** ** Arrays of reals, as NumPy and torch compute on them *)

Definition Rsum (l : list R) : R := fold_right Rplus 0%R l.

(** [a.mean()] *)
Definition mean (l : list R) : R := (Rsum l / INR (List.length l))%R.

(** [a - b] on two columns: equal lengths, or one of them a single row
    that is broadcast; anything else is a shape error. *)
Definition np_sub (a b : list R) : result (list R) :=
  if (List.length a =? List.length b)%nat then
    Ok (map (fun ab => (fst ab - snd ab)%R) (combine a b))
  else match a, b with
       | [x], _ => Ok (map (fun y => (x - y)%R) b)
       | _, [y] => Ok (map (fun x => (x - y)%R) a)
       | _, _ => Raise ValueError
       end.

(** [np.concatenate(chunks, axis=0)]: an empty list of arrays is an error. *)
Definition np_concatenate (chunks : list (list R)) : result (list R) :=
  match chunks with
  | [] => Raise ValueError
  | _ => Ok (concat chunks)
  end.

(** [torch.nn.L1Loss()(output, labels)] with the default mean reduction;
    tensors that cannot be broadcast raise RuntimeError. *)
Definition l1_loss (output labels : list R) : result R :=
  match np_sub output labels with
  | Ok d => Ok (mean (map Rabs d))
  | Raise _ => Raise RuntimeError
  end.

(** *** The library statistics, by their definitions *)

Definition clip (lo hi x : R) : R := Rmin hi (Rmax lo x).

(** Covariance with [ddof = 1], as [np.cov] computes it. *)
Definition cov (x y : list R) : R :=
  (Rsum (map (fun ab => (fst ab - mean x) * (snd ab - mean y)) (combine x y))
   / (INR (List.length x) - 1))%R.

(** Entry [row, col] of [np.corrcoef] for the variables [x] (row) and [y]
    (column): the covariance divided by both standard deviations, clipped. *)
Definition corr_entry (x y : list R) : R :=
  clip (-1) 1 (cov x y / sqrt (cov x x) / sqrt (cov y y))%R.

(** [np.corrcoef(truth, pred, rowvar=False)[0,1]] *)
Definition corrcoef_01 (truth pred : list R) : R := corr_entry truth pred.

Definition count_if (f : R -> bool) (l : list R) : nat :=
  List.length (List.filter f l).

Definition Rltb (a b : R) : bool := if Rlt_dec a b then true else false.
Definition Reqb (a b : R) : bool := if Req_dec_T a b then true else false.

(** [scipy.stats.rankdata] with the default average method. *)
Definition rank_in (l : list R) (x : R) : R :=
  (INR (count_if (fun y => Rltb y x) l)
   + (INR (count_if (fun y => Reqb y x) l) + 1) / 2)%R.

Definition rankdata (l : list R) : list R := map (rank_in l) l.

(** [stats.spearmanr(truth, pred)[0]]: entry [1,0] of the correlation
    matrix of the ranked columns. *)
Definition spearmanr (truth pred : list R) : R :=
  corr_entry (rankdata pred) (rankdata truth).

(** [sklearn.metrics.r2_score(truth, pred)] *)
Definition r2_score (truth pred : list R) : R :=
  let numerator :=
    Rsum (map (fun tp => (fst tp - snd tp) ^ 2)%R (combine truth pred)) in
  let denominator := Rsum (map (fun t => (t - mean truth) ^ 2)%R truth) in
  if Req_dec_T denominator 0 then
    if Req_dec_T numerator 0 then 1%R else 0%R
  else (1 - numerator / denominator)%R.

(** What the library calls of [validate] check before they compute:
    [np.corrcoef] stacks the two columns, which must have the same number
    of rows; [r2_score] rejects a split without any sample and columns
    with an entry that is not finite. *)
Definition np_corrcoef (truth pred : list R) : result R :=
  if (List.length truth =? List.length pred)%nat
  then Ok (corrcoef_01 truth pred)
  else Raise ValueError.

Definition checked_r2_score (finite : bool) (truth pred : list R) : result R :=
  if (List.length truth =? 0)%nat || negb finite
  then Raise ValueError
  else Ok (r2_score truth pred).

(** *** Line 185 in floating-point arithmetic *)

(** The arrays of the code hold floating-point numbers, not reals.  For a
    binary format of precision [prec] and exponent bound [emax] (binary32:
    24 and 128; binary64: 53 and 1024), with every operation rounded to
    nearest, ties to even: the sum of a column adds its rows one after the
    other from the first row on, as NumPy does for a short column, and the
    mean divides the sum by the number of rows. *)
Definition float_of_Z (prec emax : Z) (z : Z) : SpecFloat.spec_float :=
  SpecFloat.binary_normalize prec emax z 0 false.

Definition float_sum (prec emax : Z) (l : list SpecFloat.spec_float)
  : SpecFloat.spec_float :=
  fold_left (SpecFloat.SFadd prec emax) l (SpecFloat.S754_zero false).

Definition float_mean (prec emax : Z) (l : list SpecFloat.spec_float)
  : SpecFloat.spec_float :=
  SpecFloat.SFdiv prec emax (float_sum prec emax l)
    (float_of_Z prec emax (Z.of_nat (List.length l))).

(** [np.abs(pred - truth).mean()] over the concatenation of the batches,
    each batch given by the output column of the model and the label
    column. *)
Definition float_MAE (prec emax : Z)
  (batches : list (list SpecFloat.spec_float * list SpecFloat.spec_float))
  : SpecFloat.spec_float :=
  let pred := concat (map fst batches) in
  let truth := concat (map snd batches) in
  float_mean prec emax
    (map (fun pt => SpecFloat.SFabs (SpecFloat.SFsub prec emax (fst pt) (snd pt)))
       (combine pred truth)).

(** ** [validate] *)

(** [torch.cuda.is_available()] *)
Variable cuda_is_available : bool.

(** [model(images)]: the prediction column and the features; the result
    depends on the module's mode. *)
Variable forward : params -> bool -> images -> list R * features.

(** Whether every entry of the output column of [model(images)] is a finite
    number (neither NaN nor an infinity); only then do the reals of
    [forward] describe the column. *)
Variable output_finite : params -> bool -> images -> bool.

Definition eval_mode (m : module) : module := mk_module (state_dict m) false.
Definition train_mode (m : module) : module := mk_module (state_dict m) true.

(** [t.cuda()]: without a GPU the call raises (RuntimeError, or
    AssertionError when torch is built without CUDA). *)
Definition cuda : M unit :=
  if cuda_is_available then ret tt else raise RuntimeError.

(** Lines 169-190.  [images.cuda()] and [labels.cuda()] are not guarded by
    [torch.cuda.is_available()]: the first batch raises on a host without
    CUDA. *)
Definition validate (batches : list (images * list R)) (model : module)
  : M (list R * module) :=
  let model := eval_mode model in
  match batches with
  | [] => ret tt
  | _ :: _ => cuda
  end ;;
  let pred := map (fun b => fst (forward (state_dict model) (training model) (fst b)))
                  batches in
  let truth := map snd batches in
  let finite :=
    forallb (fun b => output_finite (state_dict model) (training model) (fst b))
      batches in
  let* pred := lift (np_concatenate pred) in
  let* truth := lift (np_concatenate truth) in
  let* diff := lift (np_sub pred truth) in
  let va_MAE := mean (map Rabs diff) in
  let va_RMSE := sqrt (mean (map (fun d => d ^ 2)%R diff)) in
  let* va_pear := lift (np_corrcoef truth pred) in
  let va_spear := spearmanr truth pred in
  let* va_R2 := lift (checked_r2_score finite truth pred) in
  ret ([va_MAE; va_RMSE; va_pear; va_spear; va_R2], model).


(** ** [train]: one pass of gradient steps *)

(** The loss functions of [loss.py], applied to the tensors they are
    called with. *)
Variable FAR_forward : R -> string -> list tvalue -> result R.
Variable ConR_loss : list tvalue -> result R.
Variable batchwise_ranking_regularizer : list tvalue -> R -> result R.
Variable weighted_focal_l1_loss : list tvalue -> R -> result R.
Variable weighted_focal_mse_loss : list tvalue -> R -> result R.

(** [zero_grad(); loss.backward(); optimizer.step()] for the loss expression
    [t] on one batch: the new parameters and optimizer state. *)
Variable optimizer_step :
  loss_term -> params -> ostate -> images -> list R -> params * ostate.

Definition call_criterion (c : criterion) (actuals : list tvalue) : result R :=
  match c with
  | L1Loss =>
      match actuals with
      | [Reals output; Reals labels] => l1_loss output labels
      | _ => Raise TypeError
      end
  | FAR a version => FAR_forward a version actuals
  end.

Fixpoint eval_loss (env : tensor -> tvalue) (t : loss_term) : result R :=
  match t with
  | Criterion c actuals => call_criterion c (map env actuals)
  | ConR actuals => ConR_loss (map env actuals)
  | Ranksim actuals a => batchwise_ranking_regularizer (map env actuals) a
  | FocalL1 actuals beta => weighted_focal_l1_loss (map env actuals) beta
  | FocalMSE actuals beta => weighted_focal_mse_loss (map env actuals) beta
  | Plus a b =>
      rbind (eval_loss env a) (fun x =>
      rbind (eval_loss env b) (fun y => Ok (x + y)%R))
  | Scale k a => rbind (eval_loss env a) (fun x => Ok (k * x)%R)
  end.

Definition tensors (output : list R) (feat : features) (labels : list R)
  (t : tensor) : tvalue :=
  match t with
  | Output => Reals output
  | Labels => Reals labels
  | Feat => Features feat
  end.

(** Modelled from the spec: [AverageMeter] of [utils.py], the running
    count, sum and average of a weighted series. *)
Record AverageMeter : Type := mk_meter {
  meter_val : R;
  meter_sum : R;
  meter_count : R;
  meter_avg : R
}.

Definition new_meter : AverageMeter := mk_meter 0 0 0 0.

Definition meter_update (m : AverageMeter) (v : R) (n : Z) : AverageMeter :=
  let sum := (meter_sum m + v * IZR n)%R in
  let count := (meter_count m + IZR n)%R in
  mk_meter v sum count (sum / count)%R.

(** [a % b] on ints. *)
Definition py_mod (a b : Z) : result Z :=
  if (b =? 0)%Z then Raise ZeroDivisionError else Ok (a mod b)%Z.

(** The body of the batch loop of [train], from batch number [idx] on. *)
Fixpoint train_loop (opt : options) (criterion : criterion) (epoch total : Z)
  (batches : list (images * list R)) (idx : Z)
  (model : module) (optimizer : ostate) (losses : AverageMeter)
  : M (module * ostate) :=
  match batches with
  | [] => ret (model, optimizer)
  | (imgs, labels) :: rest =>
      let bsz := Z.of_nat (List.length labels) in
      let '(output, feat) := forward (state_dict model) (training model) imgs in
      let term := batch_loss opt criterion in
      let* loss_value := lift (eval_loss (tensors output feat labels) term) in
      let losses := meter_update losses loss_value bsz in
      let '(p, optimizer) :=
        optimizer_step term (state_dict model) optimizer imgs labels in
      let model := mk_module p (training model) in
      let* r := lift (py_mod (idx + 1) (print_freq opt)) in
      (if (r =? 0)%Z
       then print (PrintTrain epoch (idx + 1) total
                     (meter_val losses) (meter_avg losses))
       else ret tt) ;;
      train_loop opt criterion epoch total rest (idx + 1) model optimizer losses
  end.

Definition train (batches : list (images * list R)) (model : module)
  (criterion : criterion) (optimizer : ostate) (epoch : Z) (opt : options)
  : M (module * ostate) :=
  train_loop opt criterion epoch (Z.of_nat (List.length batches)) batches 0
    (train_mode model) optimizer new_meter.


(** ** [main] *)

(** [set_optimizer] and [adjust_learning_rate] of [utils.py]; both are
    called with the whole option namespace. *)
Variable set_optimizer : options -> params -> ostate.
Variable adjust_learning_rate : options -> ostate -> Z -> ostate.

(** What [save_model] stores under [best_error], from the arguments it is
    called with. *)
Variable periodic_best_error : params -> ostate -> options -> Z -> pyval.

(** Modelled from the spec: [save_model] of [utils.py], which persists
    [{epoch, model parameters, optimizer state, best_error}]. *)
Definition save_model (model : module) (optimizer : ostate) (opt : options)
  (epoch : Z) (save_file : string) : M unit :=
  torch_save
    (<["epoch" := VInt epoch]>
       (<["model" := VStateDict (state_dict model)]>
          (<["optimizer" := VOptimState optimizer]>
             (<["best_error" :=
                  periodic_best_error (state_dict model) optimizer opt epoch]> ∅))))
    save_file.

(** [min(a, b)] of Python: the first argument unless the second is smaller. *)
Definition pymin (a b : R) : R := if Rlt_dec b a then b else a.

(** [range(a, b)] *)
Definition range (a b : Z) : list Z :=
  map (fun i => (a + Z.of_nat i)%Z) (seq 0 (Z.to_nat (b - a))).

Definition load_state_dict (v : pyval) : M params :=
  match v with
  | VStateDict p => ret p
  | _ => raise TypeError
  end.

Definition load_optimizer_state (v : pyval) : M ostate :=
  match v with
  | VOptimState s => ret s
  | _ => raise TypeError
  end.

(** Lines 205-211: the start epoch, after an optional resume.  A float
    start epoch is kept as it is; [range] rejects it later. *)
Definition main_resume (opt : options) (model : module) (optimizer : ostate)
  : M (module * ostate * (Z + R)) :=
  if nonempty (resume opt) then
    let* ckpt_state := torch_load (resume opt) in
    let* m := getitem ckpt_state "model" in
    let* p := load_state_dict m in
    let model := mk_module p (training model) in
    let* o := getitem ckpt_state "optimizer" in
    let* optimizer := load_optimizer_state o in
    let* e := getitem ckpt_state "epoch" in
    let* start_epoch :=
      match e with
      | VInt n => ret (inl (n + 1)%Z)
      | VFloat x => ret (inr (x + 1)%R)
      | _ => raise TypeError
      end in
    let* e' := getitem ckpt_state "epoch" in
    print (PrintResumed e' (resume opt)) ;;
    ret (model, optimizer, start_epoch)
  else ret (model, optimizer, inl 1%Z).


(** The variables the epoch loop of [main] updates. *)
Record loop_state : Type := mk_loop_state {
  ls_model : module;
  ls_optimizer : ostate;
  best_error : R;
  best_test : list R
}.

Definition periodic_file (opt : options) (epoch : Z) : string :=
  PyStr.path_join (save_folder opt) ("ckpt_epoch_" ++ PyStr.of_int epoch ++ ".pth").

Definition best_file (opt : options) : string :=
  PyStr.path_join (save_folder opt) "best.pth".

(** The dict of lines 247-251. *)
Definition best_checkpoint (epoch : Z) (model : module) (best_error : R)
  : gmap string pyval :=
  <["epoch" := VInt epoch]>
    (<["model" := VStateDict (state_dict model)]>
       (<["best_error" := VFloat best_error]> ∅)).

(** Lines 219-252: the body of the epoch loop. *)
Definition epoch_body (opt : options)
  (train_loader val_loader test_loader : DataLoader) (criterion : criterion)
  (save_file_best : string) (st : loop_state) (epoch : Z) : M loop_state :=
  let optimizer := adjust_learning_rate opt (ls_optimizer st) epoch in
  let* trained :=
    train (iterate train_loader epoch) (ls_model st) criterion optimizer epoch opt in
  let '(model, optimizer) := trained in
  let* validated := validate (iterate val_loader epoch) model in
  let '(valid_error, model) := validated in
  print (PrintList valid_error) ;;
  print (PrintValid valid_error) ;;
  let* valid_mae := lift (PyStr.index valid_error 0) in
  let is_best := Rltb valid_mae (best_error st) in
  let best_error := pymin valid_mae (best_error st) in
  print (PrintBestError best_error) ;;
  let* tested := validate (iterate test_loader epoch) model in
  let '(test_error, model) := tested in
  print (PrintTest test_error) ;;
  let* r := lift (py_mod epoch (save_freq opt)) in
  (if (r =? 0)%Z
   then save_model model optimizer opt epoch (periodic_file opt epoch)
   else ret tt) ;;
  let* best_test :=
    (if is_best
     then torch_save (best_checkpoint epoch model best_error) save_file_best ;;
          ret test_error
     else ret (best_test st)) in
  print (PrintBestTest best_test) ;;
  ret (mk_loop_state model optimizer best_error best_test).

(** [for epoch in ...: body] *)
Fixpoint for_epochs (body : loop_state -> Z -> M loop_state)
  (epochs : list Z) (st : loop_state) : M loop_state :=
  match epochs with
  | [] => ret st
  | epoch :: rest => let* st := body st epoch in for_epochs body rest st
  end.

(** [best_error = 1e10] *)
Definition initial_best_error : R := 10000000000%R.

Definition initial_best_test : list R :=
  [initial_best_error; initial_best_error; initial_best_error;
   initial_best_error; initial_best_error].

(** Lines 213-252: the training routine from [start_epoch] on. *)
Definition main_loop (opt : options)
  (train_loader val_loader test_loader : DataLoader) (criterion : criterion)
  (model : module) (optimizer : ostate) (start_epoch : Z + R) : M loop_state :=
  let save_file_best := best_file opt in
  match start_epoch with
  | inl start_epoch =>
      for_epochs
        (epoch_body opt train_loader val_loader test_loader criterion save_file_best)
        (range start_epoch (epochs opt + 1))
        (mk_loop_state model optimizer initial_best_error initial_best_test)
  | inr _ => raise TypeError
  end.

Definition main (a : args) : M unit :=
  let* opt := parse_option a in
  let* loaders := set_loader opt in
  let '(train_loader, val_loader, test_loader) := loaders in
  let '(model, criterion) := set_model opt in
  let optimizer := set_optimizer opt (state_dict model) in
  let* resumed := main_resume opt model optimizer in
  let '(model, optimizer, start_epoch) := resumed in
  main_loop opt train_loader val_loader test_loader criterion
    model optimizer start_epoch ;;
  ret tt.


(** ** The vocabulary of the properties *)

(** The options the run names are derived from. *)
Definition same_run_config (a b : args) : Prop :=
  loss a = loss b /\ dataset a = dataset b /\ model a = model b /\
  epochs a = epochs b /\ learning_rate a = learning_rate b /\
  lr_decay_rate a = lr_decay_rate b /\ weight_decay a = weight_decay b /\
  alpha a = alpha b /\ momentum a = momentum b /\
  batch_size a = batch_size b /\ aug a = aug b /\ trial a = trial b /\
  resume a = resume b.

Definition swap_pair (pt : R * R) : R * R := (snd pt, fst pt).

(** The statistics in the words of the specification, over the paired
    samples. *)
Definition spec_MAE (pred truth : list R) : R :=
  mean (map (fun pt => Rabs (fst pt - snd pt)) (combine pred truth)).

Definition spec_RMSE (pred truth : list R) : R :=
  sqrt (mean (map (fun pt => (fst pt - snd pt) ^ 2)%R (combine pred truth))).

(** The concatenation of all batch predictions, and of all batch labels. *)
Definition predictions (model : module) (batches : list (images * list R)) : list R :=
  concat (map (fun b => fst (forward (state_dict model) false (fst b))) batches).

Definition ground_truth (batches : list (images * list R)) : list R :=
  concat (map snd batches).

(** Every batch's prediction column has one row per label. *)
Definition shapes_agree (model : module) (batches : list (images * list R)) : Prop :=
  Forall (fun b => List.length (fst (forward (state_dict model) false (fst b)))
                   = List.length (snd b)) batches.

(** Every prediction of the model on the split is a finite number. *)
Definition finite_outputs (model : module) (batches : list (images * list R))
  : Prop :=
  Forall (fun b => output_finite (state_dict model) false (fst b) = true) batches.

Definition samples (model : module) (batches : list (images * list R))
  : list (R * R) :=
  concat (map (fun b => combine (fst (forward (state_dict model) false (fst b)))
                                (snd b)) batches).

Definition special_losses : list string :=
  ["FAR"; "FAR-EXP"; "ConR"; "ranksim"; "focal-l1"; "focal-mse"].

(** The claim as the specification words it: the FAR criterion is called
    on the output, the label and the feature tensor. *)
Definition far_called_with_features (opt : options) : Prop :=
  str_in (loss opt) ["FAR"; "FAR-EXP"] = true ->
  batch_loss opt (snd (set_model opt))
  = Criterion (snd (set_model opt)) [Output; Labels; Feat].

Definition is_progress (e : event) : Prop :=
  match e with
  | PrintTrain _ _ _ _ _ => True
  | _ => False
  end.

(** What one completed epoch contributes: its progress lines, the
    validation and test statistics, and the model and optimizer it ends
    with. *)
Record epoch_obs : Type := mk_obs {
  ob_epoch : Z;
  ob_progress : list event;
  ob_valid : list R;
  ob_test : list R;
  ob_model : module;
  ob_optimizer : ostate
}.

Definition valid_mae (o : epoch_obs) : R := hd 0%R (ob_valid o).

Definition periodic_checkpoint (opt : options) (epoch : Z) (model : module)
  (optimizer : ostate) : gmap string pyval :=
  <["epoch" := VInt epoch]>
    (<["model" := VStateDict (state_dict model)]>
       (<["optimizer" := VOptimState optimizer]>
          (<["best_error" :=
               periodic_best_error (state_dict model) optimizer opt epoch]> ∅))).

(** The trace of one epoch that starts with the running best [b] and the
    best-test record [bt]. *)
Definition obs_events (opt : options) (save_file_best : string)
  (b : R) (bt : list R) (o : epoch_obs) : list event :=
  (ob_progress o
   ++ [PrintList (ob_valid o); PrintValid (ob_valid o);
       PrintBestError (pymin (valid_mae o) b); PrintTest (ob_test o)]
   ++ (if (ob_epoch o mod save_freq opt =? 0)%Z
       then [Write (periodic_file opt (ob_epoch o))
               (Pickle (periodic_checkpoint opt (ob_epoch o) (ob_model o)
                          (ob_optimizer o)))]
       else [])
   ++ (if Rltb (valid_mae o) b
       then [Write save_file_best
               (Pickle (best_checkpoint (ob_epoch o) (ob_model o)
                          (pymin (valid_mae o) b)))]
       else [])
   ++ [PrintBestTest (if Rltb (valid_mae o) b then ob_test o else bt)])%list.

Definition obs_state (b : R) (bt : list R) (o : epoch_obs) : loop_state :=
  mk_loop_state (ob_model o) (ob_optimizer o) (pymin (valid_mae o) b)
    (if Rltb (valid_mae o) b then ob_test o else bt).

(** The trace of a run of consecutive epochs, and the running best and
    best-test record it ends with. *)
Fixpoint run_events (opt : options) (save_file_best : string)
  (b : R) (bt : list R) (obs : list epoch_obs) : list event :=
  match obs with
  | [] => []
  | o :: rest =>
      (obs_events opt save_file_best b bt o
       ++ run_events opt save_file_best (pymin (valid_mae o) b)
            (if Rltb (valid_mae o) b then ob_test o else bt) rest)%list
  end.

Fixpoint run_best (b : R) (bt : list R) (obs : list epoch_obs) : R * list R :=
  match obs with
  | [] => (b, bt)
  | o :: rest =>
      run_best (pymin (valid_mae o) b)
        (if Rltb (valid_mae o) b then ob_test o else bt) rest
  end.

Definition well_formed_obs (o : epoch_obs) : Prop :=
  Forall is_progress (ob_progress o) /\
  List.length (ob_valid o) = 5%nat /\ List.length (ob_test o) = 5%nat.

(** The validation MAE of every epoch, as [print(valid_error)] shows it. *)
Definition valid_maes (t : list event) : list R :=
  flat_map (fun e => match e with PrintList l => [hd 0%R l] | _ => [] end) t.


(** The dicts pickled to [path], in the order they were written. *)
Definition writes_to (path : string) (t : list event) : list (gmap string pyval) :=
  flat_map (fun e => match e with
                     | Write p (Pickle d) => if (p =? path)%string then [d] else []
                     | _ => []
                     end) t.

(** Every path the trace writes to. *)
Definition written_paths (t : list event) : list string :=
  flat_map (fun e => match e with Write p _ => [p] | _ => [] end) t.

Definition saved_epoch (d : gmap string pyval) : option Z :=
  match d !! "epoch" with
  | Some (VInt e) => Some e
  | _ => None
  end.

(** The epochs at which the trace writes the best checkpoint. *)
Definition best_saves (opt : options) (t : list event) : list (option Z) :=
  map saved_epoch (writes_to (best_file opt) t).

(** The epochs of a run whose validation MAE improves the running best. *)
Fixpoint improving (b : R) (obs : list epoch_obs) : list epoch_obs :=
  match obs with
  | [] => []
  | o :: rest =>
      ((if Rltb (valid_mae o) b then [o] else [])
       ++ improving (pymin (valid_mae o) b) rest)%list
  end.





(** A computation whose result does not depend on the world it runs in:
    it reads neither the file system nor the output so far. *)
Definition world_blind {A : Type} (m : M A) : Prop :=
  forall w1 w2, fst (m w1) = fst (m w2).

(** What the run prints and writes before the first epoch. *)
Definition is_setup (e : event) : Prop :=
  match e with
  | PrintWarningFolderExist | PrintModelName _ | PrintOptions _
  | PrintTrainTransforms _ | PrintValTransforms _ | PrintSizes _ _ _
  | PrintResumed _ _ | Write _ Dir | Write _ LogFile => True
  | _ => False
  end.

(** [w'] extends [w] by setup events only, and holds the same pickles. *)
Definition setup_extends (w w' : world) : Prop :=
  (exists t, trace w' = (trace w ++ t)%list /\ Forall is_setup t) /\
  (forall path d, fs w' !! path = Some (Pickle d) <-> fs w !! path = Some (Pickle d)).

(** The file at [path] is a pickled dict with the three keys a resume
    reads, holding a state dict, an optimizer state and an int epoch. *)
Definition resumable (w : world) (path : string) (p : params) (s : ostate) (e : Z)
  : Prop :=
  exists d, fs w !! path = Some (Pickle d) /\
            d !! "model" = Some (VStateDict p) /\
            d !! "optimizer" = Some (VOptimState s) /\
            d !! "epoch" = Some (VInt e).

Definition has_required_keys (w : world) (path : string) : Prop :=
  exists d, fs w !! path = Some (Pickle d) /\
            is_Some (d !! "model") /\ is_Some (d !! "optimizer") /\
            is_Some (d !! "epoch").

Definition set_save_curr_freq (o : options) (n : Z) : options := {|
  parsed := with_save_curr_freq o n;
  model_path := model_path o;
  model_name := model_name o;
  save_folder := save_folder o
|}.

(** The echo of the options is compared up to the value of
    [save_curr_freq] it shows. *)
Definition hide_echo (e : event) : event :=
  match e with
  | PrintOptions o => PrintOptions (set_save_curr_freq o 0)
  | _ => e
  end.

(** Two worlds with the same files and, up to the echo, the same trace. *)
Definition world_sim (w1 w2 : world) : Prop :=
  fs w1 = fs w2 /\ map hide_echo (trace w1) = map hide_echo (trace w2).

(** Two computations that, run in similar worlds, end alike: both raise the
    same exception or both return results related by [R], in similar
    worlds. *)
Definition alike {A : Type} (R : A -> A -> Prop) (m1 m2 : M A) : Prop :=
  forall w1 w2, world_sim w1 w2 ->
    world_sim (snd (m1 w1)) (snd (m2 w2)) /\
    match fst (m1 w1), fst (m2 w2) with
    | Ok a1, Ok a2 => R a1 a2
    | Raise e1, Raise e2 => e1 = e2
    | _, _ => False
    end.

(** [set_optimizer], [adjust_learning_rate] and [save_model] of [utils.py]
    receive the whole option namespace.  Helpers that do not read
    [save_curr_freq] from it: a condition on the helpers, which neither the
    source file nor the specification settles. *)
Definition helpers_ignore_save_curr_freq : Prop :=
  (forall o n p, set_optimizer (set_save_curr_freq o n) p = set_optimizer o p) /\
  (forall o n s e,
     adjust_learning_rate (set_save_curr_freq o n) s e = adjust_learning_rate o s e) /\
  (forall p s o n e,
     periodic_best_error p s (set_save_curr_freq o n) e = periodic_best_error p s o e).

(** * Properties *)

(** ** Python strings *)

Example split_path :
  PyStr.split "/" "./save/AgeDB_models/run7/ckpt_epoch_10.pth"
  = ["."; "save"; "AgeDB_models"; "run7"; "ckpt_epoch_10.pth"].
Proof. reflexivity. Qed.

Example split_empty : PyStr.split "/" "" = [""].
Proof. reflexivity. Qed.

Example index_last_but_one :
  PyStr.index ["a"; "b"; "c"] (-2) = Ok "b" /\
  PyStr.index ["a"] (-2) = Raise IndexError.
Proof. split; reflexivity. Qed.

Example of_int_examples :
  PyStr.of_int 400 = "400" /\ PyStr.of_int 0 = "0" /\ PyStr.of_int (-3) = "-3".
Proof. repeat split; reflexivity. Qed.

Example path_join_examples :
  PyStr.path_join "./save/AgeDB_models" "run7" = "./save/AgeDB_models/run7" /\
  PyStr.path_join "./save/AgeDB_models" "/abs" = "/abs".
Proof. split; reflexivity. Qed.

(** ** The derived run names *)

Lemma derive_names_same_config (a b : args) :
  same_run_config a b -> derive_names a = derive_names b.
Proof.
  unfold same_run_config, derive_names.
  intros (-> & -> & -> & -> & -> & -> & -> & -> & -> & -> & -> & -> & ->).
  reflexivity.
Qed.

Lemma parse_option_names (a : args) (w w' : world) (o : options) :
  parse_option a w = (Ok o, w') ->
  derive_names a = Ok (model_path o, model_name o, save_folder o).
Proof.
  unfold parse_option, bind, lift.
  destruct (derive_names a) as [[[mp mn] sf] | e]; [ | discriminate ].
  destruct (ensure_folder sf w) as [[ [] | ] w1]; [ | discriminate ].
  destruct (open_log _ w1) as [[ [] | ] w2]; [ | discriminate ].
  cbn. intros H. injection H as <- _. reflexivity.
Qed.

(** C9: the derived [model_name] and [save_folder] are a function of the
    run configuration alone.  Two invocations of option parsing whose
    options agree on loss, dataset, model, epochs, learning rate, decay
    rate, weight decay, alpha, momentum, batch size, augmentation list,
    trial and resume path derive the same names (or fail alike), whatever
    the other options and whatever the file systems they run on. *)
Theorem run_names_deterministic (a b : args) (wa wb : world) :
  same_run_config a b ->
  derive_names a = derive_names b /\
  (forall oa ob wa' wb',
     parse_option a wa = (Ok oa, wa') ->
     parse_option b wb = (Ok ob, wb') ->
     model_name oa = model_name ob /\ save_folder oa = save_folder ob).
Proof.
  intros Hcfg. pose proof (derive_names_same_config a b Hcfg) as Hn.
  split; [ exact Hn | ].
  intros oa ob wa' wb' Ha Hb.
  apply parse_option_names in Ha. apply parse_option_names in Hb.
  rewrite Hn, Hb in Ha. injection Ha as _ Hm Hs. split; congruence.
Qed.

(** ** Sums and statistics under reordering *)

Lemma Rsum_app (l1 l2 : list R) : Rsum (l1 ++ l2) = (Rsum l1 + Rsum l2)%R.
Proof.
  unfold Rsum. induction l1 as [ | x l1 IH]; cbn; [ | rewrite IH ]; lra.
Qed.

Lemma Rsum_perm (l l' : list R) : Permutation l l' -> Rsum l = Rsum l'.
Proof.
  unfold Rsum.
  induction 1 as [ | x l l' _ IH | x y l | l l' l'' _ IH1 _ IH2 ]; cbn.
  - reflexivity.
  - rewrite IH. reflexivity.
  - lra.
  - congruence.
Qed.

Lemma mean_perm (l l' : list R) : Permutation l l' -> mean l = mean l'.
Proof.
  intros H. unfold mean.
  rewrite (Rsum_perm _ _ H), (Permutation_length H). reflexivity.
Qed.

Lemma combine_fst_snd {A B : Type} (ps : list (A * B)) :
  combine (map fst ps) (map snd ps) = ps.
Proof.
  induction ps as [ | [a b] ps IH]; cbn; [ | rewrite IH ]; reflexivity.
Qed.

Lemma cov_perm (ps ps' : list (R * R)) :
  Permutation ps ps' ->
  cov (map fst ps) (map snd ps) = cov (map fst ps') (map snd ps').
Proof.
  intros H. unfold cov. rewrite !combine_fst_snd, !length_map.
  rewrite (mean_perm (map fst ps) (map fst ps')) by (apply Permutation_map; exact H).
  rewrite (mean_perm (map snd ps) (map snd ps')) by (apply Permutation_map; exact H).
  rewrite (Permutation_length H).
  f_equal. apply Rsum_perm, Permutation_map, H.
Qed.

Lemma map_diag {A B : Type} (f : A -> B) (l : list A) :
  map (fun x => (f x, f x)) l = combine (map f l) (map f l).
Proof.
  induction l as [ | x l IH]; cbn; [ | rewrite IH ]; reflexivity.
Qed.

Lemma cov_self_perm (l l' : list R) : Permutation l l' -> cov l l = cov l' l'.
Proof.
  intros H.
  pose proof (cov_perm (map (fun x => (x, x)) l) (map (fun x => (x, x)) l')
                (Permutation_map _ H)) as E.
  rewrite !map_map in E. cbn in E. rewrite !map_id in E. exact E.
Qed.

Lemma corr_entry_perm (ps ps' : list (R * R)) :
  Permutation ps ps' ->
  corr_entry (map fst ps) (map snd ps) = corr_entry (map fst ps') (map snd ps').
Proof.
  intros H. unfold corr_entry.
  rewrite (cov_perm _ _ H).
  rewrite (cov_self_perm (map fst ps) (map fst ps')) by (apply Permutation_map; exact H).
  rewrite (cov_self_perm (map snd ps) (map snd ps')) by (apply Permutation_map; exact H).
  reflexivity.
Qed.

Lemma count_if_perm (f : R -> bool) (l l' : list R) :
  Permutation l l' -> count_if f l = count_if f l'.
Proof.
  unfold count_if.
  induction 1 as [ | x l l' _ IH | x y l | l l' l'' _ IH1 _ IH2 ]; cbn.
  - reflexivity.
  - destruct (f x); cbn; congruence.
  - destruct (f x), (f y); reflexivity.
  - congruence.
Qed.

Lemma rank_in_perm (l l' : list R) (x : R) :
  Permutation l l' -> rank_in l x = rank_in l' x.
Proof.
  intros H. unfold rank_in.
  rewrite (count_if_perm _ l l' H), (count_if_perm (fun y => Reqb y x) l l' H).
  reflexivity.
Qed.

Lemma map_fst_swap (ps : list (R * R)) : map fst (map swap_pair ps) = map snd ps.
Proof. rewrite map_map. reflexivity. Qed.

Lemma map_snd_swap (ps : list (R * R)) : map snd (map swap_pair ps) = map fst ps.
Proof. rewrite map_map. reflexivity. Qed.

Lemma corrcoef_01_perm (ps ps' : list (R * R)) :
  Permutation ps ps' ->
  corrcoef_01 (map snd ps) (map fst ps) = corrcoef_01 (map snd ps') (map fst ps').
Proof.
  intros H. unfold corrcoef_01.
  rewrite <- (map_fst_swap ps), <- (map_snd_swap ps).
  rewrite <- (map_fst_swap ps'), <- (map_snd_swap ps').
  apply corr_entry_perm, Permutation_map, H.
Qed.

Lemma spearmanr_perm (ps ps' : list (R * R)) :
  Permutation ps ps' ->
  spearmanr (map snd ps) (map fst ps) = spearmanr (map snd ps') (map fst ps').
Proof.
  intros H. unfold spearmanr, rankdata.
  pose (rk := fun pt : R * R =>
                (rank_in (map fst ps) (fst pt), rank_in (map snd ps) (snd pt))).
  assert (E : forall qs : list (R * R),
             Permutation ps qs ->
             corr_entry (map (rank_in (map fst qs)) (map fst qs))
                        (map (rank_in (map snd qs)) (map snd qs))
             = corr_entry (map fst (map rk qs)) (map snd (map rk qs))).
  { intros qs Hq. rewrite !map_map. f_equal.
    - apply map_ext. intros pt. unfold rk; cbn.
      symmetry. apply rank_in_perm, Permutation_map, Hq.
    - apply map_ext. intros pt. unfold rk; cbn.
      symmetry. apply rank_in_perm, Permutation_map, Hq. }
  rewrite (E ps' H), (E ps (Permutation_refl ps)).
  apply corr_entry_perm, Permutation_map, H.
Qed.

Lemma combine_snd_fst (ps : list (R * R)) :
  combine (map snd ps) (map fst ps) = map swap_pair ps.
Proof.
  induction ps as [ | [a b] ps IH]; cbn; [ | rewrite IH ]; reflexivity.
Qed.

Lemma r2_score_perm (ps ps' : list (R * R)) :
  Permutation ps ps' ->
  r2_score (map snd ps) (map fst ps) = r2_score (map snd ps') (map fst ps').
Proof.
  intros H. unfold r2_score. rewrite !combine_snd_fst.
  assert (E1 : Rsum (map (fun tp => (fst tp - snd tp) ^ 2)%R (map swap_pair ps))
               = Rsum (map (fun tp => (fst tp - snd tp) ^ 2)%R (map swap_pair ps'))).
  { apply Rsum_perm. do 2 apply Permutation_map. exact H. }
  assert (E2 : mean (map snd ps) = mean (map snd ps')).
  { apply mean_perm, Permutation_map, H. }
  assert (E3 : Rsum (map (fun t => (t - mean (map snd ps)) ^ 2)%R (map snd ps))
               = Rsum (map (fun t => (t - mean (map snd ps')) ^ 2)%R (map snd ps'))).
  { rewrite E2. apply Rsum_perm. do 2 apply Permutation_map. exact H. }
  rewrite E1, E3. reflexivity.
Qed.

(** ** The evaluation routine *)

Lemma np_concatenate_ok (chunks : list (list R)) :
  chunks <> [] -> np_concatenate chunks = Ok (concat chunks).
Proof. destruct chunks; [ congruence | reflexivity ]. Qed.

Lemma np_sub_same_length (a b : list R) :
  List.length a = List.length b ->
  np_sub a b = Ok (map (fun ab => (fst ab - snd ab)%R) (combine a b)).
Proof.
  intros H. unfold np_sub. rewrite H, Nat.eqb_refl. reflexivity.
Qed.

Lemma shapes_agree_length (model : module) (batches : list (images * list R)) :
  shapes_agree model batches ->
  List.length (predictions model batches) = List.length (ground_truth batches).
Proof.
  unfold predictions, ground_truth.
  induction 1 as [ | b bs Hb _ IH]; cbn; [ reflexivity | ].
  rewrite !length_app, Hb, IH. reflexivity.
Qed.

(** The outcomes of the steps of [validate], case by case. *)
Ltac validate_cases :=
  unfold validate, bind, cuda, lift, ret, raise;
  repeat match goal with
         | |- context [match ?b with [] => _ | _ :: _ => _ end] => destruct b
         | |- context [if cuda_is_available then _ else _] =>
             destruct cuda_is_available
         | |- context [np_concatenate ?l] => destruct (np_concatenate l)
         | |- context [np_sub ?a ?b] => destruct (np_sub a b)
         | |- context [np_corrcoef ?a ?b] => destruct (np_corrcoef a b)
         | |- context [checked_r2_score ?f ?a ?b] =>
             destruct (checked_r2_score f a b)
         end.

Lemma validate_world (batches : list (images * list R)) (model : module) (w : world) :
  snd (validate batches model w) = w.
Proof. validate_cases; reflexivity. Qed.

Lemma validate_ok (batches : list (images * list R)) (model : module) (w : world) :
  cuda_is_available = true ->
  batches <> [] ->
  ground_truth batches <> [] ->
  shapes_agree model batches ->
  finite_outputs model batches ->
  let pred := predictions model batches in
  let truth := ground_truth batches in
  validate batches model w =
  (Ok ([spec_MAE pred truth; spec_RMSE pred truth; corrcoef_01 truth pred;
        spearmanr truth pred; r2_score truth pred], eval_mode model), w).
Proof.
  intros Hcuda Hne Hsome Hsh Hfin pred truth. subst pred truth.
  assert (Hfb : forallb (fun b => output_finite (state_dict model) false (fst b))
                  batches = true).
  { apply forallb_forall. intros b Hb.
    unfold finite_outputs in Hfin. rewrite List.Forall_forall in Hfin.
    apply Hfin, Hb. }
  pose proof (shapes_agree_length _ _ Hsh) as HL.
  unfold spec_MAE, spec_RMSE, predictions, ground_truth in *.
  unfold validate, bind, cuda, lift, ret. rewrite Hcuda.
  destruct batches as [ | b bs]; [ congruence | ].
  cbn [eval_mode state_dict training].
  rewrite !np_concatenate_ok by discriminate.
  rewrite (np_sub_same_length _ _ HL).
  unfold np_corrcoef, checked_r2_score. rewrite HL, Nat.eqb_refl.
  cbn [eval_mode state_dict training] in Hfb |- *. rewrite Hfb. cbn [negb].
  rewrite orb_false_r.
  destruct (List.length _ =? 0)%nat eqn:E.
  - apply Nat.eqb_eq, length_zero_iff_nil in E. contradiction.
  - rewrite !map_map. reflexivity.
Qed.

(** C6, as the code has it: on a host with CUDA and on every split that
    yields at least one batch and one sample (with one finite prediction
    per label), [validate] returns the five statistics in the order MAE, RMSE,
    Pearson r, Spearman r, R2, computed over the concatenation of all batch
    predictions and labels, where MAE is the mean of |pred - truth| and RMSE
    the square root of the mean of (pred - truth)^2; the other three are
    the library statistics wherever these are defined (columns that are not
    constant, at least two samples).  On every input, whether it returns
    or raises, it leaves the file system and the output untouched.  It
    does not change the model parameters, but it puts the module in
    evaluation mode and leaves it there; a module that already is in
    evaluation mode is returned as it was. *)
Theorem validate_returns_metrics
  (batches : list (images * list R)) (model : module) (w : world) :
  cuda_is_available = true ->
  batches <> [] ->
  ground_truth batches <> [] ->
  shapes_agree model batches ->
  finite_outputs model batches ->
  let pred := predictions model batches in
  let truth := ground_truth batches in
  (exists pear spear r2,
     validate batches model w =
       (Ok ([spec_MAE pred truth; spec_RMSE pred truth; pear; spear; r2],
            eval_mode model), w) /\
     ((0 < cov truth truth)%R -> (0 < cov pred pred)%R ->
      pear = corrcoef_01 truth pred) /\
     ((0 < cov (rankdata truth) (rankdata truth))%R ->
      (0 < cov (rankdata pred) (rankdata pred))%R ->
      spear = spearmanr truth pred) /\
     ((2 <= List.length truth)%nat -> r2 = r2_score truth pred))
  /\ (forall bs m w0, snd (validate bs m w0) = w0)
  /\ (forall bs m w0 metrics m',
        validate bs m w0 = (Ok (metrics, m'), w0) ->
        m' = eval_mode m /\ state_dict m' = state_dict m /\
        training m' = false /\ (training m = false -> m' = m) /\
        List.length metrics = 5%nat).
Proof.
  intros Hcuda Hne Hsome Hsh Hfin pred truth. split; [ | split ].
  - exists (corrcoef_01 truth pred), (spearmanr truth pred), (r2_score truth pred).
    split; [ exact (validate_ok batches model w Hcuda Hne Hsome Hsh Hfin) | auto ].
  - intros bs m w0. apply validate_world.
  - intros bs m w0 metrics m' H.
    assert (Hm : m' = eval_mode m /\ List.length metrics = 5%nat).
    { revert H. validate_cases; intros H; try discriminate;
        injection H as <- <-; split; reflexivity. }
    destruct Hm as [-> Hlen]. repeat split; auto.
    intros Hmode. destruct m as [p mode]. cbn in Hmode. subst mode. reflexivity.
Qed.

(** *** Reordering the batches *)

Lemma map_fst_combine_same {A B : Type} (a : list A) (b : list B) :
  List.length a = List.length b -> map fst (combine a b) = a.
Proof.
  revert b. induction a as [ | x a IH]; intros [ | y b] H; cbn in *;
    try discriminate; [ reflexivity | ].
  rewrite IH by congruence. reflexivity.
Qed.

Lemma map_snd_combine_same {A B : Type} (a : list A) (b : list B) :
  List.length a = List.length b -> map snd (combine a b) = b.
Proof.
  revert b. induction a as [ | x a IH]; intros [ | y b] H; cbn in *;
    try discriminate; [ reflexivity | ].
  rewrite IH by congruence. reflexivity.
Qed.

Lemma samples_columns (model : module) (batches : list (images * list R)) :
  shapes_agree model batches ->
  predictions model batches = map fst (samples model batches) /\
  ground_truth batches = map snd (samples model batches).
Proof.
  unfold predictions, ground_truth, samples.
  induction 1 as [ | b bs Hb _ [IH1 IH2]]; cbn; [ split; reflexivity | ].
  rewrite !map_app, <- IH1, <- IH2.
  rewrite map_fst_combine_same, map_snd_combine_same by exact Hb.
  split; reflexivity.
Qed.

Lemma samples_perm (model : module) (bs bs' : list (images * list R)) :
  Permutation bs bs' -> Permutation (samples model bs) (samples model bs').
Proof.
  unfold samples.
  induction 1 as [ | x l l' _ IH | x y l | l l' l'' _ IH1 _ IH2 ]; cbn.
  - constructor.
  - apply Permutation_app_head, IH.
  - rewrite !app_assoc. apply Permutation_app_tail, Permutation_app_comm.
  - etransitivity; eassumption.
Qed.

Lemma spec_MAE_perm (ps ps' : list (R * R)) :
  Permutation ps ps' ->
  spec_MAE (map fst ps) (map snd ps) = spec_MAE (map fst ps') (map snd ps').
Proof.
  intros H. unfold spec_MAE. rewrite !combine_fst_snd.
  apply mean_perm, Permutation_map, H.
Qed.

Lemma spec_RMSE_perm (ps ps' : list (R * R)) :
  Permutation ps ps' ->
  spec_RMSE (map fst ps) (map snd ps) = spec_RMSE (map fst ps') (map snd ps').
Proof.
  intros H. unfold spec_RMSE. rewrite !combine_fst_snd.
  f_equal. apply mean_perm, Permutation_map, H.
Qed.

Lemma ground_truth_perm (bs bs' : list (images * list R)) :
  Permutation bs bs' ->
  List.length (ground_truth bs) = List.length (ground_truth bs').
Proof.
  unfold ground_truth.
  induction 1 as [ | x l l' _ IH | x y l | l l' l'' _ IH1 _ IH2 ]; cbn.
  - reflexivity.
  - rewrite !length_app, IH. reflexivity.
  - rewrite !length_app. lia.
  - congruence.
Qed.

(** C8, in exact arithmetic: for a fixed model, permuting the order of the
    batches of a split that can be evaluated leaves all five statistics
    that [validate] computes unchanged when sums, means and square roots
    are taken over the reals: each statistic is a function of the multiset
    of (prediction, label) pairs.  (What rounding does to the sum of the
    MAE in the floating-point arithmetic of the code is computed with
    [float_MAE].) *)
Theorem validate_batch_order_invariant
  (batches batches' : list (images * list R)) (model : module) (w : world) :
  Permutation batches batches' ->
  cuda_is_available = true ->
  batches <> [] ->
  ground_truth batches <> [] ->
  shapes_agree model batches ->
  finite_outputs model batches ->
  validate batches' model w = validate batches model w /\
  exists metrics m, validate batches model w = (Ok (metrics, m), w).
Proof.
  intros Hp Hcuda Hne Hsome Hsh Hfin.
  assert (Hfin' : finite_outputs model batches').
  { unfold finite_outputs in *. eapply Permutation_Forall; eassumption. }
  assert (Hne' : batches' <> []).
  { intros ->. apply Permutation_sym, Permutation_nil in Hp. contradiction. }
  assert (Hsome' : ground_truth batches' <> []).
  { intros E. apply Hsome, length_zero_iff_nil.
    rewrite (ground_truth_perm _ _ Hp), E. reflexivity. }
  assert (Hsh' : shapes_agree model batches').
  { unfold shapes_agree in *. eapply Permutation_Forall; eassumption. }
  rewrite (validate_ok batches model w Hcuda Hne Hsome Hsh Hfin).
  rewrite (validate_ok batches' model w Hcuda Hne' Hsome' Hsh' Hfin').
  split; [ | eauto ].
  destruct (samples_columns model batches Hsh) as [-> ->].
  destruct (samples_columns model batches' Hsh') as [-> ->].
  pose proof (samples_perm model _ _ Hp) as Hs.
  rewrite (spec_MAE_perm _ _ Hs), (spec_RMSE_perm _ _ Hs).
  rewrite (corrcoef_01_perm _ _ Hs), (spearmanr_perm _ _ Hs), (r2_score_perm _ _ Hs).
  reflexivity.
Qed.

(** ** Criterion selection and the per-batch loss *)

Lemma str_in_cons_false (x y : string) (l : list string) :
  str_in x (y :: l) = false -> (x =? y)%string = false /\ str_in x l = false.
Proof.
  unfold str_in; cbn. intros H. apply orb_false_iff in H. exact H.
Qed.

(** C2, as the code has it: for the loss kinds FAR and FAR-EXP the
    criterion is [FAR(alpha, version)] and every training batch calls it on
    the model output and the labels only; the feature tensor is not an
    argument, and the loss value does not depend on it. *)
Theorem far_loss_of_output_and_labels (opt : options) :
  str_in (loss opt) ["FAR"; "FAR-EXP"] = true ->
  snd (set_model opt) = FAR (alpha opt) (loss opt) /\
  batch_loss opt (snd (set_model opt))
  = Criterion (FAR (alpha opt) (loss opt)) [Output; Labels] /\
  forall output labels feat feat',
    eval_loss (tensors output feat labels) (batch_loss opt (snd (set_model opt)))
    = FAR_forward (alpha opt) (loss opt) [Reals output; Reals labels] /\
    eval_loss (tensors output feat' labels) (batch_loss opt (snd (set_model opt)))
    = eval_loss (tensors output feat labels) (batch_loss opt (snd (set_model opt))).
Proof.
  intros H. unfold set_model; cbn [snd]. rewrite H.
  assert (E : batch_loss opt (FAR (alpha opt) (loss opt))
              = Criterion (FAR (alpha opt) (loss opt)) [Output; Labels]).
  { unfold batch_loss. unfold str_in in H; cbn in H.
    destruct (String.eqb_spec (loss opt) "FAR") as [-> | _]; [ reflexivity | ].
    destruct (String.eqb_spec (loss opt) "FAR-EXP") as [-> | _]; [ reflexivity | ].
    discriminate. }
  split; [ reflexivity | split; [ exact E | ] ].
  intros output labels feat feat'. rewrite E. split; reflexivity.
Qed.

(** C3: for every loss name outside FAR, FAR-EXP, ConR, ranksim, focal-l1
    and focal-mse, [set_model] returns the default L1 criterion without
    failing, and the loss of a training batch is [L1Loss()(output, labels)],
    the mean of |output - labels|. *)
Theorem unknown_loss_falls_back_to_l1 (opt : options) :
  str_in (loss opt) special_losses = false ->
  snd (set_model opt) = L1Loss /\
  batch_loss opt (snd (set_model opt)) = Criterion L1Loss [Output; Labels] /\
  forall output labels feat,
    eval_loss (tensors output feat labels) (batch_loss opt (snd (set_model opt)))
    = l1_loss output labels /\
    (List.length output = List.length labels ->
     eval_loss (tensors output feat labels) (batch_loss opt (snd (set_model opt)))
     = Ok (spec_MAE output labels)).
Proof.
  unfold special_losses. intros H.
  apply str_in_cons_false in H as [H1 H]. apply str_in_cons_false in H as [H2 H].
  apply str_in_cons_false in H as [H3 H]. apply str_in_cons_false in H as [H4 H].
  apply str_in_cons_false in H as [H5 H]. apply str_in_cons_false in H as [H6 _].
  assert (Hc : snd (set_model opt) = L1Loss).
  { unfold set_model, str_in; cbn. rewrite H1, H2. reflexivity. }
  assert (Hb : batch_loss opt L1Loss = Criterion L1Loss [Output; Labels]).
  { unfold batch_loss. rewrite H3, H4, H5, H6. reflexivity. }
  rewrite Hc, Hb. split; [ reflexivity | split; [ reflexivity | ] ].
  intros output labels feat. split; [ reflexivity | ].
  intros HL. cbn. unfold l1_loss. rewrite (np_sub_same_length _ _ HL). cbn.
  unfold spec_MAE. rewrite map_map. reflexivity.
Qed.

(** ** The epoch loop *)

Lemma train_loop_trace (opt : options) (criterion : criterion) (epoch total : Z)
  (batches : list (images * list R)) :
  forall idx model optimizer losses w r w',
    train_loop opt criterion epoch total batches idx model optimizer losses w
    = (r, w') ->
    fs w' = fs w /\ exists t, trace w' = (trace w ++ t)%list /\ Forall is_progress t.
Proof.
  induction batches as [ | [imgs labels] rest IH];
    intros idx model optimizer losses w r w' H; cbn in H.
  - unfold ret in H. injection H as _ <-.
    split; [ reflexivity | ]. exists []. rewrite app_nil_r. auto.
  - destruct (forward _ _ imgs) as [output feat].
    unfold bind at 1, lift in H.
    destruct (eval_loss _ _) as [lv | e].
    2:{ injection H as _ <-. split; [ reflexivity | ]. exists [].
        rewrite app_nil_r. auto. }
    destruct (optimizer_step _ _ _ _ _) as [p o].
    unfold bind at 1 in H.
    destruct (py_mod _ _) as [m | e].
    2:{ injection H as _ <-. split; [ reflexivity | ]. exists [].
        rewrite app_nil_r. auto. }
    unfold bind at 1 in H.
    destruct (m =? 0)%Z.
    + unfold print in H. apply IH in H as [Hfs (t & Ht & HF)]. cbn in *.
      split; [ exact Hfs | ].
      eexists (_ :: t). rewrite Ht, <- app_assoc. split; [ reflexivity | ].
      constructor; [ exact I | exact HF ].
    + unfold ret in H. apply IH in H. exact H.
Qed.

Lemma train_trace (batches : list (images * list R)) (model : module)
  (criterion : criterion) (optimizer : ostate) (epoch : Z) (opt : options)
  (w : world) r w' :
  train batches model criterion optimizer epoch opt w = (r, w') ->
  fs w' = fs w /\ exists t, trace w' = (trace w ++ t)%list /\ Forall is_progress t.
Proof. unfold train. apply train_loop_trace. Qed.

Lemma validate_result (batches : list (images * list R)) (model : module)
  (w : world) metrics m' w' :
  validate batches model w = (Ok (metrics, m'), w') ->
  w' = w /\ m' = eval_mode model /\
  exists a b c d e, metrics = [a; b; c; d; e].
Proof.
  validate_cases; intros H; try discriminate;
    injection H as <- <- <-; eauto 10.
Qed.

Lemma bind_ok_inv {A B : Type} (m : M A) (k : A -> M B) (w : world) b w' :
  bind m k w = (Ok b, w') ->
  exists a w1, m w = (Ok a, w1) /\ k a w1 = (Ok b, w').
Proof.
  unfold bind. destruct (m w) as [[a | e] w1]; [ eauto | discriminate ].
Qed.

Lemma print_inv (e : event) (w : world) u w' :
  print e w = (Ok u, w') -> fs w' = fs w /\ trace w' = (trace w ++ [e])%list.
Proof. unfold print. intros H. injection H as _ <-. split; reflexivity. Qed.

Lemma write_file_inv (path : string) (n : fnode) (w : world) u w' :
  write_file path n w = (Ok u, w') ->
  fs w' = <[path := n]> (fs w) /\ trace w' = (trace w ++ [Write path n])%list.
Proof. unfold write_file. intros H. injection H as _ <-. split; reflexivity. Qed.

Lemma ret_inv {A : Type} (a : A) (w : world) b w' :
  ret a w = (Ok b, w') -> b = a /\ w' = w.
Proof. unfold ret. intros H. injection H as <- <-. split; reflexivity. Qed.

Lemma index_head {A : Type} (x : A) (l : list A) : PyStr.index (x :: l) 0 = Ok x.
Proof.
  unfold PyStr.index. cbn [Z.ltb Z.compare List.length].
  replace (Z.of_nat (S (List.length l)) <=? 0)%Z with false
    by (symmetry; apply Z.leb_gt; lia).
  reflexivity.
Qed.

Lemma epoch_body_obs (opt : options) (train_loader val_loader test_loader : DataLoader)
  (criterion : criterion) (save_file_best : string)
  (st : loop_state) (epoch : Z) (w : world) st' w' :
  epoch_body opt train_loader val_loader test_loader criterion save_file_best
    st epoch w = (Ok st', w') ->
  exists o,
    ob_epoch o = epoch /\
    Forall is_progress (ob_progress o) /\
    List.length (ob_valid o) = 5%nat /\
    List.length (ob_test o) = 5%nat /\
    save_freq opt <> 0%Z /\
    st' = obs_state (best_error st) (best_test st) o /\
    trace w' = (trace w ++ obs_events opt save_file_best
                             (best_error st) (best_test st) o)%list.
Proof.
  unfold epoch_body. intros H.
  apply bind_ok_inv in H as ([m1 o1] & w1 & Htrain & H).
  apply train_trace in Htrain as [Hfs1 (tp & Ht1 & Hprog)].
  apply bind_ok_inv in H as ([valid m2] & w2 & Hval & H).
  apply validate_result in Hval as (-> & -> & (a & b & c & d & e & ->)).
  apply bind_ok_inv in H as (u1 & w3 & [_ Hp1]%print_inv & H).
  apply bind_ok_inv in H as (u2 & w4 & [_ Hp2]%print_inv & H).
  apply bind_ok_inv in H as (v & w5 & Hix & H).
  unfold lift in Hix. rewrite index_head in Hix. injection Hix as <- <-.
  apply bind_ok_inv in H as (u3 & w6 & [_ Hp3]%print_inv & H).
  apply bind_ok_inv in H as ([test m3] & w7 & Htest & H).
  apply validate_result in Htest as (-> & -> & (a' & b' & c' & d' & e' & ->)).
  apply bind_ok_inv in H as (u4 & w8 & [_ Hp4]%print_inv & H).
  apply bind_ok_inv in H as (r & w9 & Hmod & H).
  unfold lift, py_mod in Hmod.
  destruct (save_freq opt =? 0)%Z eqn:Hsf; [ discriminate | ].
  apply Z.eqb_neq in Hsf. injection Hmod as <- <-.
  apply bind_ok_inv in H as (u5 & w10 & Hper & H).
  apply bind_ok_inv in H as (bt & w11 & Hbest & H).
  apply bind_ok_inv in H as (u6 & w12 & [_ Hp6]%print_inv & H).
  apply ret_inv in H as [-> ->].
  exists (mk_obs epoch tp [a; b; c; d; e] [a'; b'; c'; d'; e']
            (eval_mode (eval_mode m1)) o1).
  unfold obs_events, obs_state, valid_mae; cbn [ob_epoch ob_progress ob_valid ob_test
    ob_model ob_optimizer hd].
  repeat (split; [ solve [ reflexivity | assumption ] | ]).
  rewrite Hp6.
  assert (Hw10 : trace w10 =
    (trace w8 ++ (if (epoch mod save_freq opt =? 0)%Z
                  then [Write (periodic_file opt epoch)
                          (Pickle (periodic_checkpoint opt epoch
                                     (eval_mode (eval_mode m1)) o1))]
                  else []))%list).
  { destruct (epoch mod save_freq opt =? 0)%Z.
    - apply write_file_inv in Hper as [_ ->]. reflexivity.
    - apply ret_inv in Hper as [_ ->]. rewrite app_nil_r. reflexivity. }
  destruct (Rltb a (best_error st)).
  - apply bind_ok_inv in Hbest as (u7 & w13 & [_ Hw]%write_file_inv & Hbest).
    apply ret_inv in Hbest as [-> ->].
    split; [ reflexivity | ].
    rewrite Hw, Hw10, Hp4, Hp3, Hp2, Hp1, Ht1, <- !app_assoc. reflexivity.
  - apply ret_inv in Hbest as [-> ->].
    split; [ reflexivity | ].
    rewrite Hw10, Hp4, Hp3, Hp2, Hp1, Ht1, <- !app_assoc. reflexivity.
Qed.

Lemma for_epochs_obs (opt : options) (train_loader val_loader test_loader : DataLoader)
  (criterion : criterion) (save_file_best : string) (es : list Z) :
  forall (st : loop_state) (w : world) st' w',
    for_epochs
      (epoch_body opt train_loader val_loader test_loader criterion save_file_best)
      es st w = (Ok st', w') ->
    exists obs,
      map ob_epoch obs = es /\
      Forall well_formed_obs obs /\
      (es <> [] -> save_freq opt <> 0%Z) /\
      best_error st' = fst (run_best (best_error st) (best_test st) obs) /\
      best_test st' = snd (run_best (best_error st) (best_test st) obs) /\
      trace w' = (trace w ++ run_events opt save_file_best
                               (best_error st) (best_test st) obs)%list.
Proof.
  induction es as [ | e es IH]; intros st w st' w' H; cbn in H.
  - apply ret_inv in H as [-> ->]. exists []. cbn. rewrite app_nil_r.
    repeat split; auto.
  - apply bind_ok_inv in H as (st1 & w1 & Hbody & H).
    apply epoch_body_obs in Hbody
      as (o & Hep & Hprog & Hv & Ht & Hsf & -> & Htr).
    apply IH in H as (obs & Hes & Hwf & _ & Hb & Hbt & Htr').
    exists (o :: obs). cbn in *.
    rewrite Hes, Hep, Htr', Htr, <- app_assoc.
    repeat split; auto. constructor; [ repeat split; assumption | exact Hwf ].
Qed.

(** *** What a trace shows *)

Lemma string_app_inv_head (p x y : string) : p ++ x = p ++ y -> x = y.
Proof.
  induction p as [ | c p IH]; cbn; intros H; [ exact H | ].
  injection H as H. apply IH, H.
Qed.

Lemma periodic_file_not_best (opt : options) (epoch : Z) :
  periodic_file opt epoch <> best_file opt.
Proof.
  unfold periodic_file, best_file, PyStr.path_join. cbn [PyStr.startswith append].
  cbn. destruct (_ || _); intros H; apply string_app_inv_head in H; discriminate.
Qed.

Lemma valid_maes_progress (t : list event) :
  Forall is_progress t -> valid_maes t = [].
Proof.
  induction 1 as [ | e t He _ IH]; [ reflexivity | ].
  destruct e; try contradiction. exact IH.
Qed.


Lemma writes_to_progress (path : string) (t : list event) :
  Forall is_progress t -> writes_to path t = [].
Proof.
  induction 1 as [ | e t He _ IH]; [ reflexivity | ].
  destruct e; try contradiction. exact IH.
Qed.

Lemma written_paths_progress (t : list event) :
  Forall is_progress t -> written_paths t = [].
Proof.
  induction 1 as [ | e t He _ IH]; [ reflexivity | ].
  destruct e; try contradiction. exact IH.
Qed.

Lemma valid_maes_obs (opt : options) (f : string) (b : R) (bt : list R) (o : epoch_obs) :
  well_formed_obs o -> valid_maes (obs_events opt f b bt o) = [valid_mae o].
Proof.
  intros (Hp & _ & _). unfold obs_events, valid_maes.
  rewrite flat_map_app. fold (valid_maes (ob_progress o)).
  rewrite (valid_maes_progress _ Hp).
  destruct (_ =? 0)%Z, (Rltb _ _); reflexivity.
Qed.


Lemma writes_to_best_obs (opt : options) (b : R) (bt : list R) (o : epoch_obs) :
  well_formed_obs o ->
  writes_to (best_file opt) (obs_events opt (best_file opt) b bt o)
  = if Rltb (valid_mae o) b
    then [best_checkpoint (ob_epoch o) (ob_model o) (pymin (valid_mae o) b)]
    else [].
Proof.
  intros (Hp & _ & _). unfold obs_events, writes_to.
  rewrite flat_map_app. fold (writes_to (best_file opt) (ob_progress o)).
  rewrite (writes_to_progress _ _ Hp).
  pose proof (periodic_file_not_best opt (ob_epoch o)) as Hne.
  apply String.eqb_neq in Hne.
  generalize dependent (best_file opt). intros f Hne.
  generalize dependent (periodic_file opt (ob_epoch o)). intros g Hne.
  destruct (_ =? 0)%Z, (Rltb _ _); cbn; rewrite ?Hne, ?String.eqb_refl; reflexivity.
Qed.

Lemma Rltb_lt (a b : R) : Rltb a b = true <-> (a < b)%R.
Proof. unfold Rltb. destruct (Rlt_dec a b); split; intros; congruence || assumption. Qed.

Lemma lt_pymin (v u b : R) : (v < pymin u b)%R <-> (v < u /\ v < b)%R.
Proof. unfold pymin. destruct (Rlt_dec b u); split; intros; lra. Qed.

Lemma valid_maes_run (opt : options) (f : string) (obs : list epoch_obs) :
  Forall well_formed_obs obs ->
  forall b bt, valid_maes (run_events opt f b bt obs) = map valid_mae obs.
Proof.
  induction 1 as [ | o obs Ho _ IH]; intros b bt; cbn; [ reflexivity | ].
  unfold valid_maes. rewrite flat_map_app.
  fold (valid_maes (obs_events opt f b bt o)).
  rewrite (valid_maes_obs _ _ _ _ _ Ho). cbn. f_equal. apply IH.
Qed.


Lemma saved_epoch_best (epoch : Z) (model : module) (b : R) :
  saved_epoch (best_checkpoint epoch model b) = Some epoch.
Proof. reflexivity. Qed.

Lemma best_saves_run (opt : options) (obs : list epoch_obs) :
  Forall well_formed_obs obs ->
  forall b bt,
    best_saves opt (run_events opt (best_file opt) b bt obs)
    = map (fun o => Some (ob_epoch o)) (improving b obs).
Proof.
  unfold best_saves.
  induction 1 as [ | o obs Ho _ IH]; intros b bt; cbn [run_events improving];
    [ reflexivity | ].
  unfold writes_to. rewrite flat_map_app.
  fold (writes_to (best_file opt) (obs_events opt (best_file opt) b bt o)).
  rewrite (writes_to_best_obs _ _ _ _ Ho), !map_app.
  f_equal; [ | apply IH ].
  destruct (Rltb _ _); reflexivity.
Qed.

Lemma improving_spec (obs : list epoch_obs) :
  forall b o,
    In o (improving b obs) <->
    exists k, nth_error obs k = Some o /\ (valid_mae o < b)%R /\
              forall j u, (j < k)%nat -> nth_error obs j = Some u ->
                          (valid_mae o < valid_mae u)%R.
Proof.
  induction obs as [ | o1 obs IH]; intros b o; cbn.
  - split; [ contradiction | ]. intros ([ | k] & H & _); discriminate.
  - rewrite in_app_iff, IH. split.
    + intros [H | (k & Hk & Hlt & Hall)].
      * destruct (Rltb (valid_mae o1) b) eqn:E; [ | contradiction ].
        destruct H as [-> | []]. apply Rltb_lt in E.
        exists 0%nat. repeat split; auto. intros j u Hj. lia.
      * apply lt_pymin in Hlt as [Hlt1 Hlt2].
        exists (S k). repeat split; auto.
        intros [ | j] u Hj Hu; cbn in Hu.
        -- injection Hu as <-. exact Hlt1.
        -- apply (Hall j u); [ lia | exact Hu ].
    + intros ([ | k] & Hk & Hlt & Hall); cbn in Hk.
      * injection Hk as ->. left.
        apply Rltb_lt in Hlt. rewrite Hlt. left. reflexivity.
      * right. exists k. repeat split; auto.
        -- apply lt_pymin. split; [ | exact Hlt ].
           apply (Hall 0%nat o1); [ lia | reflexivity ].
        -- intros j u Hj Hu. apply (Hall (S j) u); [ lia | exact Hu ].
Qed.

Lemma range_NoDup (a b : Z) : List.NoDup (range a b).
Proof.
  unfold range. apply Injective_map_NoDup.
  - intros i j H. lia.
  - apply seq_NoDup.
Qed.

Lemma nth_error_NoDup_eq {A : Type} (l : list A) (i j : nat) (x : A) :
  List.NoDup l -> nth_error l i = Some x -> nth_error l j = Some x -> i = j.
Proof.
  intros Hnd Hi Hj.
  apply (proj1 (List.NoDup_nth_error l) Hnd).
  - apply nth_error_Some. congruence.
  - congruence.
Qed.

Lemma written_paths_run (opt : options) (obs : list epoch_obs) :
  Forall well_formed_obs obs ->
  forall b bt p,
    In p (written_paths (run_events opt (best_file opt) b bt obs)) ->
    p = best_file opt \/
    exists e, In e (map ob_epoch obs) /\ p = periodic_file opt e.
Proof.
  induction 1 as [ | o obs Ho _ IH]; intros b bt p; cbn [run_events map];
    [ contradiction | ].
  unfold written_paths. rewrite flat_map_app, in_app_iff.
  fold (written_paths (run_events opt (best_file opt) (pymin (valid_mae o) b)
                         (if Rltb (valid_mae o) b then ob_test o else bt) obs)).
  intros [H | H].
  - unfold obs_events in H. rewrite flat_map_app, in_app_iff in H.
    fold (written_paths (ob_progress o)) in H.
    destruct Ho as (Hp & _ & _). rewrite (written_paths_progress _ Hp) in H.
    destruct H as [[] | H].
    destruct (_ =? 0)%Z, (Rltb _ _); cbn in H;
      repeat (destruct H as [<- | H]; [ eauto using in_eq | ]); contradiction.
  - apply IH in H as [-> | (e & He & ->)]; [ left; reflexivity | ].
    right. exists e. split; [ right; exact He | reflexivity ].
Qed.

Lemma main_loop_obs (opt : options) (train_loader val_loader test_loader : DataLoader)
  (criterion : criterion) (model : module) (optimizer : ostate)
  (start_epoch : Z + R) (w : world) st' w' :
  main_loop opt train_loader val_loader test_loader criterion model optimizer
    start_epoch w = (Ok st', w') ->
  exists start obs,
    start_epoch = inl start /\
    map ob_epoch obs = range start (epochs opt + 1) /\
    Forall well_formed_obs obs /\
    best_error st' = fst (run_best initial_best_error initial_best_test obs) /\
    best_test st' = snd (run_best initial_best_error initial_best_test obs) /\
    trace w' = (trace w ++ run_events opt (best_file opt)
                             initial_best_error initial_best_test obs)%list.
Proof.
  unfold main_loop. destruct start_epoch as [start | x]; [ | discriminate ].
  intros H. apply for_epochs_obs in H as (obs & Hes & Hwf & _ & Hb & Hbt & Htr).
  exists start, obs. cbn in *. auto 10.
Qed.

(** C1: in a training loop that runs to completion, the best checkpoint is
    written at an epoch if and only if that epoch's validation MAE is
    strictly below the baseline 1e10 and below every validation MAE observed
    earlier in the run.  Every file the loop writes is either the one best
    checkpoint file or the periodic checkpoint of an epoch.  For the
    validation MAEs 5, 3, 4, 2 of epochs 1 to 4 the best checkpoint is
    written at epochs 1, 2 and 4 and not at epoch 3. *)
Theorem best_checkpoint_iff_strict_improvement
  (opt : options) (train_loader val_loader test_loader : DataLoader)
  (criterion : criterion) (model : module) (optimizer : ostate)
  (start : Z) (w : world) st' w' :
  main_loop opt train_loader val_loader test_loader criterion model optimizer
    (inl start) w = (Ok st', w') ->
  exists t,
    trace w' = (trace w ++ t)%list /\
    List.length (valid_maes t) = List.length (range start (epochs opt + 1)) /\
    (forall k e v,
       nth_error (range start (epochs opt + 1)) k = Some e ->
       nth_error (valid_maes t) k = Some v ->
       (In (Some e) (best_saves opt t) <->
        (v < initial_best_error)%R /\
        forall j u, (j < k)%nat -> nth_error (valid_maes t) j = Some u -> (v < u)%R)) /\
    (forall p, In p (written_paths t) ->
       p = best_file opt \/
       exists e, In e (range start (epochs opt + 1)) /\ p = periodic_file opt e) /\
    (start = 1%Z -> valid_maes t = [5; 3; 4; 2]%R ->
     best_saves opt t = [Some 1; Some 2; Some 4]%Z).
Proof.
  intros H. apply main_loop_obs in H as (s & obs & Hs & Hes & Hwf & _ & _ & Htr).
  injection Hs as <-.
  exists (run_events opt (best_file opt) initial_best_error initial_best_test obs).
  rewrite (valid_maes_run _ _ _ Hwf), (best_saves_run _ _ Hwf).
  split; [ exact Htr | ]. split; [ rewrite <- Hes, !length_map; reflexivity | ].
  split; [ | split ].
  - intros k e v Hk Hv. rewrite <- Hes in Hk.
    rewrite nth_error_map in Hk, Hv.
    destruct (nth_error obs k) as [o | ] eqn:Ho; [ | discriminate ].
    cbn in Hk, Hv. injection Hk as <-. injection Hv as <-.
    rewrite in_map_iff. split.
    + intros (o' & He & Hin). injection He as He.
      apply improving_spec in Hin as (k' & Hk' & Hlt & Hall).
      assert (k' = k) as ->.
      { apply (nth_error_NoDup_eq (map ob_epoch obs) k' k (ob_epoch o)).
        - rewrite Hes. apply range_NoDup.
        - rewrite nth_error_map, Hk'. cbn. congruence.
        - rewrite nth_error_map, Ho. reflexivity. }
      assert (o' = o) as -> by congruence.
      split; [ exact Hlt | ].
      intros j u Hj Hu. rewrite nth_error_map in Hu.
      destruct (nth_error obs j) as [oj | ] eqn:Hoj; [ | discriminate ].
      injection Hu as <-. apply (Hall j oj Hj Hoj).
    + intros [Hlt Hall]. exists o. split; [ reflexivity | ].
      apply improving_spec. exists k. repeat split; auto.
      intros j u Hj Hu. apply (Hall j); [ exact Hj | ].
      rewrite nth_error_map, Hu. reflexivity.
  - intros p Hp. apply (written_paths_run _ _ Hwf) in Hp. rewrite Hes in Hp. exact Hp.
  - intros -> Hv.
    assert (Hlen : List.length (range 1 (epochs opt + 1)) = 4%nat).
    { rewrite <- Hes, length_map, <- (length_map valid_mae), Hv. reflexivity. }
    unfold range in Hlen, Hes. rewrite length_map, length_seq in Hlen.
    rewrite Hlen in Hes. cbn in Hes.
    destruct obs as [ | o1 [ | o2 [ | o3 [ | o4 [ | o5 obs]]]]]; try discriminate.
    cbn in Hes, Hv. injection Hes as E1 E2 E3 E4. injection Hv as V1 V2 V3 V4.
    cbn [improving]. rewrite V1, V2, V3, V4.
    unfold initial_best_error, pymin, Rltb.
    repeat (destruct (Rlt_dec _ _); try lra).
    cbn. rewrite E1, E2, E4. reflexivity.
Qed.

(** *** Runs that complete *)






(** *** The best-test record *)





Lemma blind_ret {A : Type} (a : A) : world_blind (ret a).
Proof. intros w1 w2. reflexivity. Qed.

Lemma blind_lift {A : Type} (r : result A) : world_blind (lift r).
Proof. intros w1 w2. reflexivity. Qed.



Lemma blind_bind {A B : Type} (m : M A) (k : A -> M B) :
  world_blind m -> (forall a, world_blind (k a)) -> world_blind (bind m k).
Proof.
  intros Hm Hk w1 w2. unfold bind. specialize (Hm w1 w2).
  destruct (m w1) as [[a1 | e1] u1], (m w2) as [[a2 | e2] u2]; cbn in *;
    try congruence.
  injection Hm as <-. apply Hk.
Qed.


Lemma blind_validate (batches : list (images * list R)) (model : module) :
  world_blind (validate batches model).
Proof.
  unfold validate.
  apply blind_bind; [ | intros _ ].
  { intros w1 w2. unfold cuda.
    destruct batches, cuda_is_available; reflexivity. }
  repeat (apply blind_bind; [ apply blind_lift | intros ? ]).
  apply blind_ret.
Qed.





(** *** The two checkpoint schemas *)

Lemma in_obs_events_write (opt : options) (f : string) (b : R) (bt : list R)
  (o : epoch_obs) (p : string) (n : fnode) :
  Forall is_progress (ob_progress o) ->
  In (Write p n) (obs_events opt f b bt o) <->
  ((ob_epoch o mod save_freq opt = 0)%Z /\
   p = periodic_file opt (ob_epoch o) /\
   n = Pickle (periodic_checkpoint opt (ob_epoch o) (ob_model o) (ob_optimizer o)))
  \/ ((valid_mae o < b)%R /\ p = f /\
      n = Pickle (best_checkpoint (ob_epoch o) (ob_model o) (pymin (valid_mae o) b))).
Proof using Type.
  intros Hp. clear - Hp. unfold obs_events. rewrite in_app_iff.
  assert (Hnot : ~ In (Write p n) (ob_progress o)).
  { intros Hin. rewrite List.Forall_forall in Hp. apply (Hp _ Hin). }
  destruct (ob_epoch o mod save_freq opt =? 0)%Z eqn:Es;
    [ apply Z.eqb_eq in Es | apply Z.eqb_neq in Es ];
    (destruct (Rltb (valid_mae o) b) eqn:Eb;
     [ apply Rltb_lt in Eb
     | assert (Hnb : ~ (valid_mae o < b)%R)
         by (intros Hc; apply Rltb_lt in Hc; congruence) ]);
    cbn; split; intros H;
    repeat match goal with
           | H : _ \/ _ |- _ => destruct H
           | H : _ /\ _ |- _ => destruct H
           | H : Write _ _ = Write _ _ |- _ => injection H as <- <-
           | H : False |- _ => contradiction
           | H : _ = Write _ _ |- _ => discriminate H
           end; subst; tauto.
Qed.

Lemma in_run_events_write (opt : options) (f : string) (obs : list epoch_obs)
  (p : string) (n : fnode) :
  Forall well_formed_obs obs ->
  forall b bt,
    In (Write p n) (run_events opt f b bt obs) ->
    exists o, In o obs /\
      (((ob_epoch o mod save_freq opt = 0)%Z /\
        p = periodic_file opt (ob_epoch o) /\
        n = Pickle (periodic_checkpoint opt (ob_epoch o) (ob_model o)
                      (ob_optimizer o)))
       \/ (exists b', p = f /\
             n = Pickle (best_checkpoint (ob_epoch o) (ob_model o) b'))).
Proof.
  induction 1 as [ | o obs Ho _ IH]; intros b bt; cbn [run_events];
    [ contradiction | ].
  rewrite in_app_iff. intros [H | H].
  - destruct Ho as (Hp & _ & _). apply (in_obs_events_write _ _ _ _ _ _ _ Hp) in H.
    exists o. split; [ left; reflexivity | ].
    destruct H as [H | (_ & -> & ->)]; [ left; exact H | right; eauto ].
  - apply IH in H as (o' & Hin & H). exists o'. split; [ right; exact Hin | exact H ].
Qed.

Lemma periodic_write_in_run (opt : options) (f : string) (obs : list epoch_obs)
  (o : epoch_obs) :
  Forall well_formed_obs obs ->
  In o obs -> (ob_epoch o mod save_freq opt = 0)%Z ->
  forall b bt,
    In (Write (periodic_file opt (ob_epoch o))
          (Pickle (periodic_checkpoint opt (ob_epoch o) (ob_model o) (ob_optimizer o))))
       (run_events opt f b bt obs).
Proof.
  induction 1 as [ | o1 obs Ho _ IH]; intros Hin Hmod b bt; cbn [run_events];
    [ contradiction | ].
  rewrite in_app_iff. destruct Hin as [-> | Hin].
  - left. destruct Ho as (Hp & _ & _).
    apply (in_obs_events_write _ _ _ _ _ _ _ Hp). left. auto.
  - right. apply IH; assumption.
Qed.

Lemma dom_periodic_checkpoint (opt : options) (epoch : Z) (model : module)
  (optimizer : ostate) :
  dom (periodic_checkpoint opt epoch model optimizer)
  = ({[ "epoch"; "model"; "optimizer"; "best_error" ]} : gset string).
Proof using Type.
  unfold periodic_checkpoint. rewrite !dom_insert_L, dom_empty_L. set_solver.
Qed.

Lemma dom_best_checkpoint (epoch : Z) (model : module) (b : R) :
  dom (best_checkpoint epoch model b)
  = ({[ "epoch"; "model"; "best_error" ]} : gset string).
Proof using Type.
  unfold best_checkpoint. rewrite !dom_insert_L, dom_empty_L. set_solver.
Qed.

Lemma saved_epoch_periodic (opt : options) (epoch : Z) (model : module)
  (optimizer : ostate) :
  saved_epoch (periodic_checkpoint opt epoch model optimizer) = Some epoch.
Proof. reflexivity. Qed.

(** C4: in a completed training loop the two checkpoint paths persist
    different schemas.  A periodic checkpoint is written at an epoch exactly
    when the epoch is a multiple of [save_freq], whether or not the epoch
    improved the best error, and holds the keys epoch, model, optimizer and
    best_error; the best checkpoint holds exactly the keys epoch, model and
    best_error and no optimizer state. *)
Theorem checkpoint_schemas
  (opt : options) (train_loader val_loader test_loader : DataLoader)
  (criterion : criterion) (model : module) (optimizer : ostate)
  (start : Z) (w : world) st' w' :
  main_loop opt train_loader val_loader test_loader criterion model optimizer
    (inl start) w = (Ok st', w') ->
  exists t,
    trace w' = (trace w ++ t)%list /\
    (forall e, In e (range start (epochs opt + 1)) ->
       ((e mod save_freq opt = 0)%Z <->
        exists d, In (Write (periodic_file opt e) (Pickle d)) t /\
                  saved_epoch d = Some e)) /\
    (forall e d, In (Write (periodic_file opt e) (Pickle d)) t ->
       dom d = ({[ "epoch"; "model"; "optimizer"; "best_error" ]} : gset string) /\
       exists s, d !! "optimizer" = Some (VOptimState s)) /\
    (forall d, In (Write (best_file opt) (Pickle d)) t ->
       dom d = ({[ "epoch"; "model"; "best_error" ]} : gset string) /\
       d !! "optimizer" = None).
Proof.
  intros H. apply main_loop_obs in H as (s & obs & Hs & Hes & Hwf & _ & _ & Htr).
  injection Hs as <-.
  exists (run_events opt (best_file opt) initial_best_error initial_best_test obs).
  split; [ exact Htr | ]. split; [ | split ].
  - intros e He. rewrite <- Hes in He. apply in_map_iff in He as (o & <- & Ho).
    split.
    + intros Hmod. eexists. split.
      * apply (periodic_write_in_run _ _ _ o Hwf Ho Hmod).
      * apply saved_epoch_periodic.
    + intros (d & Hin & Hd).
      apply (in_run_events_write _ _ _ _ _ Hwf) in Hin
        as (o' & _ & [(Hmod & _ & Hn) | (b' & Hp & _)]).
      * injection Hn as ->. rewrite saved_epoch_periodic in Hd.
        injection Hd as <-. exact Hmod.
      * exfalso. apply (periodic_file_not_best opt (ob_epoch o)), Hp.
  - intros e d Hin.
    apply (in_run_events_write _ _ _ _ _ Hwf) in Hin
      as (o' & _ & [(_ & _ & Hn) | (b' & Hp & _)]).
    + injection Hn as ->. split; [ apply dom_periodic_checkpoint | ].
      eexists. reflexivity.
    + exfalso. apply (periodic_file_not_best opt e), Hp.
  - intros d Hin.
    apply (in_run_events_write _ _ _ _ _ Hwf) in Hin
      as (o' & _ & [(_ & Hp & _) | (b' & _ & Hn)]).
    + exfalso. apply (periodic_file_not_best opt (ob_epoch o')). symmetry. exact Hp.
    + injection Hn as ->. split; [ apply dom_best_checkpoint | reflexivity ].
Qed.

(** ** Resuming from a checkpoint *)

Lemma setup_extends_refl (w : world) : setup_extends w w.
Proof.
  split; [ exists []; rewrite app_nil_r; auto | tauto ].
Qed.

Lemma setup_extends_trans (w1 w2 w3 : world) :
  setup_extends w1 w2 -> setup_extends w2 w3 -> setup_extends w1 w3.
Proof.
  intros [(t1 & E1 & F1) P1] [(t2 & E2 & F2) P2]. split.
  - exists (t1 ++ t2)%list. rewrite E2, E1, app_assoc. split; [ reflexivity | ].
    apply Forall_app. auto.
  - intros path d. rewrite P2. apply P1.
Qed.

Lemma setup_print (e : event) (w : world) :
  is_setup e -> setup_extends w (snd (print e w)).
Proof.
  intros He. split; cbn; [ | tauto ]. exists [e]. auto.
Qed.

Lemma setup_write_fresh (path : string) (n : fnode) (w : world) :
  is_setup (Write path n) -> fs w !! path = None ->
  setup_extends w (snd (write_file path n w)).
Proof.
  intros He Hnone. split; cbn.
  - exists [Write path n]. auto.
  - intros q d. destruct (decide (path = q)) as [<- | Hq].
    + rewrite lookup_insert_eq, Hnone. destruct n; cbn in He; try contradiction;
        split; discriminate.
    + rewrite lookup_insert_ne by exact Hq. tauto.
Qed.

Lemma setup_bind {A B : Type} (m : M A) (k : A -> M B) (w : world) :
  setup_extends w (snd (m w)) ->
  (forall a w1, setup_extends w1 (snd (k a w1))) ->
  setup_extends w (snd (bind m k w)).
Proof.
  intros Hm Hk. unfold bind. destruct (m w) as [[a | e] w1]; cbn in *.
  - eapply setup_extends_trans; [ exact Hm | apply Hk ].
  - exact Hm.
Qed.

Lemma setup_ensure_folder (folder : string) (w : world) :
  setup_extends w (snd (ensure_folder folder w)).
Proof.
  unfold ensure_folder, bind, read_file.
  destruct (fs w !! folder) as [[ | | d | ] | ] eqn:E;
    try apply setup_extends_refl.
  - apply setup_print. exact I.
  - apply setup_write_fresh; [ exact I | exact E ].
Qed.

Lemma setup_open_log (path : string) (w : world) :
  setup_extends w (snd (open_log path w)).
Proof.
  unfold open_log, bind, read_file.
  destruct (fs w !! path) as [n | ] eqn:E.
  - apply setup_extends_refl.
  - apply setup_write_fresh; [ exact I | exact E ].
Qed.

Lemma setup_parse_option (a : args) (w : world) :
  setup_extends w (snd (parse_option a w)).
Proof.
  unfold parse_option.
  apply setup_bind; [ apply setup_extends_refl | intros [[mp mn] sf] w1 ].
  apply setup_bind; [ apply setup_ensure_folder | intros _ w2 ].
  apply setup_bind; [ apply setup_open_log | intros _ w3 ].
  apply setup_bind; [ apply setup_print; exact I | intros _ w4 ].
  apply setup_bind; [ apply setup_print; exact I | intros _ w5 ].
  apply setup_extends_refl.
Qed.

Lemma setup_set_loader (opt : options) (w : world) :
  setup_extends w (snd (set_loader opt w)).
Proof.
  unfold set_loader.
  apply setup_bind; [ apply setup_print; exact I | intros _ w1 ].
  apply setup_bind; [ apply setup_print; exact I | intros _ w2 ].
  apply setup_bind; [ apply setup_extends_refl | intros d1 w3 ].
  apply setup_bind; [ apply setup_extends_refl | intros d2 w4 ].
  apply setup_bind; [ apply setup_extends_refl | intros d3 w5 ].
  apply setup_bind; [ apply setup_print; exact I | intros _ w6 ].
  apply setup_extends_refl.
Qed.

Lemma range_cons (a b : Z) :
  (a < b)%Z -> range a b = a :: range (a + 1) b.
Proof.
  intros H. unfold range.
  replace (Z.to_nat (b - a)) with (S (Z.to_nat (b - (a + 1)))) by lia.
  cbn [seq map]. f_equal; [ lia | ].
  rewrite <- seq_shift, map_map. apply map_ext. intros i. lia.
Qed.

Lemma range_empty (a b : Z) : (b <= a)%Z -> range a b = [].
Proof.
  intros H. unfold range. replace (Z.to_nat (b - a)) with 0%nat by lia. reflexivity.
Qed.

Lemma main_resume_ok (opt : options) (model : module) (optimizer : ostate)
  (w : world) (p : params) (s : ostate) (e : Z) :
  nonempty (resume opt) = true ->
  resumable w (resume opt) p s e ->
  main_resume opt model optimizer w
  = (Ok (mk_module p (training model), s, inl (e + 1)%Z),
     {| fs := fs w;
        trace := (trace w ++ [PrintResumed (VInt e) (resume opt)])%list |}).
Proof.
  intros Hne (d & Hf & Hm & Ho & He). unfold main_resume. rewrite Hne.
  unfold bind at 1, torch_load, bind at 1, read_file. rewrite Hf. unfold ret at 1.
  unfold bind at 1, getitem. rewrite Hm. unfold ret at 1.
  unfold bind at 1, load_state_dict, ret at 1.
  unfold bind at 1. rewrite Ho. unfold ret at 1.
  unfold bind at 1, load_optimizer_state, ret at 1.
  unfold bind at 1. rewrite He. unfold ret at 1.
  unfold bind at 1, ret at 1. unfold bind at 1, ret at 1.
  unfold bind, print, ret. reflexivity.
Qed.

Lemma main_resume_needs_keys (opt : options) (model : module) (optimizer : ostate)
  (w : world) r w' :
  nonempty (resume opt) = true ->
  main_resume opt model optimizer w = (Ok r, w') ->
  has_required_keys w (resume opt).
Proof.
  intros Hne. unfold main_resume. rewrite Hne. intros H.
  apply bind_ok_inv in H as (d & w1 & Hload & H).
  unfold torch_load in Hload.
  apply bind_ok_inv in Hload as (n & w0 & Hread & Hload).
  unfold read_file in Hread. injection Hread as <- <-.
  destruct (fs w !! resume opt) as [[ | | d0 | ] | ] eqn:Hf; try discriminate.
  apply ret_inv in Hload as [-> ->].
  apply bind_ok_inv in H as (m & w2 & Hm & H).
  unfold getitem in Hm. destruct (d0 !! "model") as [vm | ] eqn:Em; [ | discriminate ].
  apply ret_inv in Hm as [-> ->].
  apply bind_ok_inv in H as (p & w3 & Hp & H).
  assert (w3 = w) as ->.
  { unfold load_state_dict in Hp. destruct vm; try discriminate.
    apply ret_inv in Hp as [_ ->]. reflexivity. }
  apply bind_ok_inv in H as (o & w4 & Ho & H).
  unfold getitem in Ho.
  destruct (d0 !! "optimizer") as [vo | ] eqn:Eo; [ | discriminate ].
  apply ret_inv in Ho as [-> ->].
  apply bind_ok_inv in H as (s & w5 & Hs & H).
  assert (w5 = w) as ->.
  { unfold load_optimizer_state in Hs. destruct vo; try discriminate.
    apply ret_inv in Hs as [_ ->]. reflexivity. }
  apply bind_ok_inv in H as (e & w6 & He & H).
  unfold getitem in He.
  destruct (d0 !! "epoch") as [ve | ] eqn:Ee; [ | discriminate ].
  exists d0. rewrite Em, Eo, Ee. repeat split; eauto.
Qed.

Lemma setup_main_resume (opt : options) (model : module) (optimizer : ostate)
  (w : world) :
  setup_extends w (snd (main_resume opt model optimizer w)).
Proof.
  unfold main_resume. destruct (nonempty (resume opt)); [ | apply setup_extends_refl ].
  apply setup_bind.
  { unfold torch_load, bind, read_file.
    destruct (fs w !! resume opt) as [[ | | d0 | ] | ]; apply setup_extends_refl. }
  intros d w1.
  apply setup_bind;
    [ unfold getitem; destruct (d !! "model"); apply setup_extends_refl | intros m w2 ].
  apply setup_bind; [ destruct m; apply setup_extends_refl | intros p w3 ].
  apply setup_bind;
    [ unfold getitem; destruct (d !! "optimizer"); apply setup_extends_refl
    | intros o w4 ].
  apply setup_bind; [ destruct o; apply setup_extends_refl | intros s w5 ].
  apply setup_bind;
    [ unfold getitem; destruct (d !! "epoch"); apply setup_extends_refl | intros e w6 ].
  apply setup_bind; [ destruct e; apply setup_extends_refl | intros st w7 ].
  apply setup_bind;
    [ unfold getitem; destruct (d !! "epoch"); apply setup_extends_refl | intros e' w8 ].
  apply setup_bind; [ apply setup_print; exact I | intros _ w9 ].
  apply setup_extends_refl.
Qed.

Lemma parse_option_parsed (a : args) (w : world) opt w' :
  parse_option a w = (Ok opt, w') -> parsed opt = a.
Proof.
  unfold parse_option. intros H.
  apply bind_ok_inv in H as ([[mp mn] sf] & w1 & _ & H).
  apply bind_ok_inv in H as (u1 & w2 & _ & H).
  apply bind_ok_inv in H as (u2 & w3 & _ & H).
  apply bind_ok_inv in H as (u3 & w4 & _ & H).
  apply bind_ok_inv in H as (u4 & w5 & _ & H).
  apply ret_inv in H as [-> _]. reflexivity.
Qed.

(** C5: with a resume path, a checkpoint that holds a state dict, an
    optimizer state and an int epoch is loaded into the model and the
    optimizer and the first epoch the loop executes is the checkpoint's
    epoch plus one; a checkpoint that is missing, is not a pickled dict or
    lacks one of the keys model, optimizer, epoch makes the run raise before
    any epoch is run. *)
Theorem resume_starts_after_checkpoint (a : args) (w : world) :
  nonempty (resume a) = true ->
  (forall opt w0 tl vl sl w1 p s e,
     parse_option a w = (Ok opt, w0) ->
     set_loader opt w0 = (Ok (tl, vl, sl), w1) ->
     resumable w (resume a) p s e ->
     let criterion := snd (set_model opt) in
     let body := epoch_body opt tl vl sl criterion (best_file opt) in
     exists w2,
       main_resume opt (fst (set_model opt))
         (set_optimizer opt (state_dict (fst (set_model opt)))) w1
       = (Ok (mk_module p true, s, inl (e + 1)%Z), w2) /\
       main a w
       = bind (main_loop opt tl vl sl criterion (mk_module p true) s (inl (e + 1)%Z))
           (fun _ => ret tt) w2 /\
       ((e + 1 <= epochs a)%Z ->
        main_loop opt tl vl sl criterion (mk_module p true) s (inl (e + 1)%Z) w2
        = bind (body (mk_loop_state (mk_module p true) s initial_best_error
                        initial_best_test) (e + 1)%Z)
            (for_epochs body (range (e + 2) (epochs a + 1))) w2)) /\
  (~ has_required_keys w (resume a) ->
   exists err w', main a w = (Raise err, w') /\ setup_extends w w').
Proof.
  intros Hne. split.
  - intros opt w0 tl vl sl w1 p s e Hparse Hload Hres criterion body.
    pose proof (parse_option_parsed _ _ _ _ Hparse) as Hopt.
    assert (Hres1 : resumable w1 (resume opt) p s e).
    { rewrite Hopt. destruct Hres as (d & Hf & Hk). exists d. split; [ | exact Hk ].
      pose proof (setup_set_loader opt w0) as [_ P1]. rewrite Hload in P1.
      pose proof (setup_parse_option a w) as [_ P0]. rewrite Hparse in P0.
      apply P1, P0, Hf. }
    assert (Hne1 : nonempty (resume opt) = true) by (rewrite Hopt; exact Hne).
    pose proof (main_resume_ok opt (fst (set_model opt))
                  (set_optimizer opt (state_dict (fst (set_model opt))))
                  w1 p s e Hne1 Hres1) as Hr.
    change (training (fst (set_model opt))) with true in Hr.
    eexists. split; [ exact Hr | split ].
    + unfold main. unfold bind at 1. rewrite Hparse.
      unfold bind at 1. rewrite Hload.
      change (set_model opt) with (fst (set_model opt), snd (set_model opt)).
      cbv iota. unfold bind at 1. cbn [fst snd] in Hr |- *. rewrite Hr. reflexivity.
    + intros Hle. unfold main_loop. rewrite Hopt.
      rewrite (range_cons (e + 1) (epochs a + 1)) by lia.
      replace (e + 1 + 1)%Z with (e + 2)%Z by lia. reflexivity.
  - intros Hbad. unfold main. unfold bind at 1.
    pose proof (setup_parse_option a w) as S0.
    destruct (parse_option a w) as [[opt | err] w0] eqn:Hparse; [ | eauto ].
    pose proof (parse_option_parsed _ _ _ _ Hparse) as Hopt.
    unfold bind at 1.
    pose proof (setup_set_loader opt w0) as S1.
    destruct (set_loader opt w0) as [[[[tl vl] sl] | err] w1] eqn:Hload; cbn [snd] in *;
      [ | exists err, w1; split; [ reflexivity | ];
          eapply setup_extends_trans; eassumption ].
    cbn [set_model]. unfold bind at 1.
    match goal with
    | |- context [main_resume opt ?m ?o w1] =>
        pose proof (setup_main_resume opt m o w1) as S2;
        destruct (main_resume opt m o w1) as [[r | err] w2] eqn:Hres
    end; cbn [snd] in *.
    + exfalso. apply Hbad.
      apply main_resume_needs_keys in Hres; [ | rewrite Hopt; exact Hne ].
      rewrite Hopt in Hres. destruct Hres as (d & Hf & Hk). exists d.
      split; [ | exact Hk ]. destruct S0 as [_ P0], S1 as [_ P1].
      apply P0, P1, Hf.
    + exists err, w2. split; [ reflexivity | ].
      eapply setup_extends_trans; [ exact S0 | ].
      eapply setup_extends_trans; eassumption.
Qed.

(** ** The unused option [save_curr_freq] *)

Lemma alike_ret {A : Type} (R : A -> A -> Prop) (a1 a2 : A) :
  R a1 a2 -> alike R (ret a1) (ret a2).
Proof. intros H w1 w2 Hs. split; [ exact Hs | exact H ]. Qed.

Lemma alike_raise {A : Type} (R : A -> A -> Prop) (e : exn) :
  alike R (raise e) (raise e).
Proof. intros w1 w2 Hs. split; [ exact Hs | reflexivity ]. Qed.

Lemma alike_lift {A : Type} (r : result A) : alike eq (lift r) (lift r).
Proof. intros w1 w2 Hs. split; [ exact Hs | destruct r; reflexivity ]. Qed.

Lemma alike_print (e1 e2 : event) :
  hide_echo e1 = hide_echo e2 -> alike eq (print e1) (print e2).
Proof.
  intros He w1 w2 [Hf Ht]. split; [ | reflexivity ]. split; cbn; [ exact Hf | ].
  rewrite !map_app, Ht. cbn. rewrite He. reflexivity.
Qed.

Lemma alike_write_file (path : string) (n : fnode) :
  alike eq (write_file path n) (write_file path n).
Proof.
  intros w1 w2 [Hf Ht]. split; [ | reflexivity ]. split; cbn.
  - rewrite Hf. reflexivity.
  - rewrite !map_app, Ht. reflexivity.
Qed.

Lemma alike_read_file (path : string) : alike eq (read_file path) (read_file path).
Proof.
  intros w1 w2 [Hf Ht]. split; [ split; assumption | ]. cbn. rewrite Hf. reflexivity.
Qed.

Lemma alike_bind {A B : Type} (R : A -> A -> Prop) (S : B -> B -> Prop)
  (m1 m2 : M A) (k1 k2 : A -> M B) :
  alike R m1 m2 ->
  (forall a1 a2, R a1 a2 -> alike S (k1 a1) (k2 a2)) ->
  alike S (bind m1 k1) (bind m2 k2).
Proof.
  intros Hm Hk w1 w2 Hs. unfold bind. specialize (Hm w1 w2 Hs).
  destruct (m1 w1) as [[a1 | e1] u1], (m2 w2) as [[a2 | e2] u2];
    cbn in Hm; destruct Hm as [Hs' Hr]; try contradiction.
  - apply (Hk a1 a2 Hr u1 u2 Hs').
  - split; [ exact Hs' | exact Hr ].
Qed.

Lemma alike_bind_eq {A B : Type} (S : B -> B -> Prop)
  (m1 m2 : M A) (k1 k2 : A -> M B) :
  alike eq m1 m2 ->
  (forall a, alike S (k1 a) (k2 a)) ->
  alike S (bind m1 k1) (bind m2 k2).
Proof.
  intros Hm Hk. apply (alike_bind eq S); [ exact Hm | ].
  intros a1 a2 <-. apply Hk.
Qed.

Lemma alike_ensure_folder (folder : string) :
  alike eq (ensure_folder folder) (ensure_folder folder).
Proof.
  unfold ensure_folder. apply alike_bind_eq; [ apply alike_read_file | intros n ].
  destruct n as [[ | | d | ] | ];
    try apply alike_raise; try apply alike_write_file.
  apply alike_print. reflexivity.
Qed.

Lemma alike_open_log (path : string) : alike eq (open_log path) (open_log path).
Proof.
  unfold open_log. apply alike_bind_eq; [ apply alike_read_file | intros n ].
  destruct n; [ apply alike_ret; reflexivity | apply alike_write_file ].
Qed.

Lemma alike_parse_option (a : args) (n : Z) :
  alike (fun o1 o2 => o2 = set_save_curr_freq o1 n)
    (parse_option a) (parse_option (with_save_curr_freq a n)).
Proof.
  unfold parse_option.
  change (derive_names (with_save_curr_freq a n)) with (derive_names a).
  apply alike_bind_eq; [ apply alike_lift | intros [[mp mn] sf] ].
  apply alike_bind_eq; [ apply alike_ensure_folder | intros _ ].
  apply alike_bind_eq; [ apply alike_open_log | intros _ ].
  apply alike_bind_eq; [ apply alike_print; reflexivity | intros _ ].
  apply alike_bind_eq; [ apply alike_print; reflexivity | intros _ ].
  apply alike_ret. reflexivity.
Qed.

Lemma alike_set_loader (opt : options) (n : Z) :
  alike eq (set_loader opt) (set_loader (set_save_curr_freq opt n)).
Proof.
  unfold set_loader. cbn [set_save_curr_freq parsed with_save_curr_freq aug dataset
    data_folder batch_size num_workers].
  apply alike_bind_eq; [ apply alike_print; reflexivity | intros _ ].
  apply alike_bind_eq; [ apply alike_print; reflexivity | intros _ ].
  apply alike_bind_eq; [ apply alike_lift | intros d1 ].
  apply alike_bind_eq; [ apply alike_lift | intros d2 ].
  apply alike_bind_eq; [ apply alike_lift | intros d3 ].
  apply alike_bind_eq; [ apply alike_print; reflexivity | intros _ ].
  apply alike_ret. reflexivity.
Qed.

Lemma alike_getitem (d : gmap string pyval) (key : string) :
  alike eq (getitem d key) (getitem d key).
Proof.
  unfold getitem. destruct (d !! key); [ apply alike_ret; reflexivity | apply alike_raise ].
Qed.

Lemma alike_main_resume (opt : options) (n : Z) (model : module) (optimizer : ostate) :
  alike eq (main_resume opt model optimizer)
    (main_resume (set_save_curr_freq opt n) model optimizer).
Proof.
  unfold main_resume. cbn [set_save_curr_freq parsed with_save_curr_freq resume].
  destruct (nonempty (resume opt)); [ | apply alike_ret; reflexivity ].
  apply alike_bind_eq.
  { unfold torch_load. apply alike_bind_eq; [ apply alike_read_file | intros f ].
    destruct f as [[ | | d | ] | ]; try apply alike_raise. apply alike_ret. reflexivity. }
  intros d.
  apply alike_bind_eq; [ apply alike_getitem | intros m ].
  apply alike_bind_eq;
    [ destruct m; try apply alike_raise; apply alike_ret; reflexivity | intros p ].
  apply alike_bind_eq; [ apply alike_getitem | intros o ].
  apply alike_bind_eq;
    [ destruct o; try apply alike_raise; apply alike_ret; reflexivity | intros s ].
  apply alike_bind_eq; [ apply alike_getitem | intros e ].
  apply alike_bind_eq;
    [ destruct e; try apply alike_raise; apply alike_ret; reflexivity | intros st ].
  apply alike_bind_eq; [ apply alike_getitem | intros e' ].
  apply alike_bind_eq; [ apply alike_print; reflexivity | intros _ ].
  apply alike_ret. reflexivity.
Qed.

Lemma alike_train_loop (opt : options) (n : Z) (criterion : criterion)
  (epoch total : Z) (batches : list (images * list R)) :
  forall idx model optimizer losses,
    alike eq
      (train_loop opt criterion epoch total batches idx model optimizer losses)
      (train_loop (set_save_curr_freq opt n) criterion epoch total batches idx
         model optimizer losses).
Proof.
  induction batches as [ | [imgs labels] rest IH];
    intros idx model optimizer losses; cbn [train_loop].
  - apply alike_ret. reflexivity.
  - destruct (forward _ _ imgs) as [output feat].
    change (batch_loss (set_save_curr_freq opt n) criterion)
      with (batch_loss opt criterion).
    change (print_freq (set_save_curr_freq opt n)) with (print_freq opt).
    apply alike_bind_eq; [ apply alike_lift | intros lv ].
    destruct (optimizer_step _ _ _ _ _) as [p o].
    apply alike_bind_eq; [ apply alike_lift | intros r ].
    apply alike_bind_eq; [ | intros _; apply IH ].
    destruct (r =? 0)%Z; [ apply alike_print | apply alike_ret ]; reflexivity.
Qed.

Lemma alike_validate (batches : list (images * list R)) (model : module) :
  alike eq (validate batches model) (validate batches model).
Proof.
  unfold validate.
  apply alike_bind_eq; [ | intros _ ].
  { unfold cuda. destruct batches, cuda_is_available;
      first [ apply alike_ret; reflexivity | apply alike_raise ]. }
  repeat (apply alike_bind_eq; [ apply alike_lift | intros ? ]).
  apply alike_ret. reflexivity.
Qed.

Lemma alike_epoch_body (opt : options) (n : Z)
  (train_loader val_loader test_loader : DataLoader) (criterion : criterion)
  (save_file_best : string) (st : loop_state) (epoch : Z) :
  helpers_ignore_save_curr_freq ->
  alike eq
    (epoch_body opt train_loader val_loader test_loader criterion save_file_best
       st epoch)
    (epoch_body (set_save_curr_freq opt n) train_loader val_loader test_loader
       criterion save_file_best st epoch).
Proof.
  intros (_ & Hlr & Hsave). unfold epoch_body. rewrite Hlr.
  apply alike_bind_eq; [ apply alike_train_loop | intros [m1 o1] ].
  apply alike_bind_eq; [ apply alike_validate | intros [valid m2] ].
  apply alike_bind_eq; [ apply alike_print; reflexivity | intros _ ].
  apply alike_bind_eq; [ apply alike_print; reflexivity | intros _ ].
  apply alike_bind_eq; [ apply alike_lift | intros v ].
  apply alike_bind_eq; [ apply alike_print; reflexivity | intros _ ].
  apply alike_bind_eq; [ apply alike_validate | intros [test m3] ].
  apply alike_bind_eq; [ apply alike_print; reflexivity | intros _ ].
  apply alike_bind_eq; [ apply alike_lift | intros r ].
  apply alike_bind_eq.
  { destruct (r =? 0)%Z; [ | apply alike_ret; reflexivity ].
    unfold save_model. rewrite Hsave. apply alike_write_file. }
  intros _. apply alike_bind_eq.
  - destruct (Rltb v (best_error st)); [ | apply alike_ret; reflexivity ].
    apply alike_bind_eq; [ apply alike_write_file | intros _ ].
    apply alike_ret. reflexivity.
  - intros bt. apply alike_bind_eq; [ apply alike_print; reflexivity | intros _ ].
    apply alike_ret. reflexivity.
Qed.

Lemma alike_for_epochs (body1 body2 : loop_state -> Z -> M loop_state) (es : list Z) :
  (forall st e, alike eq (body1 st e) (body2 st e)) ->
  forall st, alike eq (for_epochs body1 es st) (for_epochs body2 es st).
Proof.
  intros Hb. induction es as [ | e es IH]; intros st; cbn.
  - apply alike_ret. reflexivity.
  - apply alike_bind_eq; [ apply Hb | exact IH ].
Qed.

Lemma alike_main_loop (opt : options) (n : Z)
  (train_loader val_loader test_loader : DataLoader) (criterion : criterion)
  (model : module) (optimizer : ostate) (start_epoch : Z + R) :
  helpers_ignore_save_curr_freq ->
  alike eq
    (main_loop opt train_loader val_loader test_loader criterion model optimizer
       start_epoch)
    (main_loop (set_save_curr_freq opt n) train_loader val_loader test_loader
       criterion model optimizer start_epoch).
Proof.
  intros Hh. unfold main_loop. destruct start_epoch as [s | x];
    [ | apply alike_raise ].
  apply alike_for_epochs. intros st e. apply alike_epoch_body, Hh.
Qed.

Lemma alike_main (a : args) (n : Z) :
  helpers_ignore_save_curr_freq ->
  alike eq (main a) (main (with_save_curr_freq a n)).
Proof.
  intros Hh. unfold main.
  eapply alike_bind; [ apply alike_parse_option | ].
  intros opt opt' ->.
  apply alike_bind_eq; [ apply alike_set_loader | intros [[tl vl] sl] ].
  change (set_model (set_save_curr_freq opt n)) with (set_model opt).
  change (set_model opt) with (fst (set_model opt), snd (set_model opt)).
  cbv iota.
  destruct Hh as (Hopt & Hh'). rewrite Hopt.
  apply alike_bind_eq; [ apply alike_main_resume | intros [[m o] st] ].
  apply alike_bind_eq; [ | intros _; apply alike_ret; reflexivity ].
  apply alike_main_loop. split; [ exact Hopt | exact Hh' ].
Qed.

(** With helpers that do not read [save_curr_freq], two runs whose options
    differ only in [save_curr_freq] end alike from the same starting world:
    the same outcome, the same files with the same contents, and the same
    trace of output and writes except for the value of [save_curr_freq] in
    the echo of the options; the derived names are equal too. *)
Lemma alike_runs_when_helpers_ignore (a : args) (n : Z) (w : world) :
  helpers_ignore_save_curr_freq ->
  fst (main (with_save_curr_freq a n) w) = fst (main a w) /\
  fs (snd (main (with_save_curr_freq a n) w)) = fs (snd (main a w)) /\
  map hide_echo (trace (snd (main (with_save_curr_freq a n) w)))
  = map hide_echo (trace (snd (main a w))) /\
  derive_names (with_save_curr_freq a n) = derive_names a.
Proof.
  intros Hh.
  destruct (alike_main a n Hh w w) as [[Hfs Htr] Hres]; [ split; reflexivity | ].
  repeat split; auto.
  destruct (fst (main a w)) as [[] | e1],
           (fst (main (with_save_curr_freq a n) w)) as [[] | e2];
    try contradiction; congruence.
Qed.


(** * Further properties *)

(** ** The resume path and the run folder *)

(** [c in s] *)
Fixpoint contains (c : ascii) (s : string) : bool :=
  match s with
  | EmptyString => false
  | String c' s' => Ascii.eqb c' c || contains c s'
  end.

Lemma split_no_sep (sep : ascii) (s : string) :
  contains sep s = false -> PyStr.split sep s = [s].
Proof.
  induction s as [ | c s IH]; cbn; [ reflexivity | ].
  intros H. apply orb_false_iff in H as [Hc Hs].
  rewrite Hc, (IH Hs). reflexivity.
Qed.

Lemma split_not_nil (sep : ascii) (s : string) : PyStr.split sep s <> [].
Proof.
  destruct s as [ | c s]; cbn; [ discriminate | ].
  destruct (Ascii.eqb c sep); [ discriminate | ].
  destruct (PyStr.split sep s); discriminate.
Qed.

Lemma split_with_sep (sep : ascii) (s : string) :
  contains sep s = true -> (2 <= List.length (PyStr.split sep s))%nat.
Proof.
  induction s as [ | c s IH]; cbn; [ discriminate | ].
  destruct (Ascii.eqb c sep) eqn:Hc; cbn.
  - intros _. pose proof (split_not_nil sep s).
    destruct (PyStr.split sep s); [ contradiction | cbn; lia ].
  - intros H. specialize (IH H).
    destruct (PyStr.split sep s); cbn in *; lia.
Qed.

Lemma split_app_sep (sep : ascii) (a b : string) :
  PyStr.split sep (a ++ String sep b)
  = (PyStr.split sep a ++ PyStr.split sep b)%list.
Proof.
  induction a as [ | c a IH].
  - change ("" ++ String sep b) with (String sep b). cbn [PyStr.split app].
    rewrite Ascii.eqb_refl. reflexivity.
  - change (String c a ++ String sep b) with (String c (a ++ String sep b)).
    cbn [PyStr.split]. rewrite IH. destruct (Ascii.eqb c sep); [ reflexivity | ].
    pose proof (split_not_nil sep a).
    destruct (PyStr.split sep a); [ contradiction | reflexivity ].
Qed.

Lemma index_minus_two_short {A : Type} (l : list A) :
  (List.length l < 2)%nat -> PyStr.index l (-2) = Raise IndexError.
Proof.
  intros H. unfold PyStr.index. cbn [Z.ltb Z.compare].
  replace (-2 + Z.of_nat (List.length l) <? 0)%Z with true
    by (symmetry; apply Z.ltb_lt; lia).
  reflexivity.
Qed.

Lemma index_minus_two_last_but_one {A : Type} (l : list A) (x y : A) :
  PyStr.index (l ++ [x; y]) (-2) = Ok x.
Proof.
  unfold PyStr.index. cbn [Z.ltb Z.compare].
  rewrite length_app. cbn [List.length].
  replace (-2 + Z.of_nat (List.length l + 2) <? 0)%Z with false
    by (symmetry; apply Z.ltb_ge; lia).
  replace (Z.of_nat (List.length l + 2) <=? -2 + Z.of_nat (List.length l + 2))%Z
    with false by (symmetry; apply Z.leb_gt; lia).
  cbn [orb].
  replace (Z.to_nat (-2 + Z.of_nat (List.length l + 2))) with (List.length l) by lia.
  rewrite nth_error_app2 by lia. rewrite Nat.sub_diag. reflexivity.
Qed.

Lemma index_minus_two_long {A : Type} (l : list A) :
  (2 <= List.length l)%nat -> exists x, PyStr.index l (-2) = Ok x.
Proof.
  intros H.
  destruct (rev l) as [ | y [ | x r]] eqn:E.
  - apply (f_equal (@List.length A)) in E. rewrite length_rev in E. cbn in E. lia.
  - apply (f_equal (@List.length A)) in E. rewrite length_rev in E. cbn in E. lia.
  - exists x. apply (f_equal (@rev A)) in E. rewrite rev_involutive in E.
    rewrite E. cbn [rev]. rewrite <- !app_assoc. apply index_minus_two_last_but_one.
Qed.


Lemma derive_names_index_error (a : args) :
  derive_names a = Raise IndexError <->
  nonempty (resume a) = true /\ contains "/" (resume a) = false.
Proof.
  unfold derive_names. destruct (nonempty (resume a)) eqn:Hne; cbn [rbind].
  - destruct (contains "/" (resume a)) eqn:Hc.
    + destruct (index_minus_two_long _ (split_with_sep _ _ Hc)) as (x & ->).
      cbn. split; [ discriminate | intros [_ H]; discriminate ].
    + rewrite (split_no_sep _ _ Hc).
      rewrite index_minus_two_short by (cbn; lia). cbn. tauto.
  - split; [ discriminate | intros [H _]; discriminate ].
Qed.

(** X1: a resume path is split at its slashes and the last component but
    one names the run, so a non-empty resume path without any slash makes
    option parsing raise IndexError; it does so before the run folder is
    created and before anything is printed. *)
Theorem resume_path_needs_a_folder (a : args) (w : world) :
  nonempty (resume a) = true ->
  contains "/" (resume a) = false ->
  derive_names a = Raise IndexError /\
  parse_option a w = (Raise IndexError, w).
Proof.
  intros Hne Hc.
  assert (H : derive_names a = Raise IndexError)
    by (apply derive_names_index_error; auto).
  split; [ exact H | ].
  unfold parse_option, bind, lift. rewrite H. reflexivity.
Qed.

Lemma contains_startswith (c : ascii) (s : string) :
  contains c s = false -> PyStr.startswith s c = false.
Proof.
  destruct s as [ | c' s]; cbn; [ reflexivity | ].
  intros H. apply orb_false_iff in H as [H _]. exact H.
Qed.

Lemma endswith_app (x y : string) (c : ascii) :
  y <> "" -> PyStr.endswith (x ++ y) c = PyStr.endswith y c.
Proof.
  intros Hy. induction x as [ | c' x IH]; [ reflexivity | ].
  change (String c' x ++ y) with (String c' (x ++ y)).
  cbn [PyStr.endswith]. rewrite IH.
  destruct (x ++ y) eqn:E; [ | reflexivity ].
  destruct x; cbn in E; [ contradiction | discriminate ].
Qed.

Lemma nonempty_app_cons (x : string) (c : ascii) (y : string) :
  nonempty (x ++ String c y) = true.
Proof. destruct x; reflexivity. Qed.

(** X2: a resumed run is named after the folder that holds the checkpoint:
    for a resume path [dir/name/file] the model name is [name], whatever
    the other options are, and the run folder is [name] under
    [./save/<dataset>_models], wherever the checkpoint itself lies. *)
Theorem resumed_run_is_named_after_checkpoint_folder
  (a : args) (dir name file : string) :
  resume a = dir ++ "/" ++ name ++ "/" ++ file ->
  contains "/" name = false ->
  contains "/" file = false ->
  derive_names a
  = Ok ("./save/" ++ dataset a ++ "_models", name,
        ("./save/" ++ dataset a ++ "_models") ++ "/" ++ name).
Proof.
  intros Hr Hn Hf. unfold derive_names. rewrite Hr.
  change (dir ++ "/" ++ name ++ "/" ++ file)
    with (dir ++ String "/" (name ++ String "/" file)).
  rewrite nonempty_app_cons, !split_app_sep.
  rewrite (split_no_sep _ _ Hn), (split_no_sep _ _ Hf).
  change ([name] ++ [file])%list with [name; file].
  rewrite index_minus_two_last_but_one. cbn [rbind].
  unfold PyStr.path_join. rewrite (contains_startswith _ _ Hn).
  change ("./save/" ++ dataset a ++ "_models")
    with (String "." (String "/" (String "s" (String "a" (String "v"
            (String "e" (String "/" (dataset a ++ "_models")))))))).
  cbn [String.length Nat.eqb orb PyStr.endswith].
  assert (E : PyStr.endswith (dataset a ++ "_models") "/" = false).
  { rewrite endswith_app by discriminate. reflexivity. }
  destruct (dataset a ++ "_models") eqn:Ed.
  - destruct (dataset a); discriminate.
  - rewrite E. reflexivity.
Qed.


Lemma ensure_folder_ok (folder : string) (w : world) u w' :
  ensure_folder folder w = (Ok u, w') ->
  fs w' !! folder = Some Dir /\
  (forall path n, fs w !! path = Some n -> fs w' !! path = Some n) /\
  trace w' = (trace w ++ match fs w !! folder with
                          | Some Dir => [PrintWarningFolderExist]
                          | _ => [Write folder Dir]
                          end)%list.
Proof.
  unfold ensure_folder, bind, read_file.
  destruct (fs w !! folder) as [[ | | d | ] | ] eqn:E; try discriminate.
  - unfold print. intros H. injection H as _ <-. cbn.
    rewrite E. repeat split; auto.
  - unfold write_file. intros H. injection H as _ <-. cbn.
    rewrite lookup_insert_eq. repeat split.
    intros path n Hp. destruct (decide (folder = path)) as [<- | Hne].
    + congruence.
    + rewrite lookup_insert_ne by exact Hne. exact Hp.
Qed.

Lemma open_log_ok (path : string) (w : world) u w' :
  open_log path w = (Ok u, w') ->
  is_Some (fs w' !! path) /\
  (forall q n, fs w !! q = Some n -> fs w' !! q = Some n) /\
  exists t, trace w' = (trace w ++ t)%list /\ ~ In PrintWarningFolderExist t.
Proof.
  unfold open_log, bind, read_file.
  destruct (fs w !! path) as [n | ] eqn:E.
  - unfold ret. intros H. injection H as _ <-. rewrite E.
    repeat split; eauto. exists []. rewrite app_nil_r. auto.
  - unfold write_file. intros H. injection H as _ <-. cbn.
    rewrite lookup_insert_eq. repeat split; eauto.
    + intros q n Hq. destruct (decide (path = q)) as [<- | Hne].
      * congruence.
      * rewrite lookup_insert_ne by exact Hne. exact Hq.
    + eexists. split; [ reflexivity | ]. intros [H | []]. discriminate.
Qed.

(** X3: when option parsing succeeds, the run folder is a directory of the
    file system and the log file exists; no file that was there before is
    removed or replaced; and the folder-exists warning is printed exactly
    when the folder was already there. *)
Theorem parse_option_prepares_run_folder (a : args) (w : world) opt w' :
  parse_option a w = (Ok opt, w') ->
  fs w' !! save_folder opt = Some Dir /\
  is_Some (fs w' !! PyStr.path_join (save_folder opt) "training.log") /\
  (forall path n, fs w !! path = Some n -> fs w' !! path = Some n) /\
  exists t, trace w' = (trace w ++ t)%list /\
            (In PrintWarningFolderExist t <-> fs w !! save_folder opt = Some Dir).
Proof.
  unfold parse_option. intros H.
  apply bind_ok_inv in H as ([[mp mn] sf] & w0 & Hn & H).
  unfold lift in Hn. injection Hn as _ <-.
  apply bind_ok_inv in H as (u1 & w1 & Hf & H).
  apply ensure_folder_ok in Hf as (Hdir & Hkeep1 & Ht1).
  apply bind_ok_inv in H as (u2 & w2 & Hl & H).
  apply open_log_ok in Hl as (Hlog & Hkeep2 & (t2 & Ht2 & Hno)).
  apply bind_ok_inv in H as (u3 & w3 & [Hfs3 Ht3]%print_inv & H).
  apply bind_ok_inv in H as (u4 & w4 & [Hfs4 Ht4]%print_inv & H).
  apply ret_inv in H as [-> ->]. cbn [save_folder].
  rewrite Hfs4, Hfs3. repeat split; auto.
  eexists. split.
  - rewrite Ht4, Ht3, Ht2, Ht1, <- !app_assoc. reflexivity.
  - rewrite !in_app_iff.
    assert (Hrest : ~ (In PrintWarningFolderExist t2 \/
                       In PrintWarningFolderExist [PrintModelName mn] \/
                       In PrintWarningFolderExist
                         [PrintOptions {| parsed := a; model_path := mp;
                                          model_name := mn; save_folder := sf |}])).
    { intros [H | [[H | []] | [H | []]]]; try discriminate. contradiction. }
    destruct (fs w !! sf) as [[ | | d | ] | ];
      (split; [ intros [[H | []] | H]; try discriminate; try contradiction; auto
              | intros H; try discriminate; left; left; reflexivity ]).
Qed.

(** X4: when something that is not a directory already has the name of the
    run folder, option parsing raises FileExistsError for that path, and
    has then neither printed nor written anything. *)
Theorem parse_option_folder_is_a_file (a : args) (w : world)
  (mp mn sf : string) (n : fnode) :
  derive_names a = Ok (mp, mn, sf) ->
  fs w !! sf = Some n ->
  n <> Dir ->
  parse_option a w = (Raise (FileExistsError sf), w).
Proof.
  intros Hn Hf Hd. unfold parse_option, bind at 1, lift. rewrite Hn.
  unfold bind at 1, ensure_folder, bind, read_file. rewrite Hf.
  destruct n; try reflexivity. contradiction.
Qed.


(** ** The progress lines of a training pass *)

Lemma next_multiple (idx pf : Z) :
  (0 < pf)%Z ->
  ((idx + 1) / pf =
   idx / pf + (if ((idx + 1) mod pf =? 0)%Z then 1 else 0))%Z.
Proof.
  intros Hpf.
  pose proof (Z_div_mod_eq_full idx pf) as Hd.
  pose proof (Z.mod_pos_bound idx pf Hpf) as Hb.
  destruct (Z.eq_dec (idx mod pf + 1)%Z pf) as [E | E].
  - assert (Hm : ((idx + 1) mod pf = 0)%Z)
      by (symmetry; apply (Z.mod_unique_pos _ _ (idx / pf + 1)%Z); lia).
    assert (Hq : ((idx + 1) / pf = idx / pf + 1)%Z)
      by (symmetry; apply (Z.div_unique_pos _ _ _ 0%Z); lia).
    rewrite Hm, Hq. reflexivity.
  - assert (Hm : ((idx + 1) mod pf = idx mod pf + 1)%Z)
      by (symmetry; apply (Z.mod_unique_pos _ _ (idx / pf)%Z); lia).
    assert (Hq : ((idx + 1) / pf = idx / pf)%Z)
      by (symmetry; apply (Z.div_unique_pos _ _ _ (idx mod pf + 1)%Z); lia).
    rewrite Hm, Hq.
    destruct (idx mod pf + 1 =? 0)%Z eqn:E0; [ apply Z.eqb_eq in E0 | ]; lia.
Qed.

Lemma train_loop_lines (opt : options) (criterion : criterion) (epoch total : Z)
  (batches : list (images * list R)) :
  (0 < print_freq opt)%Z ->
  forall idx model optimizer losses w r w',
    train_loop opt criterion epoch total batches idx model optimizer losses w
    = (Ok r, w') ->
    fs w' = fs w /\
    exists t, trace w' = (trace w ++ t)%list /\ Forall is_progress t /\
              Z.of_nat (List.length t)
              = ((idx + Z.of_nat (List.length batches)) / print_freq opt
                 - idx / print_freq opt)%Z.
Proof.
  intros Hpf. induction batches as [ | [imgs labels] rest IH];
    intros idx model optimizer losses w r w' H; cbn [train_loop] in H.
  - apply ret_inv in H as [_ ->]. split; [ reflexivity | ].
    exists []. rewrite app_nil_r. cbn. repeat split; auto.
    rewrite Z.add_0_r. lia.
  - destruct (forward _ _ imgs) as [output feat].
    apply bind_ok_inv in H as (lv & w1 & Hl & H).
    unfold lift in Hl. injection Hl as _ <-.
    destruct (optimizer_step _ _ _ _ _) as [p o].
    apply bind_ok_inv in H as (m & w2 & Hm & H).
    unfold lift, py_mod in Hm.
    destruct (print_freq opt =? 0)%Z; [ discriminate | ].
    injection Hm as <- <-.
    apply bind_ok_inv in H as (u & w3 & Hp & H).
    apply IH in H as (Hfs & t & Ht & HF & Hlen).
    cbn [List.length]. rewrite Nat2Z.inj_succ.
    replace (idx + Z.succ (Z.of_nat (List.length rest)))%Z
      with (idx + 1 + Z.of_nat (List.length rest))%Z by lia.
    rewrite (next_multiple idx _ Hpf) in Hlen.
    destruct ((idx + 1) mod print_freq opt =? 0)%Z.
    + apply print_inv in Hp as [Hfs3 Ht3]. split; [ congruence | ].
      eexists (_ :: t). rewrite Ht, Ht3, <- app_assoc. split; [ reflexivity | ].
      split; [ constructor; [ exact I | exact HF ] | ].
      cbn [List.length]. lia.
    + apply ret_inv in Hp as [_ ->]. split; [ exact Hfs | ].
      exists t. repeat split; auto. lia.
Qed.

(** X5: with a positive print frequency, a training pass that completes
    over n batches prints one progress line for every batch number that is
    a multiple of [print_freq], that is n / print_freq lines, prints nothing
    else and writes no file. *)
Theorem train_prints_every_print_freq_batches
  (batches : list (images * list R)) (model : module) (criterion : criterion)
  (optimizer : ostate) (epoch : Z) (opt : options) (w : world) r w' :
  (0 < print_freq opt)%Z ->
  train batches model criterion optimizer epoch opt w = (Ok r, w') ->
  fs w' = fs w /\
  exists t, trace w' = (trace w ++ t)%list /\ Forall is_progress t /\
            Z.of_nat (List.length t)
            = (Z.of_nat (List.length batches) / print_freq opt)%Z.
Proof.
  intros Hpf H. unfold train in H.
  apply (train_loop_lines _ _ _ _ _ Hpf) in H as (Hfs & t & Ht & HF & Hlen).
  split; [ exact Hfs | ]. exists t. repeat split; auto.
  rewrite Hlen. rewrite Z.add_0_l, Zdiv_0_l. lia.
Qed.

(** X6: with print frequency 0 the first batch of a training pass raises
    ZeroDivisionError: the loss of the batch has been computed and the
    optimizer step taken, but nothing is printed or written. *)
Theorem train_with_print_freq_zero
  (imgs : images) (labels : list R) (rest : list (images * list R))
  (model : module) (criterion : criterion) (optimizer : ostate) (epoch : Z)
  (opt : options) (w : world) :
  print_freq opt = 0%Z ->
  is_ok (eval_loss
           (tensors (fst (forward (state_dict model) true imgs))
                    (snd (forward (state_dict model) true imgs)) labels)
           (batch_loss opt criterion)) = true ->
  train ((imgs, labels) :: rest) model criterion optimizer epoch opt w
  = (Raise ZeroDivisionError, w).
Proof.
  intros Hpf Hl. unfold train. cbn [train_loop train_mode state_dict training].
  destruct (forward (state_dict model) true imgs) as [output feat]. cbn [fst snd] in Hl.
  unfold bind at 1, lift.
  destruct (eval_loss _ _) as [lv | e]; [ | discriminate ].
  destruct (optimizer_step _ _ _ _ _) as [p o].
  unfold bind at 1, py_mod. rewrite Hpf. reflexivity.
Qed.


(** ** Epochs that fail *)

Lemma bind_raise_inv {A B : Type} (m : M A) (k : A -> M B) (w : world) e w' :
  bind m k w = (Raise e, w') ->
  m w = (Raise e, w') \/ exists a w1, m w = (Ok a, w1) /\ k a w1 = (Raise e, w').
Proof.
  unfold bind. destruct (m w) as [[a | e1] w1]; [ eauto | ].
  intros H. injection H as <- <-. left. reflexivity.
Qed.

Lemma written_paths_app (t1 t2 : list event) :
  written_paths (t1 ++ t2) = (written_paths t1 ++ written_paths t2)%list.
Proof. unfold written_paths. apply flat_map_app. Qed.

(** The part of an epoch that follows the test of [epoch % save_freq]: it
    cannot raise. *)
Lemma saves_do_not_raise (opt : options) (save_file_best : string)
  (st : loop_state) (epoch r : Z) (model : module) (optimizer : ostate)
  (is_best : bool) (b : R) (test_error : list R) (w : world) :
  is_ok (fst (bind (if (r =? 0)%Z
                    then save_model model optimizer opt epoch (periodic_file opt epoch)
                    else ret tt)
                (fun _ =>
                   bind (if is_best
                         then bind (torch_save (best_checkpoint epoch model b)
                                      save_file_best)
                                (fun _ => ret test_error)
                         else ret (best_test st))
                     (fun best_test =>
                        bind (print (PrintBestTest best_test))
                          (fun _ => ret (mk_loop_state model optimizer b best_test))))
                w)) = true.
Proof. destruct (r =? 0)%Z, is_best; reflexivity. Qed.

Lemma epoch_body_raise (opt : options)
  (train_loader val_loader test_loader : DataLoader) (criterion : criterion)
  (save_file_best : string) (st : loop_state) (epoch : Z) (w : world) err w' :
  epoch_body opt train_loader val_loader test_loader criterion save_file_best
    st epoch w = (Raise err, w') ->
  fs w' = fs w /\
  exists t, trace w' = (trace w ++ t)%list /\ written_paths t = [].
Proof.
  unfold epoch_body. intros H.
  apply bind_raise_inv in H as [H | ([m1 o1] & w1 & Htrain & H)].
  { apply train_trace in H as (Hfs & t & Ht & HF).
    split; [ exact Hfs | ]. exists t. split; [ exact Ht | ].
    apply written_paths_progress, HF. }
  apply train_trace in Htrain as (Hfs1 & t1 & Ht1 & HF1).
  pose proof (written_paths_progress _ HF1) as Hq1.
  apply bind_raise_inv in H as [H | ([valid m2] & w2 & Hval & H)].
  { pose proof (validate_world (iterate val_loader epoch) m1 w1) as Hw.
    rewrite H in Hw. cbn in Hw. subst w'. eauto. }
  pose proof (validate_world (iterate val_loader epoch) m1 w1) as Hw2.
  rewrite Hval in Hw2. cbn in Hw2. subst w2.
  apply bind_raise_inv in H as [H | (u1 & w3 & [Hfs3 Ht3]%print_inv & H)];
    [ discriminate | ].
  apply bind_raise_inv in H as [H | (u2 & w4 & [Hfs4 Ht4]%print_inv & H)];
    [ discriminate | ].
  assert (Hq4 : exists t, trace w4 = (trace w ++ t)%list /\ written_paths t = []).
  { eexists. rewrite Ht4, Ht3, Ht1, <- !app_assoc. split; [ reflexivity | ].
    rewrite written_paths_app, Hq1. reflexivity. }
  assert (Hfs4' : fs w4 = fs w) by congruence.
  apply bind_raise_inv in H as [H | (v & w5 & Hix & H)].
  { unfold lift in H. injection H as _ <-. auto. }
  unfold lift in Hix. injection Hix as _ <-.
  apply bind_raise_inv in H as [H | (u3 & w6 & [Hfs6 Ht6]%print_inv & H)];
    [ discriminate | ].
  assert (Hq6 : exists t, trace w6 = (trace w ++ t)%list /\ written_paths t = []).
  { destruct Hq4 as (t & Ht & Hq). eexists. rewrite Ht6, Ht, <- app_assoc.
    split; [ reflexivity | ]. rewrite written_paths_app, Hq. reflexivity. }
  assert (Hfs6' : fs w6 = fs w) by congruence.
  apply bind_raise_inv in H as [H | ([test m3] & w7 & Htest & H)].
  { pose proof (validate_world (iterate test_loader epoch) m2 w6) as Hw.
    rewrite H in Hw. cbn in Hw. subst w'. auto. }
  pose proof (validate_world (iterate test_loader epoch) m2 w6) as Hw7.
  rewrite Htest in Hw7. cbn in Hw7. subst w7.
  apply bind_raise_inv in H as [H | (u4 & w8 & [Hfs8 Ht8]%print_inv & H)];
    [ discriminate | ].
  apply bind_raise_inv in H as [H | (r & w9 & Hmod & H)].
  { unfold lift in H. injection H as _ <-. split; [ congruence | ].
    destruct Hq6 as (t & Ht & Hq). eexists. rewrite Ht8, Ht, <- app_assoc.
    split; [ reflexivity | ]. rewrite written_paths_app, Hq. reflexivity. }
  exfalso.
  match type of H with
  | ?run w9 = _ =>
      pose proof (saves_do_not_raise opt save_file_best st epoch r m3 o1
                    (Rltb v (best_error st)) (pymin v (best_error st)) test w9) as Hok
  end.
  rewrite H in Hok. discriminate Hok.
Qed.

Lemma epoch_body_save_freq_zero (opt : options)
  (train_loader val_loader test_loader : DataLoader) (criterion : criterion)
  (save_file_best : string) (st : loop_state) (epoch : Z) (w : world) :
  save_freq opt = 0%Z ->
  exists err w',
    epoch_body opt train_loader val_loader test_loader criterion save_file_best
      st epoch w = (Raise err, w').
Proof.
  intros Hsf.
  destruct (epoch_body opt train_loader val_loader test_loader criterion
              save_file_best st epoch w) as [[st' | err] w'] eqn:H; [ | eauto ].
  apply epoch_body_obs in H as (o & _ & _ & _ & _ & Hne & _). contradiction.
Qed.

(** X7: an epoch that raises has written no file: everything that can fail
    in the body of the epoch loop (the training pass, the two evaluation
    passes, the test of [epoch % save_freq]) comes before both checkpoint
    writes, and the writes themselves do not fail. *)
Theorem failed_epoch_writes_nothing (opt : options)
  (train_loader val_loader test_loader : DataLoader) (criterion : criterion)
  (save_file_best : string) (st : loop_state) (epoch : Z) (w : world) err w' :
  epoch_body opt train_loader val_loader test_loader criterion save_file_best
    st epoch w = (Raise err, w') ->
  fs w' = fs w /\
  exists t, trace w' = (trace w ++ t)%list /\ written_paths t = [].
Proof. apply epoch_body_raise. Qed.

(** X8: with save frequency 0 the training routine never writes a
    checkpoint: whenever there is an epoch to run, the first one raises
    (ZeroDivisionError at [epoch % save_freq], unless the epoch failed
    earlier) after training and evaluating, and the file system is as it
    was, without a best checkpoint. *)
Theorem save_freq_zero_never_saves (opt : options)
  (train_loader val_loader test_loader : DataLoader) (criterion : criterion)
  (model : module) (optimizer : ostate) (start : Z) (w : world) :
  save_freq opt = 0%Z ->
  (start <= epochs opt)%Z ->
  exists err w',
    main_loop opt train_loader val_loader test_loader criterion model optimizer
      (inl start) w = (Raise err, w') /\
    fs w' = fs w /\
    exists t, trace w' = (trace w ++ t)%list /\ written_paths t = [].
Proof.
  intros Hsf Hle. unfold main_loop.
  rewrite (range_cons start (epochs opt + 1)) by lia. cbn [for_epochs].
  match goal with
  | |- context [bind (epoch_body ?o ?a ?b ?c ?d ?f ?s ?e) _ w] =>
      destruct (epoch_body_save_freq_zero o a b c d f s e w Hsf)
        as (err & w' & H)
  end.
  exists err, w'. unfold bind. rewrite H. split; [ reflexivity | ].
  apply epoch_body_raise in H. exact H.
Qed.


(** ** What a resume reads *)

Lemma torch_load_pickle (path : string) (d : gmap string pyval) (w : world) :
  fs w !! path = Some (Pickle d) -> torch_load path w = (Ok d, w).
Proof.
  intros H. unfold torch_load, bind, read_file. rewrite H. reflexivity.
Qed.

(** X9: the best checkpoint cannot be resumed from.  It holds no optimizer
    state, so a run whose resume path is a best checkpoint written by the
    training loop raises before any epoch (once the file is loaded, at the
    lookup of the key optimizer), and has then printed and written
    nothing. *)
Theorem best_checkpoint_is_not_resumable (opt : options) (model : module)
  (optimizer : ostate) (w : world) (epoch : Z) (saved : module) (b : R) :
  nonempty (resume opt) = true ->
  fs w !! resume opt = Some (Pickle (best_checkpoint epoch saved b)) ->
  exists err, main_resume opt model optimizer w = (Raise err, w).
Proof.
  intros Hne Hf. exists (KeyError "optimizer"). unfold main_resume. rewrite Hne.
  unfold bind at 1. rewrite (torch_load_pickle _ _ _ Hf).
  reflexivity.
Qed.

(** X10: a resume reads the keys model, optimizer and epoch of the
    checkpoint and nothing else: two checkpoints that agree on these three
    keys resume alike, whatever else they hold.  A best error stored in
    the checkpoint is never read. *)
Theorem resume_reads_three_keys (opt : options) (model : module)
  (optimizer : ostate) (w w' : world) (d d' : gmap string pyval) :
  fs w !! resume opt = Some (Pickle d) ->
  fs w' !! resume opt = Some (Pickle d') ->
  d !! "model" = d' !! "model" ->
  d !! "optimizer" = d' !! "optimizer" ->
  d !! "epoch" = d' !! "epoch" ->
  fst (main_resume opt model optimizer w) = fst (main_resume opt model optimizer w').
Proof.
  intros Hf Hf' Hm Ho He. unfold main_resume.
  destruct (nonempty (resume opt)); [ | reflexivity ].
  unfold bind, torch_load, bind, read_file, getitem, ret, raise.
  rewrite Hf, Hf', Hm, Ho, He.
  destruct (d' !! "model") as [vm | ]; [ | reflexivity ].
  destruct vm; try reflexivity. cbn [load_state_dict]. unfold ret.
  destruct (d' !! "optimizer") as [vo | ]; [ | reflexivity ].
  destruct vo; try reflexivity. cbn [load_optimizer_state]. unfold ret.
  destruct (d' !! "epoch") as [ve | ]; [ | reflexivity ].
  destruct ve; reflexivity.
Qed.


Lemma main_after_setup (a : args) (w : world) opt w0 tl vl sl w1 :
  parse_option a w = (Ok opt, w0) ->
  set_loader opt w0 = (Ok (tl, vl, sl), w1) ->
  main a w
  = bind (main_resume opt (fst (set_model opt))
            (set_optimizer opt (state_dict (fst (set_model opt)))))
      (fun resumed =>
         let '(model, optimizer, start_epoch) := resumed in
         bind (main_loop opt tl vl sl (snd (set_model opt)) model optimizer
                 start_epoch)
           (fun _ => ret tt)) w1.
Proof.
  intros Hp Hl. unfold main. unfold bind at 1. rewrite Hp.
  unfold bind at 1. rewrite Hl. reflexivity.
Qed.

Lemma resumable_after_setup (a : args) (w : world) opt w0 loaders w1 p s e :
  parse_option a w = (Ok opt, w0) ->
  set_loader opt w0 = (Ok loaders, w1) ->
  resumable w (resume a) p s e ->
  resumable w1 (resume opt) p s e.
Proof.
  intros Hp Hl (d & Hf & Hk).
  rewrite (parse_option_parsed _ _ _ _ Hp). exists d. split; [ | exact Hk ].
  pose proof (setup_set_loader opt w0) as [_ P1]. rewrite Hl in P1.
  pose proof (setup_parse_option a w) as [_ P0]. rewrite Hp in P0.
  apply P1, P0, Hf.
Qed.

(** X11: resuming from a checkpoint of the last epoch (or a later one) is a
    run without any epoch: the states are loaded and the run ends normally,
    having trained nothing, evaluated nothing and written no checkpoint. *)
Theorem resume_from_last_epoch_runs_nothing
  (a : args) (w : world) opt w0 tl vl sl w1 p s e :
  nonempty (resume a) = true ->
  parse_option a w = (Ok opt, w0) ->
  set_loader opt w0 = (Ok (tl, vl, sl), w1) ->
  resumable w (resume a) p s e ->
  (epochs a <= e)%Z ->
  main a w
  = (Ok tt, {| fs := fs w1;
               trace := (trace w1 ++ [PrintResumed (VInt e) (resume a)])%list |}).
Proof.
  intros Hne Hp Hl Hres Hle.
  pose proof (parse_option_parsed _ _ _ _ Hp) as Hopt.
  rewrite (main_after_setup _ _ _ _ _ _ _ _ Hp Hl).
  assert (Hne1 : nonempty (resume opt) = true) by (rewrite Hopt; exact Hne).
  pose proof (resumable_after_setup _ _ _ _ _ _ _ _ _ Hp Hl Hres) as Hres1.
  unfold bind at 1.
  rewrite (main_resume_ok opt _ _ w1 p s e Hne1 Hres1).
  unfold main_loop. rewrite Hopt, range_empty by lia.
  reflexivity.
Qed.



(** ** Perfect predictions *)

Lemma combine_diag (l : list R) : combine l l = map (fun x => (x, x)) l.
Proof.
  induction l as [ | x l IH]; cbn; [ | rewrite IH ]; reflexivity.
Qed.

Lemma Rsum_zero {A : Type} (f : A -> R) (l : list A) :
  (forall x, f x = 0%R) -> Rsum (map f l) = 0%R.
Proof.
  intros Hf. unfold Rsum. induction l as [ | x l IH]; cbn; [ | rewrite Hf, IH ]; lra.
Qed.

Lemma spec_MAE_same (l : list R) : spec_MAE l l = 0%R.
Proof.
  unfold spec_MAE, mean. rewrite combine_diag, map_map.
  rewrite Rsum_zero; [ unfold Rdiv; apply Rmult_0_l | ].
  intros x. cbn. rewrite Rminus_diag. apply Rabs_R0.
Qed.

Lemma spec_RMSE_same (l : list R) : spec_RMSE l l = 0%R.
Proof.
  unfold spec_RMSE, mean. rewrite combine_diag, map_map.
  rewrite Rsum_zero; [ unfold Rdiv; rewrite Rmult_0_l; apply sqrt_0 | ].
  intros x. cbn. rewrite Rminus_diag. lra.
Qed.

Lemma r2_score_same (l : list R) : r2_score l l = 1%R.
Proof.
  unfold r2_score. rewrite combine_diag, map_map.
  rewrite (Rsum_zero (fun x : R => ((x, x).1 - (x, x).2) ^ 2)%R)
    by (intros x; cbn; rewrite Rminus_diag; lra).
  destruct (Req_dec_T _ 0).
  - destruct (Req_dec_T 0 0); [ reflexivity | contradiction ].
  - unfold Rdiv. rewrite Rmult_0_l. lra.
Qed.

Lemma predictions_equal_labels (model : module) (batches : list (images * list R)) :
  Forall (fun b => fst (forward (state_dict model) false (fst b)) = snd b) batches ->
  predictions model batches = ground_truth batches /\ shapes_agree model batches.
Proof.
  unfold predictions, ground_truth, shapes_agree.
  induction 1 as [ | b bs Hb _ [IH1 IH2]]; cbn; [ split; [ reflexivity | constructor ] | ].
  rewrite Hb, IH1. split; [ reflexivity | ].
  constructor; [ rewrite Hb; reflexivity | exact IH2 ].
Qed.

(** X14: when the model predicts every label of a split exactly (and the
    predictions are finite), an evaluation on a host with CUDA returns
    MAE 0 and RMSE 0, and R2 1 when the split has at least two samples; the model is left in evaluation
    mode and nothing is printed or written. *)
Theorem validate_on_perfect_predictions
  (batches : list (images * list R)) (model : module) (w : world) :
  cuda_is_available = true ->
  batches <> [] ->
  Forall (fun b => fst (forward (state_dict model) false (fst b)) = snd b) batches ->
  finite_outputs model batches ->
  (2 <= List.length (ground_truth batches))%nat ->
  exists pear spear,
    validate batches model w
    = (Ok ([0; 0; pear; spear; 1]%R, mk_module (state_dict model) false), w).
Proof.
  intros Hcuda Hne Hall Hfin Hlen.
  destruct (predictions_equal_labels model batches Hall) as [Hp Hsh].
  assert (Hsome : ground_truth batches <> []).
  { intros E. rewrite E in Hlen. cbn in Hlen. lia. }
  rewrite (validate_ok batches model w Hcuda Hne Hsome Hsh Hfin). rewrite Hp.
  rewrite spec_MAE_same, spec_RMSE_same, r2_score_same. eauto.
Qed.

(** ** When an evaluation fails *)

Lemma np_sub_raise_iff (a b : list R) :
  is_ok (np_sub a b) = false <->
  List.length a <> List.length b /\ List.length a <> 1%nat /\
  List.length b <> 1%nat.
Proof.
  unfold np_sub. destruct (List.length a =? List.length b)%nat eqn:E.
  - apply Nat.eqb_eq in E. cbn. split; [ discriminate | intros [H _]; contradiction ].
  - apply Nat.eqb_neq in E.
    destruct a as [ | x [ | x' a]]; destruct b as [ | y [ | y' b]]; cbn in *;
      split; intros H; try discriminate; try reflexivity;
      try (repeat split; congruence); try lia;
      destruct H as (H1 & H2 & H3); congruence.
Qed.

Lemma np_sub_error (a b : list R) e : np_sub a b = Raise e -> e = ValueError.
Proof.
  unfold np_sub. destruct (_ =? _)%nat; [ discriminate | ].
  destruct a as [ | x [ | x' a]]; destruct b as [ | y [ | y' b]];
    intros H; try discriminate; injection H as <-; reflexivity.
Qed.

(** X15: an evaluation over a split that yields no batch raises ValueError
    (at [np.concatenate]).  One whose prediction and label columns differ
    in length, with neither of length 1, raises as well: ValueError (at
    [pred - truth]) on a host with CUDA, and already at the first batch on
    a host without.  A failed evaluation has printed and written nothing. *)
Theorem validate_fails_with_value_error
  (batches : list (images * list R)) (model : module) (w : world) :
  (batches = [] -> validate batches model w = (Raise ValueError, w)) /\
  (List.length (predictions model batches) <> List.length (ground_truth batches) /\
   List.length (predictions model batches) <> 1%nat /\
   List.length (ground_truth batches) <> 1%nat ->
   (cuda_is_available = true -> validate batches model w = (Raise ValueError, w)) /\
   exists err, validate batches model w = (Raise err, w)).
Proof.
  split; [ intros ->; reflexivity | ].
  intros Hc. apply np_sub_raise_iff in Hc.
  unfold predictions, ground_truth in Hc.
  destruct batches as [ | b bs]; [ discriminate Hc | ].
  unfold validate, bind, cuda, lift, ret, raise.
  cbn [map np_concatenate eval_mode state_dict training].
  destruct (np_sub _ _) as [d | e] eqn:E; [ discriminate Hc | ].
  apply np_sub_error in E. subst e.
  destruct cuda_is_available; split; eauto; discriminate.
Qed.

(** ** The running best *)

Lemma pymin_cases (v b : R) :
  (pymin v b <= v)%R /\ (pymin v b <= b)%R /\ (pymin v b = b \/ pymin v b = v).
Proof. unfold pymin. destruct (Rlt_dec b v); repeat split; auto; lra. Qed.

Lemma run_best_minimum (obs : list epoch_obs) :
  forall b bt,
    (fst (run_best b bt obs) <= b)%R /\
    Forall (fun o => fst (run_best b bt obs) <= valid_mae o)%R obs /\
    (fst (run_best b bt obs) = b \/
     In (fst (run_best b bt obs)) (map valid_mae obs)).
Proof.
  induction obs as [ | o obs IH]; intros b bt; cbn [run_best map].
  - cbn. repeat split; auto. lra.
  - destruct (IH (pymin (valid_mae o) b)
                (if Rltb (valid_mae o) b then ob_test o else bt))
      as (H1 & H2 & H3).
    destruct (pymin_cases (valid_mae o) b) as (Hv & Hb & Hc).
    split; [ lra | ]. split.
    + constructor; [ lra | exact H2 ].
    + destruct H3 as [H3 | H3]; [ | right; right; exact H3 ].
      rewrite H3. destruct Hc as [-> | ->]; [ left | right; left ]; reflexivity.
Qed.

(** X16: after a completed training loop the running best error is the
    minimum of the baseline 1e10 and the validation MAEs of the run: it is
    at most each of them and equal to one of them. *)
Theorem best_error_is_the_minimum
  (opt : options) (train_loader val_loader test_loader : DataLoader)
  (criterion : criterion) (model : module) (optimizer : ostate)
  (start : Z) (w : world) st' w' :
  main_loop opt train_loader val_loader test_loader criterion model optimizer
    (inl start) w = (Ok st', w') ->
  exists t,
    trace w' = (trace w ++ t)%list /\
    (best_error st' <= initial_best_error)%R /\
    Forall (fun v => best_error st' <= v)%R (valid_maes t) /\
    (best_error st' = initial_best_error \/ In (best_error st') (valid_maes t)).
Proof.
  intros H. apply main_loop_obs in H as (s & obs & _ & _ & Hwf & Hb & _ & Htr).
  exists (run_events opt (best_file opt) initial_best_error initial_best_test obs).
  rewrite (valid_maes_run _ _ _ Hwf), Hb.
  destruct (run_best_minimum obs initial_best_error initial_best_test)
    as (H1 & H2 & H3).
  repeat split; auto.
  apply List.Forall_forall. intros v Hv. apply in_map_iff in Hv as (o & <- & Ho).
  rewrite List.Forall_forall in H2. apply H2, Ho.
Qed.


(** ** A fresh run *)



(** ** The files a run touches *)

(** A computation that leaves every path outside [P] as it found it,
    whether it returns or raises. *)
Definition confined {A : Type} (P : string -> Prop) (m : M A) : Prop :=
  forall w p, ~ P p -> fs (snd (m w)) !! p = fs w !! p.

Lemma confined_ret {A : Type} (P : string -> Prop) (a : A) : confined P (ret a).
Proof. intros w p _. reflexivity. Qed.

Lemma confined_raise {A : Type} (P : string -> Prop) (e : exn) :
  confined P (raise (A := A) e).
Proof. intros w p _. reflexivity. Qed.

Lemma confined_lift {A : Type} (P : string -> Prop) (r : result A) :
  confined P (lift r).
Proof. intros w p _. reflexivity. Qed.

Lemma confined_print (P : string -> Prop) (e : event) : confined P (print e).
Proof. intros w p _. reflexivity. Qed.

Lemma confined_write_file (P : string -> Prop) (path : string) (n : fnode) :
  P path -> confined P (write_file path n).
Proof.
  intros HP w p Hp. cbn. apply lookup_insert_ne. intros ->. apply Hp, HP.
Qed.

Lemma confined_bind_post {A B : Type} (P : string -> Prop) (Q : A -> Prop)
  (m : M A) (k : A -> M B) :
  (forall w a w', m w = (Ok a, w') -> Q a) ->
  confined P m -> (forall a, Q a -> confined P (k a)) -> confined P (bind m k).
Proof.
  intros HQ Hm Hk w p Hp. unfold bind. specialize (Hm w p Hp).
  destruct (m w) as [[a | e] w1] eqn:E; cbn in *; [ | exact Hm ].
  rewrite (Hk a (HQ _ _ _ E) w1 p Hp). exact Hm.
Qed.

Lemma confined_bind {A B : Type} (P : string -> Prop) (m : M A) (k : A -> M B) :
  confined P m -> (forall a, confined P (k a)) -> confined P (bind m k).
Proof.
  intros Hm Hk. apply (confined_bind_post P (fun _ => True)); auto.
Qed.

Lemma confined_read {A : Type} (P : string -> Prop) (path : string)
  (k : option fnode -> M A) :
  (forall n, confined P (k n)) -> confined P (bind (read_file path) k).
Proof. intros Hk w p Hp. apply (Hk (fs w !! path) w p Hp). Qed.

Lemma confined_train (P : string -> Prop) (batches : list (images * list R))
  (model : module) (criterion : criterion) (optimizer : ostate) (epoch : Z)
  (opt : options) :
  confined P (train batches model criterion optimizer epoch opt).
Proof.
  intros w p _.
  destruct (train batches model criterion optimizer epoch opt w) as [r w'] eqn:E.
  apply train_trace in E as [Hfs _]. cbn. rewrite Hfs. reflexivity.
Qed.

Lemma confined_validate (P : string -> Prop) (batches : list (images * list R))
  (model : module) : confined P (validate batches model).
Proof. intros w p _. rewrite validate_world. reflexivity. Qed.

Lemma prefix_app (a b : string) : String.prefix a (a ++ b) = true.
Proof.
  induction a as [ | c a IH]; [ destruct b; reflexivity | ].
  change (String c a ++ b) with (String c (a ++ b)). cbn.
  destruct (ascii_dec c c); [ exact IH | contradiction ].
Qed.

Lemma prefix_path_join (folder name : string) :
  PyStr.startswith name "/" = false ->
  String.prefix folder (PyStr.path_join folder name) = true.
Proof.
  intros H. unfold PyStr.path_join. rewrite H.
  destruct (_ || _); apply prefix_app.
Qed.

Lemma prefix_refl (a : string) : String.prefix a a = true.
Proof.
  induction a as [ | c a IH]; [ reflexivity | ]. cbn.
  destruct (ascii_dec c c); [ exact IH | contradiction ].
Qed.


Lemma confined_epoch_body (opt : options)
  (train_loader val_loader test_loader : DataLoader) (criterion : criterion)
  (st : loop_state) (epoch : Z) :
  confined (fun p => String.prefix (save_folder opt) p = true)
    (epoch_body opt train_loader val_loader test_loader criterion
       (best_file opt) st epoch).
Proof.
  unfold epoch_body.
  apply confined_bind; [ apply confined_train | intros [m1 o1] ].
  apply confined_bind; [ apply confined_validate | intros [valid m2] ].
  apply confined_bind; [ apply confined_print | intros _ ].
  apply confined_bind; [ apply confined_print | intros _ ].
  apply confined_bind; [ apply confined_lift | intros v ].
  apply confined_bind; [ apply confined_print | intros _ ].
  apply confined_bind; [ apply confined_validate | intros [test m3] ].
  apply confined_bind; [ apply confined_print | intros _ ].
  apply confined_bind; [ apply confined_lift | intros r ].
  apply confined_bind; [ | intros _ ].
  { destruct (r =? 0)%Z; [ | apply confined_ret ].
    apply confined_write_file, prefix_path_join. reflexivity. }
  apply confined_bind.
  - destruct (Rltb v (best_error st)); [ | apply confined_ret ].
    apply confined_bind; [ | intros _; apply confined_ret ].
    apply confined_write_file, prefix_path_join. reflexivity.
  - intros bt. apply confined_bind; [ apply confined_print | intros _; apply confined_ret ].
Qed.

Lemma confined_for_epochs (P : string -> Prop)
  (body : loop_state -> Z -> M loop_state) (es : list Z) :
  (forall st e, confined P (body st e)) ->
  forall st, confined P (for_epochs body es st).
Proof.
  intros Hb. induction es as [ | e es IH]; intros st; cbn.
  - apply confined_ret.
  - apply confined_bind; [ apply Hb | exact IH ].
Qed.

Lemma confined_main_loop (opt : options)
  (train_loader val_loader test_loader : DataLoader) (criterion : criterion)
  (model : module) (optimizer : ostate) (start_epoch : Z + R) :
  confined (fun p => String.prefix (save_folder opt) p = true)
    (main_loop opt train_loader val_loader test_loader criterion
       model optimizer start_epoch).
Proof.
  unfold main_loop. destruct start_epoch as [s | x].
  - apply confined_for_epochs. intros st e. apply confined_epoch_body.
  - apply confined_raise.
Qed.

Lemma confined_parse_option (a : args) (mp mn sf : string) :
  derive_names a = Ok (mp, mn, sf) ->
  confined (fun p => String.prefix sf p = true) (parse_option a).
Proof.
  intros Hd. unfold parse_option. rewrite Hd.
  apply (confined_bind_post _ (fun names => names = (mp, mn, sf)));
    [ intros w x w' H; injection H as <- _; reflexivity
    | apply confined_lift | intros names -> ].
  apply confined_bind; [ | intros _ ].
  { unfold ensure_folder. apply confined_read. intros [[ | | d | ] | ];
      first [ apply confined_print | apply confined_raise | idtac ].
    apply confined_write_file, prefix_refl. }
  apply confined_bind; [ | intros _ ].
  { unfold open_log. apply confined_read. intros [n | ]; [ apply confined_ret | ].
    apply confined_write_file, prefix_path_join. reflexivity. }
  apply confined_bind; [ apply confined_print | intros _ ].
  apply confined_bind; [ apply confined_print | intros _ ].
  apply confined_ret.
Qed.

Lemma confined_set_loader (P : string -> Prop) (opt : options) :
  confined P (set_loader opt).
Proof.
  unfold set_loader.
  apply confined_bind; [ apply confined_print | intros _ ].
  apply confined_bind; [ apply confined_print | intros _ ].
  apply confined_bind; [ apply confined_lift | intros d1 ].
  apply confined_bind; [ apply confined_lift | intros d2 ].
  apply confined_bind; [ apply confined_lift | intros d3 ].
  apply confined_bind; [ apply confined_print | intros _ ].
  apply confined_ret.
Qed.

Lemma confined_main_resume (P : string -> Prop) (opt : options) (model : module)
  (optimizer : ostate) : confined P (main_resume opt model optimizer).
Proof.
  unfold main_resume. destruct (nonempty (resume opt)); [ | apply confined_ret ].
  apply confined_bind; [ | intros d ].
  { unfold torch_load. apply confined_read. intros [[ | | d | ] | ];
      first [ apply confined_ret | apply confined_raise ]. }
  unfold getitem.
  apply confined_bind; [ destruct (d !! "model"); [ apply confined_ret | apply confined_raise ] | intros vm ].
  apply confined_bind; [ destruct vm; first [ apply confined_ret | apply confined_raise ] | intros p ].
  apply confined_bind; [ destruct (d !! "optimizer"); [ apply confined_ret | apply confined_raise ] | intros vo ].
  apply confined_bind; [ destruct vo; first [ apply confined_ret | apply confined_raise ] | intros o ].
  apply confined_bind; [ destruct (d !! "epoch"); [ apply confined_ret | apply confined_raise ] | intros ve ].
  apply confined_bind; [ destruct ve; first [ apply confined_ret | apply confined_raise ] | intros se ].
  apply confined_bind; [ destruct (d !! "epoch"); [ apply confined_ret | apply confined_raise ] | intros ve' ].
  apply confined_bind; [ apply confined_print | intros _ ].
  apply confined_ret.
Qed.

Lemma main_confined (a : args) (w : world) (p : string) :
  (forall mp mn sf, derive_names a = Ok (mp, mn, sf) ->
                    String.prefix sf p = false) ->
  fs (snd (main a w)) !! p = fs w !! p.
Proof.
  intros Hp.
  destruct (derive_names a) as [[[mp mn] sf] | e] eqn:Hd.
  2:{ unfold main, bind at 1, parse_option, bind at 1, lift. rewrite Hd.
      reflexivity. }
  assert (Hout : ~ String.prefix sf p = true).
  { rewrite (Hp mp mn sf eq_refl). discriminate. }
  clear Hp. revert w p Hout.
  change (confined (fun p => String.prefix sf p = true) (main a)).
  unfold main.
  apply (confined_bind_post _ (fun opt => save_folder opt = sf)).
  { intros w opt w' H. apply parse_option_names in H. congruence. }
  { apply (confined_parse_option a mp mn sf Hd). }
  intros opt <-.
  apply confined_bind; [ apply confined_set_loader | intros [[tl vl] sl] ].
  destruct (set_model opt) as [model criterion].
  apply confined_bind; [ apply confined_main_resume | intros [[m o] se] ].
  apply confined_bind; [ apply confined_main_loop | intros _; apply confined_ret ].
Qed.

(** X18: a run leaves everything outside its run folder alone.  Whatever
    the options and however the run ends (normally or with an exception),
    a path that does not start with the derived save folder and exists
    before [main] holds afterwards what it held before, and no file
    appears at such a path (the parents of the run folder are directories). *)
Theorem main_writes_inside_run_folder (a : args) (w : world) (p : string) r w' :
  main a w = (r, w') ->
  (forall mp mn sf, derive_names a = Ok (mp, mn, sf) ->
                    String.prefix sf p = false) ->
  (forall n, fs w !! p = Some n -> fs w' !! p = Some n) /\
  (forall n, fs w' !! p = Some n -> n <> Dir -> fs w !! p = Some n).
Proof.
  intros Hrun Hp. pose proof (main_confined a w p Hp) as H.
  rewrite Hrun in H. cbn in H. rewrite H. auto.
Qed.


(** ** What the best checkpoint file holds in the end *)

(** The file system after the writes of a trace, in their order. *)
Definition apply_writes (t : list event) (m : gmap string fnode)
  : gmap string fnode :=
  fold_left (fun m e => match e with
                        | Write p n => <[p := n]> m
                        | _ => m
                        end) t m.

(** A computation whose effect on the file system is the writes it logs. *)
Definition logged {A : Type} (m : M A) : Prop :=
  forall w, exists t, trace (snd (m w)) = (trace w ++ t)%list /\
                      fs (snd (m w)) = apply_writes t (fs w).

Lemma apply_writes_app (t1 t2 : list event) (m : gmap string fnode) :
  apply_writes (t1 ++ t2) m = apply_writes t2 (apply_writes t1 m).
Proof. unfold apply_writes. apply fold_left_app. Qed.

Lemma apply_writes_progress (t : list event) (m : gmap string fnode) :
  Forall is_progress t -> apply_writes t m = m.
Proof.
  induction 1 as [ | e t He _ IH]; [ reflexivity | ].
  destruct e; try contradiction. exact IH.
Qed.

Lemma logged_silent {A : Type} (m : M A) :
  (forall w, snd (m w) = w) -> logged m.
Proof.
  intros H w. exists []. rewrite H, app_nil_r. split; reflexivity.
Qed.

Lemma logged_print (e : event) :
  (forall p n, e <> Write p n) -> logged (print e).
Proof.
  intros He w. exists [e]. split; [ reflexivity | ].
  destruct e; try reflexivity. exfalso. apply (He path n). reflexivity.
Qed.

Lemma logged_write_file (path : string) (n : fnode) : logged (write_file path n).
Proof. intros w. exists [Write path n]. split; reflexivity. Qed.

Lemma logged_bind {A B : Type} (m : M A) (k : A -> M B) :
  logged m -> (forall a, logged (k a)) -> logged (bind m k).
Proof.
  intros Hm Hk w. unfold bind. destruct (Hm w) as (t1 & Ht1 & Hf1).
  destruct (m w) as [[a | e] w1]; cbn in *; [ | eauto ].
  destruct (Hk a w1) as (t2 & Ht2 & Hf2).
  exists (t1 ++ t2)%list.
  rewrite Ht2, Hf2, Ht1, Hf1, app_assoc, apply_writes_app. split; reflexivity.
Qed.

Lemma logged_train (batches : list (images * list R)) (model : module)
  (criterion : criterion) (optimizer : ostate) (epoch : Z) (opt : options) :
  logged (train batches model criterion optimizer epoch opt).
Proof.
  intros w.
  destruct (train batches model criterion optimizer epoch opt w) as [r w'] eqn:E.
  apply train_trace in E as (Hfs & t & Ht & HF). exists t. cbn.
  rewrite (apply_writes_progress _ _ HF). auto.
Qed.

Lemma logged_epoch_body (opt : options)
  (train_loader val_loader test_loader : DataLoader) (criterion : criterion)
  (save_file_best : string) (st : loop_state) (epoch : Z) :
  logged (epoch_body opt train_loader val_loader test_loader criterion
            save_file_best st epoch).
Proof.
  unfold epoch_body.
  assert (Hpr : forall e, (forall p n, e <> Write p n) -> logged (print e))
    by exact logged_print.
  assert (Hlift : forall (A : Type) (r : result A), logged (lift r))
    by (intros A r; apply logged_silent; reflexivity).
  assert (Hret : forall (A : Type) (x : A), logged (ret x))
    by (intros A x; apply logged_silent; reflexivity).
  apply logged_bind; [ apply logged_train | intros [m1 o1] ].
  apply logged_bind; [ apply logged_silent, validate_world | intros [valid m2] ].
  apply logged_bind; [ apply Hpr; discriminate | intros _ ].
  apply logged_bind; [ apply Hpr; discriminate | intros _ ].
  apply logged_bind; [ apply Hlift | intros v ].
  apply logged_bind; [ apply Hpr; discriminate | intros _ ].
  apply logged_bind; [ apply logged_silent, validate_world | intros [test m3] ].
  apply logged_bind; [ apply Hpr; discriminate | intros _ ].
  apply logged_bind; [ apply Hlift | intros r ].
  apply logged_bind;
    [ destruct (r =? 0)%Z; [ apply logged_write_file | apply Hret ] | intros _ ].
  apply logged_bind.
  - destruct (Rltb v (best_error st)); [ | apply Hret ].
    apply logged_bind; [ apply logged_write_file | intros _; apply Hret ].
  - intros bt. apply logged_bind; [ apply Hpr; discriminate | intros _; apply Hret ].
Qed.

Lemma logged_for_epochs (body : loop_state -> Z -> M loop_state) (es : list Z) :
  (forall st e, logged (body st e)) ->
  forall st, logged (for_epochs body es st).
Proof.
  intros Hb. induction es as [ | e es IH]; intros st; cbn.
  - apply logged_silent. reflexivity.
  - apply logged_bind; [ apply Hb | exact IH ].
Qed.

Lemma main_loop_replay (opt : options)
  (train_loader val_loader test_loader : DataLoader) (criterion : criterion)
  (model : module) (optimizer : ostate) (start : Z) (w : world) st' w' :
  main_loop opt train_loader val_loader test_loader criterion model optimizer
    (inl start) w = (Ok st', w') ->
  exists obs,
    map ob_epoch obs = range start (epochs opt + 1) /\
    Forall well_formed_obs obs /\
    best_error st' = fst (run_best initial_best_error initial_best_test obs) /\
    fs w' = apply_writes (run_events opt (best_file opt) initial_best_error
                            initial_best_test obs) (fs w).
Proof.
  intros H.
  destruct (logged_for_epochs
              (epoch_body opt train_loader val_loader test_loader criterion
                 (best_file opt))
              (range start (epochs opt + 1))
              (fun st e => logged_epoch_body opt train_loader val_loader
                             test_loader criterion (best_file opt) st e)
              (mk_loop_state model optimizer initial_best_error initial_best_test) w)
    as (t & Ht & Hf).
  pose proof H as H'. unfold main_loop in H'. rewrite H' in Ht, Hf. cbn in Ht, Hf.
  apply main_loop_obs in H as (s & obs & Hs & Hes & Hwf & Hb & _ & Htr).
  injection Hs as <-. exists obs. repeat split; auto.
  rewrite Htr in Ht. apply app_inv_head in Ht. rewrite Ht. exact Hf.
Qed.


Lemma best_file_after_epoch (opt : options) (b : R) (bt : list R) (o : epoch_obs)
  (m : gmap string fnode) :
  Forall is_progress (ob_progress o) ->
  apply_writes (obs_events opt (best_file opt) b bt o) m !! best_file opt
  = if Rltb (valid_mae o) b
    then Some (Pickle (best_checkpoint (ob_epoch o) (ob_model o)
                         (pymin (valid_mae o) b)))
    else m !! best_file opt.
Proof.
  intros Hp. unfold obs_events.
  rewrite apply_writes_app, (apply_writes_progress _ _ Hp).
  rewrite !apply_writes_app.
  destruct (Rltb (valid_mae o) b); cbn.
  - apply lookup_insert_eq.
  - destruct (_ =? 0)%Z; cbn; [ | reflexivity ].
    apply lookup_insert_ne, periodic_file_not_best.
Qed.

Lemma best_file_after_run (opt : options) (obs : list epoch_obs) :
  Forall well_formed_obs obs ->
  forall b bt m,
    ((fst (run_best b bt obs) < b)%R ->
     exists o, In o obs /\
       apply_writes (run_events opt (best_file opt) b bt obs) m !! best_file opt
       = Some (Pickle (best_checkpoint (ob_epoch o) (ob_model o)
                         (fst (run_best b bt obs))))) /\
    (fst (run_best b bt obs) = b ->
     apply_writes (run_events opt (best_file opt) b bt obs) m !! best_file opt
     = m !! best_file opt).
Proof.
  induction 1 as [ | o obs Ho _ IH]; intros b bt m; cbn [run_events run_best].
  - cbn. split; [ lra | reflexivity ].
  - rewrite apply_writes_app.
    set (b1 := pymin (valid_mae o) b).
    set (bt1 := if Rltb (valid_mae o) b then ob_test o else bt).
    set (m1 := apply_writes (obs_events opt (best_file opt) b bt o) m).
    destruct (IH b1 bt1 m1) as [IHlt IHeq].
    destruct (run_best_minimum obs b1 bt1) as (Hle & _ & _).
    destruct (pymin_cases (valid_mae o) b) as (_ & Hb1 & _). fold b1 in Hb1.
    assert (Hm1 : m1 !! best_file opt
                  = if Rltb (valid_mae o) b
                    then Some (Pickle (best_checkpoint (ob_epoch o) (ob_model o) b1))
                    else m !! best_file opt).
    { apply best_file_after_epoch. apply Ho. }
    split.
    + intros Hlt.
      destruct (Rlt_dec (fst (run_best b1 bt1 obs)) b1) as [Hlt1 | Hge1].
      * destruct (IHlt Hlt1) as (o' & Hin & Hf). exists o'.
        split; [ right; exact Hin | exact Hf ].
      * assert (Heq : fst (run_best b1 bt1 obs) = b1) by lra.
        exists o. split; [ left; reflexivity | ].
        rewrite (IHeq Heq), Hm1, Heq.
        assert (Hv : Rltb (valid_mae o) b = true).
        { unfold Rltb. destruct (Rlt_dec (valid_mae o) b) as [ | Hn];
            [ reflexivity | ].
          exfalso. unfold b1, pymin in Heq, Hlt.
          destruct (Rlt_dec b (valid_mae o)); lra. }
        rewrite Hv. reflexivity.
    + intros Heq.
      assert (Heq1 : fst (run_best b1 bt1 obs) = b1) by lra.
      rewrite (IHeq Heq1), Hm1.
      assert (Hv : Rltb (valid_mae o) b = false).
      { unfold Rltb. destruct (Rlt_dec (valid_mae o) b) as [Hy | ];
          [ | reflexivity ].
        exfalso. unfold b1, pymin in Heq1, Heq.
        destruct (Rlt_dec b (valid_mae o)); lra. }
      rewrite Hv. reflexivity.
Qed.

(** X19: what the best checkpoint file holds after a completed training
    loop.  If some validation MAE of the run was below 1e10, the file holds
    the best checkpoint of an epoch of this run, and the best error stored
    in it is the final running best; otherwise the loop has not touched
    the file, and a best checkpoint left there by an earlier run stays as
    it was. *)
Theorem best_file_holds_the_best_error
  (opt : options) (train_loader val_loader test_loader : DataLoader)
  (criterion : criterion) (model : module) (optimizer : ostate)
  (start : Z) (w : world) st' w' :
  main_loop opt train_loader val_loader test_loader criterion model optimizer
    (inl start) w = (Ok st', w') ->
  ((best_error st' < initial_best_error)%R ->
   exists e saved,
     In e (range start (epochs opt + 1)) /\
     fs w' !! best_file opt
     = Some (Pickle (best_checkpoint e saved (best_error st')))) /\
  (best_error st' = initial_best_error ->
   fs w' !! best_file opt = fs w !! best_file opt).
Proof.
  intros H. apply main_loop_replay in H as (obs & Hes & Hwf & Hb & Hfs).
  rewrite Hb, Hfs.
  destruct (best_file_after_run opt obs Hwf initial_best_error initial_best_test
              (fs w)) as [Hlt Heq].
  split; [ | exact Heq ].
  intros Hi. destruct (Hlt Hi) as (o & Hin & Hf).
  exists (ob_epoch o), (ob_model o). split; [ | exact Hf ].
  rewrite <- Hes. apply in_map, Hin.
Qed.


(** ** The parameters a best checkpoint holds *)

Lemma validate_mode_irrelevant (batches : list (images * list R)) (model : module)
  (w u : world) r w' :
  validate batches model w = (Ok r, w') ->
  validate batches (eval_mode model) u = (Ok r, u).
Proof.
  intros H.
  pose proof (blind_validate batches model w u) as Hb.
  pose proof (validate_world batches model u) as Hu.
  change (validate batches (eval_mode model) u) with (validate batches model u).
  destruct (validate batches model u) as [r' u'].
  rewrite H in Hb. cbn [fst snd] in *. congruence.
Qed.

(** X20: the best checkpoint holds the parameters its best error was
    measured with.  When an epoch improves the running best, the file
    written as best checkpoint stores the epoch number, the new best error
    and the parameters the loop goes on with; evaluating these stored
    parameters on the validation pass of that epoch again gives the stored
    best error as MAE, in any state of the file system. *)
Theorem best_checkpoint_reproduces_best_error
  (opt : options) (train_loader val_loader test_loader : DataLoader)
  (criterion : criterion) (save_file_best : string)
  (st : loop_state) (epoch : Z) (w : world) st' w' :
  epoch_body opt train_loader val_loader test_loader criterion save_file_best
    st epoch w = (Ok st', w') ->
  (best_error st' < best_error st)%R ->
  exists saved,
    fs w' !! save_file_best
    = Some (Pickle (best_checkpoint epoch saved (best_error st'))) /\
    state_dict saved = state_dict (ls_model st') /\
    forall u, exists rest,
      validate (iterate val_loader epoch) saved u
      = (Ok (best_error st' :: rest, eval_mode saved), u).
Proof.
  unfold epoch_body. intros H Hlt.
  apply bind_ok_inv in H as ([m1 o1] & w1 & _ & H).
  apply bind_ok_inv in H as ([valid m2] & w2 & Hval & H).
  pose proof Hval as Hval'.
  apply validate_result in Hval' as (-> & -> & (a & b & c & d & e & ->)).
  apply bind_ok_inv in H as (u1 & w3 & _ & H).
  apply bind_ok_inv in H as (u2 & w4 & _ & H).
  apply bind_ok_inv in H as (v & w5 & Hix & H).
  unfold lift in Hix. rewrite index_head in Hix. injection Hix as <- <-.
  apply bind_ok_inv in H as (u3 & w6 & _ & H).
  apply bind_ok_inv in H as ([test m3] & w7 & Htest & H).
  apply validate_result in Htest as (-> & -> & _).
  apply bind_ok_inv in H as (u4 & w8 & _ & H).
  apply bind_ok_inv in H as (r & w9 & _ & H).
  apply bind_ok_inv in H as (u5 & w10 & _ & H).
  apply bind_ok_inv in H as (bt & w11 & Hbest & H).
  apply bind_ok_inv in H as (u6 & w12 & [Hfs _]%print_inv & H).
  apply ret_inv in H as [-> ->]. cbn [best_error ls_model] in *.
  assert (Ha : (a < best_error st)%R /\ pymin a (best_error st) = a).
  { unfold pymin in *. destruct (Rlt_dec (best_error st) a); lra. }
  destruct Ha as [Ha Hmin]. rewrite Hmin in *.
  assert (Hb : Rltb a (best_error st) = true) by (apply Rltb_lt, Ha).
  rewrite Hb in Hbest.
  apply bind_ok_inv in Hbest as (u7 & w13 & [Hw _]%write_file_inv & Hbest).
  apply ret_inv in Hbest as [_ ->].
  exists (eval_mode (eval_mode m1)). split; [ | split ].
  - rewrite Hfs, Hw. apply lookup_insert_eq.
  - reflexivity.
  - intros u. exists [b; c; d; e].
    apply (validate_mode_irrelevant _ _ _ u) in Hval. exact Hval.
Qed.


(** ** The regularised and the focal losses *)

(** X21: how the criterion that [set_model] builds enters the training
    loss of the four special loss kinds.  For ConR and ranksim the
    criterion is the L1 loss and the regulariser is added to it (ConR
    scaled by alpha), the regulariser being evaluated only when the L1 term
    is defined; for focal-l1 and focal-mse the criterion is not called at
    all. *)
Theorem special_losses_and_the_criterion (opt : options)
  (output : list R) (feat : features) (labels : list R) :
  let env := tensors output feat labels in
  (loss opt = "ConR" ->
   eval_loss env (batch_loss opt (snd (set_model opt)))
   = rbind (l1_loss output labels) (fun x =>
     rbind (ConR_loss [Features feat; Reals labels; Reals output]) (fun y =>
     Ok (x + alpha opt * y)%R))) /\
  (loss opt = "ranksim" ->
   eval_loss env (batch_loss opt (snd (set_model opt)))
   = rbind (l1_loss output labels) (fun x =>
     rbind (batchwise_ranking_regularizer [Features feat; Reals labels] (alpha opt))
       (fun y => Ok (x + y)%R))) /\
  (loss opt = "focal-l1" ->
   forall c, eval_loss env (batch_loss opt c)
             = weighted_focal_l1_loss [Reals output; Reals labels] (alpha opt)) /\
  (loss opt = "focal-mse" ->
   forall c, eval_loss env (batch_loss opt c)
             = weighted_focal_mse_loss [Reals output; Reals labels] (alpha opt)).
Proof.
  unfold set_model, batch_loss. cbn [snd].
  repeat split; intros ->; cbn.
  - destruct (l1_loss output labels); cbn; [ | reflexivity ].
    destruct (ConR_loss _); reflexivity.
  - reflexivity.
  - reflexivity.
  - reflexivity.
Qed.


(** ** Resuming from a periodic checkpoint *)

Lemma epoch_body_replay (opt : options)
  (train_loader val_loader test_loader : DataLoader) (criterion : criterion)
  (save_file_best : string) (st : loop_state) (epoch : Z) (w : world) st' w' :
  epoch_body opt train_loader val_loader test_loader criterion save_file_best
    st epoch w = (Ok st', w') ->
  exists o,
    ob_epoch o = epoch /\ well_formed_obs o /\
    st' = obs_state (best_error st) (best_test st) o /\
    fs w' = apply_writes (obs_events opt save_file_best (best_error st)
                            (best_test st) o) (fs w).
Proof.
  intros H.
  destruct (logged_epoch_body opt train_loader val_loader test_loader criterion
              save_file_best st epoch w) as (t & Ht & Hf).
  rewrite H in Ht, Hf. cbn [snd] in Ht, Hf.
  apply epoch_body_obs in H as (o & He & Hp & Hv & Hte & _ & Hst & Htr).
  exists o. repeat split; auto.
  rewrite Htr in Ht. apply app_inv_head in Ht. rewrite Ht. exact Hf.
Qed.

Lemma periodic_file_nonempty (opt : options) (epoch : Z) :
  nonempty (periodic_file opt epoch) = true.
Proof.
  unfold periodic_file, PyStr.path_join. cbn [PyStr.startswith].
  change ("ckpt_epoch_" ++ PyStr.of_int epoch ++ ".pth")
    with (String "c" ("kpt_epoch_" ++ PyStr.of_int epoch ++ ".pth")).
  cbn [PyStr.startswith Ascii.eqb Bool.eqb].
  destruct (_ || _); [ apply nonempty_app_cons | ].
  change ("/" ++ String "c" ("kpt_epoch_" ++ PyStr.of_int epoch ++ ".pth"))
    with (String "/" (String "c" ("kpt_epoch_" ++ PyStr.of_int epoch ++ ".pth"))).
  apply nonempty_app_cons.
Qed.

(** X22: a periodic checkpoint can be resumed from, and the resume picks up
    where the epoch ended.  When an epoch whose number is a multiple of the
    save frequency completes, a run whose resume path is that epoch's
    checkpoint file loads the parameters and the optimizer state the epoch
    ended with and starts at the next epoch.  ([save_model] is taken to
    store the parameters, the optimizer state and the epoch it is given.) *)
Theorem periodic_checkpoint_is_resumable
  (opt : options) (train_loader val_loader test_loader : DataLoader)
  (criterion : criterion) (st : loop_state) (epoch : Z) (w : world) st' w'
  (later : options) (model : module) (optimizer : ostate) :
  epoch_body opt train_loader val_loader test_loader criterion (best_file opt)
    st epoch w = (Ok st', w') ->
  (epoch mod save_freq opt = 0)%Z ->
  resume later = periodic_file opt epoch ->
  main_resume later model optimizer w'
  = (Ok (mk_module (state_dict (ls_model st')) (training model),
         ls_optimizer st', inl (epoch + 1)%Z),
     {| fs := fs w';
        trace := (trace w' ++ [PrintResumed (VInt epoch) (resume later)])%list |}).
Proof.
  intros H Hmod Hres.
  apply epoch_body_replay in H as (o & He & (Hp & _ & _) & -> & Hfs).
  apply main_resume_ok.
  { rewrite Hres. apply periodic_file_nonempty. }
  exists (periodic_checkpoint opt epoch (ob_model o) (ob_optimizer o)).
  split; [ | repeat split ].
  rewrite Hfs, Hres. unfold obs_events.
  rewrite apply_writes_app, (apply_writes_progress _ _ Hp), !apply_writes_app.
  rewrite He, Hmod. cbn.
  destruct (Rltb (valid_mae o) (best_error st)); cbn.
  - rewrite lookup_insert_ne by (intros E; symmetry in E;
                                 exact (periodic_file_not_best _ _ E)).
    apply lookup_insert_eq.
  - apply lookup_insert_eq.
Qed.

End Harness.

(** * A small instance of the framework

    A one-parameter model whose prediction is the image value shifted by a
    level that depends on the number of optimizer steps taken; every loader
    yields the batches given below. *)

(** * The option [save_curr_freq] *)

Section Shielded.

Context {params ostate images features transform data : Type}
  (float_repr : R -> string)
  (get_transforms : string -> string -> transform)
  (load_dataset : string -> string -> transform -> string -> result data)
  (dataset_len : data -> Z)
  (iterate : DataLoader data -> Z -> list (images * list R))
  (SupResNet : string -> Z -> params)
  (get_label_dim : string -> Z)
  (cuda_is_available : bool)
  (forward : params -> bool -> images -> list R * features)
  (output_finite : params -> bool -> images -> bool)
  (FAR_forward : R -> string -> list (tvalue features) -> result R)
  (ConR_loss : list (tvalue features) -> result R)
  (batchwise_ranking_regularizer weighted_focal_l1_loss weighted_focal_mse_loss :
     list (tvalue features) -> R -> result R)
  (optimizer_step :
     loss_term -> params -> ostate -> images -> list R -> params * ostate)
  (set_optimizer : options -> params -> ostate)
  (adjust_learning_rate : options -> ostate -> Z -> ostate)
  (periodic_best_error : params -> ostate -> options -> Z -> pyval params ostate).

(** The value the three helpers of [utils.py] are shown in place of
    [opt.save_curr_freq]. *)
Variable shown : Z.

(** [main] with helpers that receive the option namespace with
    [save_curr_freq] overwritten by [shown]: whatever the helpers do with
    the options, they cannot tell the value the run was started with. *)
Definition shielded_main : args -> M params ostate transform unit :=
  main params ostate images features transform data float_repr get_transforms
    load_dataset dataset_len iterate SupResNet get_label_dim cuda_is_available
    forward output_finite FAR_forward ConR_loss batchwise_ranking_regularizer
    weighted_focal_l1_loss weighted_focal_mse_loss optimizer_step
    (fun o p => set_optimizer (set_save_curr_freq o shown) p)
    (fun o s e => adjust_learning_rate (set_save_curr_freq o shown) s e)
    (fun p s o e => periodic_best_error p s (set_save_curr_freq o shown) e).

(** X23: in this file the value of [save_curr_freq] reaches the echo of the
    options and the option namespace handed to [set_optimizer],
    [adjust_learning_rate] and [save_model], and nothing else.  When these
    three helpers are shown a fixed value in its place, two runs whose
    options differ only in [save_curr_freq] end alike from the same
    starting world: the same outcome, the same files with the same
    contents, and the same trace of output and writes except for the value
    of [save_curr_freq] in the echo of the options. *)
Theorem save_curr_freq_reaches_only_the_helpers
  (a : args) (n : Z) (w : world params ostate transform) :
  fst (shielded_main (with_save_curr_freq a n) w) = fst (shielded_main a w) /\
  fs _ _ _ (snd (shielded_main (with_save_curr_freq a n) w))
  = fs _ _ _ (snd (shielded_main a w)) /\
  map (hide_echo params ostate transform)
    (trace _ _ _ (snd (shielded_main (with_save_curr_freq a n) w)))
  = map (hide_echo params ostate transform)
      (trace _ _ _ (snd (shielded_main a w))).
Proof.
  unfold shielded_main.
  destruct (alike_runs_when_helpers_ignore params ostate images features
              transform data float_repr get_transforms load_dataset dataset_len
              iterate SupResNet get_label_dim cuda_is_available forward
              output_finite FAR_forward ConR_loss batchwise_ranking_regularizer
              weighted_focal_l1_loss weighted_focal_mse_loss optimizer_step
              (fun o p => set_optimizer (set_save_curr_freq o shown) p)
              (fun o s e => adjust_learning_rate (set_save_curr_freq o shown) s e)
              (fun p s o e => periodic_best_error p s (set_save_curr_freq o shown) e)
              a n w) as (H1 & H2 & H3 & _).
  - repeat split; intros; reflexivity.
  - auto.
Qed.

End Shielded.

Module Toy.

(** The shift of the prediction after [p] optimizer steps. *)
Definition level (p : nat) : R :=
  match p with
  | 1%nat => 5
  | 2%nat => 3
  | 3%nat => 4
  | 4%nat => 2
  | _ => 7
  end.

Definition forward (p : nat) (mode : bool) (imgs : list R) : list R * unit :=
  (map (fun x => (x + level p)%R) imgs, tt).

(** Every prediction is finite. *)
Definition output_finite (p : nat) (mode : bool) (imgs : list R) : bool := true.

(** The [repr] of the floats the default options use. *)
Definition float_repr (x : R) : string :=
  if Req_dec_T x (2 / 10) then "0.2"
  else if Req_dec_T x (1 / 10) then "0.1"
  else if Req_dec_T x (1 / 10000) then "0.0001"
  else if Req_dec_T x (9 / 10) then "0.9"
  else if Req_dec_T x 1 then "1.0"
  else "nan".

(** One dataset per split, one batch of one sample per pass, and loss
    functions that are defined on every input. *)
Definition get_transforms (split aug : string) : string := aug.
Definition load_dataset (name folder transform split : string) : result unit := Ok tt.
Definition dataset_len (d : unit) : Z := 1.
Definition iterate (l : DataLoader unit) (pass : Z) : list (list R * list R) :=
  [([0%R], [0%R])].
Definition SupResNet (name : string) (num_classes : Z) : nat := 0.
Definition get_label_dim (name : string) : Z := 1.
Definition FAR_forward (a : R) (version : string) (actuals : list (tvalue unit))
  : result R := Ok 0%R.
Definition ConR_loss (actuals : list (tvalue unit)) : result R := Ok 0%R.
Definition regularizer (actuals : list (tvalue unit)) (a : R) : result R := Ok 0%R.

(** Every optimizer step moves the parameter by one. *)
Definition optimizer_step (t : loss_term) (p : nat) (s : unit)
  (imgs labels : list R) : nat * unit := (S p, s).
Definition set_optimizer (opt : options) (p : nat) : unit := tt.
Definition adjust_learning_rate (opt : options) (s : unit) (epoch : Z) : unit := s.
Definition periodic_best_error (p : nat) (s : unit) (opt : options) (epoch : Z)
  : pyval nat unit := VNone nat unit.

(** The empty file system, nothing printed yet. *)
Definition world0 : world nat unit string := mk_world nat unit string ∅ [].

(** Four epochs, a periodic checkpoint every second epoch. *)
Definition four_epochs : args := {|
  print_freq := 1; save_freq := 2; save_curr_freq := 1;
  batch_size := 256; num_workers := 1; epochs := 4;
  learning_rate := 2 / 10; lr_decay_rate := 1 / 10; weight_decay := 1 / 10000;
  momentum := 9 / 10; alpha := 1;
  trial := "0"; loss := "FAR";
  data_folder := "../Rank-N-Contrast/data"; dataset := "AgeDB";
  model := "resnet18"; resume := "";
  aug := "crop,flip,color,grayscale"
|}.

Definition opt4 : options := {|
  parsed := four_epochs;
  model_path := "./save/AgeDB_models";
  model_name := "run";
  save_folder := "./save/AgeDB_models/run"
|}.

Definition loader : DataLoader unit := mk_loader unit tt 256 false 1.

Definition body :=
  epoch_body nat unit (list R) unit string unit iterate true forward output_finite FAR_forward
    ConR_loss regularizer regularizer regularizer optimizer_step
    adjust_learning_rate periodic_best_error opt4 loader loader loader
    (FAR 1 "FAR") (best_file opt4).

Definition loop (w : world nat unit string) :=
  main_loop _ _ _ _ _ _ iterate true forward output_finite FAR_forward ConR_loss regularizer regularizer
    regularizer optimizer_step adjust_learning_rate periodic_best_error opt4
    loader loader loader (FAR 1 "FAR") (mk_module nat 0 true) tt (inl 1%Z) w.

(** The statistics [validate] returns for the model after [p] steps. *)
Definition metrics (p : nat) : list R :=
  let pred := [(0 + level p)%R] in
  let truth := [0%R] in
  [spec_MAE pred truth; spec_RMSE pred truth; corrcoef_01 truth pred;
   spearmanr truth pred; r2_score truth pred].

(** What epoch [e] contributes when it starts after [p] steps. *)
Definition obs (p : nat) (e : Z) : epoch_obs nat unit string :=
  mk_obs nat unit string e
    [PrintTrain nat unit string e 1 1
       (meter_val (meter_update new_meter 0 1))
       (meter_avg (meter_update new_meter 0 1))]
    (metrics (S p)) (metrics (S p)) (mk_module nat (S p) false) tt.

Definition four_obs : list (epoch_obs nat unit string) :=
  [obs 0 1; obs 1 2; obs 2 3; obs 3 4].

Lemma toy_train (p : nat) (md : bool) (e : Z) (w : world nat unit string) :
  train _ _ _ _ _ forward FAR_forward ConR_loss regularizer regularizer regularizer
    optimizer_step [([0%R], [0%R])] (mk_module nat p md) (FAR 1 "FAR") tt e opt4 w
  = (Ok (mk_module nat (S p) true, tt),
     mk_world nat unit string (fs _ _ _ w)
       (trace _ _ _ w ++ [PrintTrain nat unit string e 1 1
                            (meter_val (meter_update new_meter 0 1))
                            (meter_avg (meter_update new_meter 0 1))])).
Proof. reflexivity. Qed.

Lemma toy_validate (p : nat) (md : bool) (w : world nat unit string) :
  validate _ _ _ _ _ true forward output_finite [([0%R], [0%R])] (mk_module nat p md) w
  = (Ok (metrics p, mk_module nat p false), w).
Proof. reflexivity. Qed.

Lemma toy_epoch (p : nat) (md : bool) (b : R) (bt : list R) (e : Z)
  (w : world nat unit string) :
  exists w',
    body (mk_loop_state nat unit (mk_module nat p md) tt b bt) e w
    = (Ok (obs_state nat unit string b bt (obs p e)), w') /\
    trace _ _ _ w'
    = (trace _ _ _ w
       ++ obs_events nat unit string periodic_best_error opt4 (best_file opt4)
            b bt (obs p e))%list.
Proof.
  unfold body, epoch_body, obs_events, obs_state, valid_mae, obs.
  cbn [ob_epoch ob_progress ob_valid ob_test ob_model ob_optimizer hd
       ls_model ls_optimizer best_error best_test].
  unfold iterate, adjust_learning_rate.
  unfold bind at 1. rewrite toy_train.
  unfold bind at 1. rewrite toy_validate.
  unfold bind at 1. unfold print at 1.
  unfold bind at 1. unfold print at 1.
  unfold bind at 1. unfold lift at 1. unfold metrics at 1. rewrite index_head.
  unfold bind at 1. unfold print at 1.
  unfold bind at 1. rewrite toy_validate.
  unfold bind at 1. unfold print at 1.
  unfold bind at 1. unfold lift at 1, py_mod.
  cbn [save_freq parsed opt4 four_epochs Z.eqb].
  unfold metrics at 5; cbn [hd].
  unfold bind at 1.
  destruct (e mod 2 =? 0)%Z; destruct (Rltb _ b);
    (eexists; split; [ reflexivity | ]); cbn [trace]; rewrite <- ?app_assoc;
    reflexivity.
Qed.

Lemma toy_run :
  exists st' w',
    loop world0 = (Ok st', w') /\
    trace _ _ _ w'
    = run_events _ _ _ periodic_best_error opt4 (best_file opt4)
        initial_best_error initial_best_test four_obs.
Proof.
  unfold loop, main_loop.
  change (range 1 (epochs opt4 + 1)) with [1; 2; 3; 4]%Z.
  cbn [for_epochs]. fold body.
  destruct (toy_epoch 0 true initial_best_error initial_best_test 1 world0)
    as (w1 & H1 & T1).
  unfold bind at 1. rewrite H1. unfold obs_state at 1.
  cbn [ob_model ob_optimizer obs].
  match goal with
  | |- context [body (mk_loop_state _ _ _ _ ?b ?bt) 2%Z] =>
      destruct (toy_epoch 1 false b bt 2 w1) as (w2 & H2 & T2)
  end.
  unfold bind at 1. rewrite H2. unfold obs_state at 1.
  cbn [ob_model ob_optimizer obs].
  match goal with
  | |- context [body (mk_loop_state _ _ _ _ ?b ?bt) 3%Z] =>
      destruct (toy_epoch 2 false b bt 3 w2) as (w3 & H3 & T3)
  end.
  unfold bind at 1. rewrite H3. unfold obs_state at 1.
  cbn [ob_model ob_optimizer obs].
  match goal with
  | |- context [body (mk_loop_state _ _ _ _ ?b ?bt) 4%Z] =>
      destruct (toy_epoch 3 false b bt 4 w3) as (w4 & H4 & T4)
  end.
  unfold bind at 1. rewrite H4.
  eexists _, w4. split; [ reflexivity | ].
  rewrite T4, T3, T2, T1. unfold four_obs. cbn [run_events trace world0 app].
  rewrite app_nil_r, <- !app_assoc. reflexivity.
Qed.

Lemma spec_MAE_single (l : R) : (0 <= l)%R -> spec_MAE [(0 + l)%R] [0%R] = l.
Proof.
  intros H. unfold spec_MAE, mean, Rsum. cbn.
  rewrite Rabs_right by lra. field.
Qed.

Lemma four_obs_well_formed : Forall (well_formed_obs nat unit string) four_obs.
Proof.
  unfold four_obs. repeat constructor.
Qed.

Lemma four_obs_maes : map (valid_mae nat unit string) four_obs = [5; 3; 4; 2]%R.
Proof.
  unfold four_obs, valid_mae, obs, metrics. cbn [map ob_valid hd].
  rewrite !spec_MAE_single by (cbn; lra). reflexivity.
Qed.

(** The four-epoch run has the validation MAEs 5, 3, 4, 2 and writes the
    best checkpoint at epochs 1, 2 and 4. *)
Lemma best_checkpoint_witness :
  exists st' w',
    loop world0 = (Ok st', w') /\
    valid_maes _ _ _ (trace _ _ _ w') = [5; 3; 4; 2]%R /\
    best_saves _ _ _ opt4 (trace _ _ _ w') = [Some 1; Some 2; Some 4]%Z.
Proof.
  destruct toy_run as (st' & w' & Hrun & Htr).
  exists st', w'. split; [ exact Hrun | ].
  assert (Hv : valid_maes _ _ _ (trace _ _ _ w') = [5; 3; 4; 2]%R).
  { rewrite Htr, (valid_maes_run _ _ _ _ _ _ _ four_obs_well_formed).
    exact four_obs_maes. }
  split; [ exact Hv | ].
  destruct (best_checkpoint_iff_strict_improvement _ _ _ _ _ _ _ _ _ _ _ _ _ _ _ _
              _ _ _ _ _ _ _ _ _ _ _ _ _ Hrun) as (t & Ht & _ & _ & _ & Hex).
  cbn [trace world0 app] in Ht. rewrite Ht in Hv |- *.
  apply Hex; [ reflexivity | exact Hv ].
Defined.

(** The defaults, resumed from a checkpoint of epoch 10. *)
Definition resume_args : args := {|
  print_freq := 10; save_freq := 100; save_curr_freq := 1;
  batch_size := 256; num_workers := 1; epochs := 400;
  learning_rate := 2 / 10; lr_decay_rate := 1 / 10; weight_decay := 1 / 10000;
  momentum := 9 / 10; alpha := 1;
  trial := "0"; loss := "FAR";
  data_folder := "../Rank-N-Contrast/data"; dataset := "AgeDB";
  model := "resnet18"; resume := "./save/AgeDB_models/run7/ckpt_epoch_10.pth";
  aug := "crop,flip,color,grayscale"
|}.

(** The defaults with other frequencies, worker count and data folder. *)
Definition other_frequencies : args := {|
  print_freq := 1; save_freq := 2; save_curr_freq := 5;
  batch_size := 256; num_workers := 8; epochs := 400;
  learning_rate := 2 / 10; lr_decay_rate := 1 / 10; weight_decay := 1 / 10000;
  momentum := 9 / 10; alpha := 1;
  trial := "0"; loss := "FAR";
  data_folder := "/data"; dataset := "AgeDB";
  model := "resnet18"; resume := "";
  aug := "crop,flip,color,grayscale"
|}.

(** Two option sets that differ in the frequencies, the worker count and
    the data folder only derive the same names, on any file system. *)
Lemma run_names_witness :
  same_run_config other_frequencies default_args /\
  derive_names float_repr other_frequencies = derive_names float_repr default_args.
Proof.
  assert (H : same_run_config other_frequencies default_args).
  { unfold same_run_config. repeat split; reflexivity. }
  split; [ exact H | ].
  exact (proj1 (run_names_deterministic nat unit string float_repr
                  other_frequencies default_args world0 world0 H)).
Defined.

Example default_names :
  derive_names float_repr default_args
  = Ok ("./save/AgeDB_models",
        "FAR_AgeDB_resnet18_ep_400_lr_0.2_d_0.1_wd_0.0001_alpha_1.0_mmt_0.9_bsz_256_aug_crop,flip,color,grayscale_trial_0",
        "./save/AgeDB_models/FAR_AgeDB_resnet18_ep_400_lr_0.2_d_0.1_wd_0.0001_alpha_1.0_mmt_0.9_bsz_256_aug_crop,flip,color,grayscale_trial_0").
Proof.
  unfold derive_names, default_args, float_repr.
  cbn [learning_rate lr_decay_rate weight_decay alpha momentum].
  repeat match goal with
         | |- context [Req_dec_T ?a ?b] =>
             let E := fresh "E" in
             destruct (Req_dec_T a b) as [E | E];
             [ try (exfalso; lra) | try (exfalso; apply E; lra) ]
         end.
  reflexivity.
Qed.

Example resume_names :
  derive_names float_repr resume_args
  = Ok ("./save/AgeDB_models", "run7", "./save/AgeDB_models/run7").
Proof. reflexivity. Qed.

Example resume_without_folder :
  derive_names float_repr (with_resume default_args "best.pth") = Raise IndexError.
Proof. reflexivity. Qed.

(** With the default loss FAR the criterion is called on the output and the
    labels. *)
Lemma far_loss_witness :
  str_in (loss opt4) ["FAR"; "FAR-EXP"] = true /\
  batch_loss opt4 (snd (set_model nat SupResNet get_label_dim opt4))
  = Criterion (FAR (alpha opt4) (loss opt4)) [Output; Labels].
Proof.
  split; [ reflexivity | ].
  exact (proj1 (proj2 (far_loss_of_output_and_labels nat unit SupResNet
                         get_label_dim FAR_forward ConR_loss regularizer
                         regularizer regularizer opt4 eq_refl))).
Defined.

(** With the default loss FAR the feature tensor is not among the
    arguments of the criterion. *)
Lemma far_not_called_with_features :
  ~ far_called_with_features nat SupResNet get_label_dim opt4.
Proof.
  unfold far_called_with_features. intros H.
  specialize (H eq_refl). discriminate H.
Qed.

Definition opt_mse : options := {|
  parsed := {|
    print_freq := 10; save_freq := 100; save_curr_freq := 1;
    batch_size := 256; num_workers := 1; epochs := 400;
    learning_rate := 2 / 10; lr_decay_rate := 1 / 10; weight_decay := 1 / 10000;
    momentum := 9 / 10; alpha := 1;
    trial := "0"; loss := "mse";
    data_folder := "../Rank-N-Contrast/data"; dataset := "AgeDB";
    model := "resnet18"; resume := "";
    aug := "crop,flip,color,grayscale" |};
  model_path := "./save/AgeDB_models";
  model_name := "run";
  save_folder := "./save/AgeDB_models/run"
|}.

(** The unknown loss name mse selects the L1 criterion. *)
Lemma unknown_loss_witness :
  str_in (loss opt_mse) special_losses = false /\
  snd (set_model nat SupResNet get_label_dim opt_mse) = L1Loss /\
  eval_loss unit FAR_forward ConR_loss regularizer regularizer regularizer
    (tensors unit [1; 2]%R tt [3; 5]%R)
    (batch_loss opt_mse (snd (set_model nat SupResNet get_label_dim opt_mse)))
  = Ok (spec_MAE [1; 2]%R [3; 5]%R).
Proof.
  split; [ reflexivity | ].
  pose proof (unknown_loss_falls_back_to_l1 nat unit SupResNet get_label_dim
                FAR_forward ConR_loss regularizer regularizer regularizer
                opt_mse eq_refl) as (Hc & _ & Hl).
  split; [ exact Hc | ].
  exact (proj2 (Hl [1; 2]%R [3; 5]%R tt) eq_refl).
Defined.

(** A split of two batches, of two samples and of one. *)
Definition two_batches : list (list R * list R) :=
  [([1; 2]%R, [3; 5]%R); ([4]%R, [4]%R)].

Lemma two_batches_shapes :
  shapes_agree nat (list R) unit forward (mk_module nat 1 true) two_batches.
Proof. unfold shapes_agree, two_batches. repeat constructor. Qed.

Lemma two_batches_samples : ground_truth (list R) two_batches <> [].
Proof. discriminate. Qed.

Lemma two_batches_finite :
  finite_outputs nat (list R) output_finite (mk_module nat 1 true) two_batches.
Proof. repeat constructor. Qed.

(** [validate] on the two batches: the five statistics of the three
    concatenated samples, the model in evaluation mode, the world as it
    was. *)
Lemma validate_witness :
  exists pear spear r2,
    validate nat unit (list R) unit string true forward output_finite two_batches
      (mk_module nat 1 true) world0
    = (Ok ([spec_MAE [1 + 5; 2 + 5; 4 + 5]%R [3; 5; 4]%R;
            spec_RMSE [1 + 5; 2 + 5; 4 + 5]%R [3; 5; 4]%R;
            pear; spear; r2],
           mk_module nat 1 false), world0).
Proof.
  assert (Hne : two_batches <> []) by discriminate.
  destruct (validate_returns_metrics nat unit (list R) unit string true forward output_finite
              two_batches (mk_module nat 1 true) world0 eq_refl Hne
              two_batches_samples two_batches_shapes two_batches_finite)
    as [(pear & spear & r2 & H & _) _].
  exists pear, spear, r2. exact H.
Defined.

(** An evaluation is not free of state changes, and not defined on every
    split: a model that arrives in training mode is left in evaluation
    mode; a split without batches raises, and so does one without
    samples, one with two predictions for three labels, and one with a
    prediction that is not finite; and on a host without CUDA every split
    with a batch raises. *)
Lemma validate_switches_to_evaluation_mode :
  (exists metrics,
     validate nat unit (list R) unit string true forward output_finite two_batches
       (mk_module nat 1 true) world0
     = (Ok (metrics, mk_module nat 1 false), world0)) /\
  mk_module nat 1 false <> mk_module nat 1 true /\
  validate nat unit (list R) unit string true forward output_finite []
    (mk_module nat 1 true) world0
  = (Raise ValueError, world0) /\
  validate nat unit (list R) unit string true forward output_finite [([], [])]
    (mk_module nat 1 true) world0
  = (Raise ValueError, world0) /\
  validate nat unit (list R) unit string true forward output_finite
    [([1; 2]%R, [3; 5; 4]%R)]
    (mk_module nat 1 true) world0
  = (Raise ValueError, world0) /\
  validate nat unit (list R) unit string true forward (fun _ _ _ => false)
    two_batches (mk_module nat 1 true) world0
  = (Raise ValueError, world0) /\
  exists err,
    validate nat unit (list R) unit string false forward output_finite two_batches
      (mk_module nat 1 true) world0
    = (Raise err, world0).
Proof.
  split; [ eexists; reflexivity | ].
  split; [ discriminate | ].
  split; [ reflexivity | ].
  split; [ reflexivity | ].
  split; [ reflexivity | ].
  split; [ reflexivity | eexists; reflexivity ].
Qed.

(** Evaluating the two batches in the other order gives the same result,
    in exact arithmetic. *)
Lemma batch_order_witness :
  Permutation two_batches (rev two_batches) /\
  validate nat unit (list R) unit string true forward output_finite (rev two_batches)
    (mk_module nat 1 true) world0
  = validate nat unit (list R) unit string true forward output_finite two_batches
      (mk_module nat 1 true) world0.
Proof.
  assert (Hp : Permutation two_batches (rev two_batches)) by apply perm_swap.
  assert (Hne : two_batches <> []) by discriminate.
  split; [ exact Hp | ].
  exact (proj1 (validate_batch_order_invariant nat unit (list R) unit string true
                  forward output_finite two_batches (rev two_batches) (mk_module nat 1 true)
                  world0 Hp eq_refl Hne two_batches_samples two_batches_shapes
                  two_batches_finite)).
Defined.

(** Five batches of one sample each, as (prediction, label): the
    predictions 2^30, 2^53, 1, 2 and 2^30 for the labels 0, 0, 0, 0 and
    2^29, all of them binary32 and binary64 numbers; the absolute errors
    are 2^30, 2^53, 1, 2 and 2^29. *)
Definition rounding_batches (prec emax : Z)
  : list (list SpecFloat.spec_float * list SpecFloat.spec_float) :=
  map (fun pl => ([float_of_Z prec emax (fst pl)], [float_of_Z prec emax (snd pl)]))
    [(2 ^ 30, 0); (2 ^ 53, 0); (1, 0); (2, 0); (2 ^ 30, 2 ^ 29)]%Z.

(** In the floating-point arithmetic of the code the MAE of these batches
    changes when they are evaluated in the reverse order, in binary32
    (1801440280444928 against 1801440012009472) and in binary64
    (1801440173070746 against 1801440173070746.5). *)
Lemma float_MAE_depends_on_batch_order :
  Permutation (rounding_batches 24 128) (rev (rounding_batches 24 128)) /\
  float_MAE 24 128 (rounding_batches 24 128)
  = float_of_Z 24 128 1801440280444928 /\
  float_MAE 24 128 (rev (rounding_batches 24 128))
  = float_of_Z 24 128 1801440012009472 /\
  float_MAE 24 128 (rev (rounding_batches 24 128))
  <> float_MAE 24 128 (rounding_batches 24 128) /\
  Permutation (rounding_batches 53 1024) (rev (rounding_batches 53 1024)) /\
  float_MAE 53 1024 (rounding_batches 53 1024)
  = SpecFloat.S754_finite false 7205760692282984 (-2) /\
  float_MAE 53 1024 (rev (rounding_batches 53 1024))
  = SpecFloat.S754_finite false 7205760692282986 (-2) /\
  float_MAE 53 1024 (rev (rounding_batches 53 1024))
  <> float_MAE 53 1024 (rounding_batches 53 1024).
Proof.
  repeat split;
    first [ apply Permutation_rev
          | vm_compute; reflexivity
          | vm_compute; discriminate ].
Qed.

Definition toy_main :=
  main nat unit (list R) unit string unit float_repr get_transforms load_dataset
    dataset_len iterate SupResNet get_label_dim true forward output_finite FAR_forward ConR_loss
    regularizer regularizer regularizer optimizer_step set_optimizer
    adjust_learning_rate periodic_best_error.

(** In the four-epoch run every write to the best checkpoint file holds
    the three keys and no optimizer state, and the periodic checkpoint of
    epoch 2 is written. *)
Lemma checkpoint_schemas_witness :
  exists st' w',
    loop world0 = (Ok st', w') /\
    (forall d, In (Write _ _ _ (best_file opt4) (Pickle _ _ d)) (trace _ _ _ w') ->
       dom d = ({[ "epoch"; "model"; "best_error" ]} : gset string) /\
       d !! "optimizer" = None) /\
    (exists d, In (Write _ _ _ (periodic_file opt4 2) (Pickle _ _ d)) (trace _ _ _ w') /\
               saved_epoch _ _ d = Some 2%Z).
Proof.
  destruct toy_run as (st' & w' & Hrun & _).
  exists st', w'. split; [ exact Hrun | ].
  pose proof Hrun as H. unfold loop in H. apply checkpoint_schemas in H.
  destruct H as (t & Ht & Hper & _ & Hbest).
  cbn [trace world0 app] in Ht. rewrite Ht.
  split; [ exact Hbest | ].
  assert (Hin : In 2%Z (range 1 (epochs opt4 + 1))).
  { change (range 1 (epochs opt4 + 1)) with [1; 2; 3; 4]%Z. right. left. reflexivity. }
  apply (proj1 (Hper 2%Z Hin)). reflexivity.
Defined.


(** A checkpoint of epoch 10. *)
Definition checkpoint10 : gmap string (pyval nat unit) :=
  <["epoch" := VInt nat unit 10]>
    (<["model" := VStateDict nat unit 3%nat]>
       (<["optimizer" := VOptimState nat unit tt]> ∅)).

Definition world_with_checkpoint : world nat unit string :=
  mk_world nat unit string
    (<["./save/AgeDB_models/run7/ckpt_epoch_10.pth" := Pickle nat unit checkpoint10]> ∅)
    [].

Lemma toy_parse_resume :
  exists opt w0,
    parse_option nat unit string float_repr resume_args world_with_checkpoint
    = (Ok opt, w0) /\ model_name opt = "run7".
Proof.
  eexists _, _. split.
  - match goal with
    | |- ?run = _ => let v := eval vm_compute in run in change run with v
    end.
    reflexivity.
  - reflexivity.
Qed.

Lemma toy_set_loader (opt : options) (w : world nat unit string) :
  exists tl vl sl w1,
    set_loader nat unit string unit get_transforms load_dataset dataset_len opt w
    = (Ok (tl, vl, sl), w1).
Proof.
  unfold set_loader, bind, print, lift, ret, load_dataset. cbn.
  eexists _, _, _, _. reflexivity.
Qed.

Lemma checkpoint10_resumable :
  resumable nat unit string world_with_checkpoint (resume resume_args) 3%nat tt 10.
Proof.
  exists checkpoint10. repeat split.
Qed.

(** Resuming from the checkpoint of epoch 10 loads its state and starts at
    epoch 11; without the checkpoint file the run raises. *)
Lemma resume_witness :
  (exists opt w1 w2,
     main_resume nat unit string opt
       (fst (set_model nat SupResNet get_label_dim opt))
       (set_optimizer opt (state_dict nat (fst (set_model nat SupResNet get_label_dim opt))))
       w1
     = (Ok (mk_module nat 3 true, tt, inl 11%Z), w2)) /\
  (exists err w', toy_main resume_args world0 = (Raise err, w')).
Proof.
  pose proof (resume_starts_after_checkpoint nat unit (list R) unit string unit
                float_repr get_transforms load_dataset dataset_len iterate
                SupResNet get_label_dim true forward output_finite FAR_forward ConR_loss
                regularizer regularizer regularizer optimizer_step set_optimizer
                adjust_learning_rate periodic_best_error resume_args
                world_with_checkpoint eq_refl) as [Hgood _].
  pose proof (resume_starts_after_checkpoint nat unit (list R) unit string unit
                float_repr get_transforms load_dataset dataset_len iterate
                SupResNet get_label_dim true forward output_finite FAR_forward ConR_loss
                regularizer regularizer regularizer optimizer_step set_optimizer
                adjust_learning_rate periodic_best_error resume_args
                world0 eq_refl) as [_ Hbad].
  split.
  - destruct toy_parse_resume as (opt & w0 & Hparse & _).
    destruct (toy_set_loader opt w0) as (tl & vl & sl & w1 & Hload).
    destruct (Hgood opt w0 tl vl sl w1 3%nat tt 10%Z Hparse Hload
                checkpoint10_resumable) as (w2 & Hres & _).
    exists opt, w1, w2. exact Hres.
  - destruct Hbad as (err & w' & Hmain & _).
    + intros (d & Hf & _). discriminate Hf.
    + exists err, w'. exact Hmain.
Defined.

End Toy.

(** * Further instances *)

Module Cases.

Import Toy.

(** ** Option parsing *)

(** A bare file name as resume path. *)
Lemma resume_path_needs_a_folder_witness :
  parse_option nat unit string float_repr (with_resume default_args "best.pth") world0
  = (Raise IndexError, world0).
Proof.
  exact (proj2 (resume_path_needs_a_folder nat unit string float_repr
                  (with_resume default_args "best.pth") world0 eq_refl eq_refl)).
Defined.

(** The checkpoint of epoch 10 in the folder [run7]. *)
Lemma resumed_run_name_witness :
  derive_names float_repr resume_args
  = Ok ("./save/AgeDB_models", "run7", "./save/AgeDB_models/run7").
Proof.
  exact (resumed_run_is_named_after_checkpoint_folder float_repr resume_args
           "./save/AgeDB_models" "run7" "ckpt_epoch_10.pth"
           eq_refl eq_refl eq_refl).
Defined.

Lemma parse_option_prepares_run_folder_witness :
  exists opt w',
    parse_option nat unit string float_repr resume_args world_with_checkpoint
    = (Ok opt, w') /\
    fs _ _ _ w' !! save_folder opt = Some (Dir nat unit) /\
    is_Some (fs _ _ _ w' !! PyStr.path_join (save_folder opt) "training.log").
Proof.
  destruct toy_parse_resume as (opt & w' & H & _).
  exists opt, w'. split; [ exact H | ].
  destruct (parse_option_prepares_run_folder nat unit string float_repr
              resume_args world_with_checkpoint opt w' H) as (Hd & Hl & _).
  split; [ exact Hd | exact Hl ].
Defined.

(** A file system in which the name of the run folder is taken by a file. *)
Definition world_with_blob : world nat unit string :=
  mk_world nat unit string (<["./save/AgeDB_models/run7" := Blob nat unit]> ∅) [].

Lemma parse_option_folder_is_a_file_witness :
  parse_option nat unit string float_repr resume_args world_with_blob
  = (Raise (FileExistsError "./save/AgeDB_models/run7"), world_with_blob).
Proof.
  apply (parse_option_folder_is_a_file nat unit string float_repr resume_args
           world_with_blob "./save/AgeDB_models" "run7" "./save/AgeDB_models/run7"
           (Blob nat unit)).
  - reflexivity.
  - reflexivity.
  - discriminate.
Defined.


(** ** Training passes *)

(** The options of the four-epoch run with other frequencies. *)
Definition frequencies (pf sf : Z) : options := {|
  parsed := {|
    print_freq := pf; save_freq := sf; save_curr_freq := 1;
    batch_size := 256; num_workers := 1; epochs := 4;
    learning_rate := 2 / 10; lr_decay_rate := 1 / 10; weight_decay := 1 / 10000;
    momentum := 9 / 10; alpha := 1;
    trial := "0"; loss := "FAR";
    data_folder := "../Rank-N-Contrast/data"; dataset := "AgeDB";
    model := "resnet18"; resume := "";
    aug := "crop,flip,color,grayscale"
  |};
  model_path := "./save/AgeDB_models";
  model_name := "run";
  save_folder := "./save/AgeDB_models/run"
|}.

Definition five_batches : list (list R * list R) :=
  [([0%R], [0%R]); ([0%R], [0%R]); ([0%R], [0%R]); ([0%R], [0%R]); ([0%R], [0%R])].

Definition toy_train_pass (opt : options) (batches : list (list R * list R)) :=
  train nat unit (list R) unit string forward FAR_forward ConR_loss regularizer
    regularizer regularizer optimizer_step batches (mk_module nat 0 true)
    (FAR 1 "FAR") tt 1%Z opt world0.

(** Five batches with print frequency 2: two progress lines. *)
Lemma train_prints_witness :
  exists r w',
    toy_train_pass (frequencies 2 2) five_batches = (Ok r, w') /\
    Z.of_nat (List.length (trace _ _ _ w')) = 2%Z.
Proof.
  assert (H : exists r w', toy_train_pass (frequencies 2 2) five_batches = (Ok r, w')).
  { eexists _, _.
    match goal with
    | |- ?run = _ => let v := eval vm_compute in run in change run with v
    end.
    reflexivity. }
  destruct H as (r & w' & H). exists r, w'. split; [ exact H | ].
  pose proof H as H'. unfold toy_train_pass in H'.
  apply train_prints_every_print_freq_batches in H'; [ | reflexivity ].
  destruct H' as (_ & t & Ht & _ & Hlen).
  cbn [trace world0 app] in Ht. rewrite Ht, Hlen. reflexivity.
Defined.

(** Print frequency 0: the first batch raises. *)
Lemma train_print_freq_zero_witness :
  toy_train_pass (frequencies 0 2) five_batches = (Raise ZeroDivisionError, world0).
Proof.
  unfold toy_train_pass, five_batches.
  apply train_with_print_freq_zero; reflexivity.
Defined.

(** ** Epochs that fail *)

Definition toy_epoch_body (opt : options) :=
  epoch_body nat unit (list R) unit string unit iterate true forward output_finite FAR_forward
    ConR_loss regularizer regularizer regularizer optimizer_step
    adjust_learning_rate periodic_best_error opt loader loader loader
    (FAR 1 "FAR") (best_file opt)
    (mk_loop_state nat unit (mk_module nat 0 true) tt initial_best_error
       initial_best_test) 1%Z world0.

Definition toy_loop (opt : options) (start : Z) (w : world nat unit string) :=
  main_loop nat unit (list R) unit string unit iterate true forward output_finite FAR_forward
    ConR_loss regularizer regularizer regularizer optimizer_step
    adjust_learning_rate periodic_best_error opt loader loader loader
    (FAR 1 "FAR") (mk_module nat 0 true) tt (inl start) w.

(** With save frequency 0 the first epoch fails, and has written nothing. *)
Lemma failed_epoch_witness :
  exists err w',
    toy_epoch_body (frequencies 1 0) = (Raise err, w') /\
    fs _ _ _ w' = fs _ _ _ world0.
Proof.
  destruct (epoch_body_save_freq_zero nat unit (list R) unit string unit iterate true
              forward output_finite FAR_forward ConR_loss regularizer regularizer regularizer
              optimizer_step adjust_learning_rate periodic_best_error
              (frequencies 1 0) loader loader loader (FAR 1 "FAR")
              (best_file (frequencies 1 0))
              (mk_loop_state nat unit (mk_module nat 0 true) tt initial_best_error
                 initial_best_test) 1%Z world0 eq_refl) as (err & w' & H).
  exists err, w'. split; [ exact H | ].
  pose proof H as H'. apply failed_epoch_writes_nothing in H'. apply H'.
Defined.

Lemma save_freq_zero_witness :
  exists err w',
    toy_loop (frequencies 1 0) 1 world0 = (Raise err, w') /\
    fs _ _ _ w' = fs _ _ _ world0.
Proof.
  destruct (save_freq_zero_never_saves nat unit (list R) unit string unit iterate true
              forward output_finite FAR_forward ConR_loss regularizer regularizer regularizer
              optimizer_step adjust_learning_rate periodic_best_error
              (frequencies 1 0) loader loader loader (FAR 1 "FAR")
              (mk_module nat 0 true) tt 1%Z world0 eq_refl)
    as (err & w' & H & Hfs & _).
  - cbn. lia.
  - exists err, w'. split; [ exact H | exact Hfs ].
Defined.


(** ** Resuming *)

Definition resume_options : options := {|
  parsed := resume_args;
  model_path := "./save/AgeDB_models";
  model_name := "run7";
  save_folder := "./save/AgeDB_models/run7"
|}.

Definition world_with (d : gmap string (pyval nat unit)) : world nat unit string :=
  mk_world nat unit string
    (<["./save/AgeDB_models/run7/ckpt_epoch_10.pth" := Pickle nat unit d]> ∅) [].

Definition toy_resume (w : world nat unit string) :=
  main_resume nat unit string resume_options (mk_module nat 0 true) tt w.

(** A best checkpoint under the resume path. *)
Lemma best_checkpoint_not_resumable_witness :
  exists err,
    toy_resume (world_with (best_checkpoint nat unit 10 (mk_module nat 3 false) 2))
    = (Raise err,
       world_with (best_checkpoint nat unit 10 (mk_module nat 3 false) 2)).
Proof.
  unfold toy_resume.
  apply (best_checkpoint_is_not_resumable nat unit string resume_options
           (mk_module nat 0 true) tt _ 10%Z (mk_module nat 3 false) 2%R).
  - reflexivity.
  - reflexivity.
Defined.

(** The checkpoint of epoch 10 with and without a stored best error. *)
Lemma resume_reads_three_keys_witness :
  fst (toy_resume (world_with checkpoint10))
  = fst (toy_resume (world_with (<["best_error" := VFloat nat unit 2]> checkpoint10))).
Proof.
  unfold toy_resume.
  apply (resume_reads_three_keys nat unit string resume_options
           (mk_module nat 0 true) tt _ _ checkpoint10
           (<["best_error" := VFloat nat unit 2]> checkpoint10));
    reflexivity.
Defined.

(** The run of [resume_args] with 10 epochs in all. *)
Definition finished_args : args := {|
  print_freq := 10; save_freq := 100; save_curr_freq := 1;
  batch_size := 256; num_workers := 1; epochs := 10;
  learning_rate := 2 / 10; lr_decay_rate := 1 / 10; weight_decay := 1 / 10000;
  momentum := 9 / 10; alpha := 1;
  trial := "0"; loss := "FAR";
  data_folder := "../Rank-N-Contrast/data"; dataset := "AgeDB";
  model := "resnet18"; resume := "./save/AgeDB_models/run7/ckpt_epoch_10.pth";
  aug := "crop,flip,color,grayscale"
|}.

Lemma toy_setup (d : gmap string (pyval nat unit)) :
  exists opt w0 tl vl sl w1,
    parse_option nat unit string float_repr finished_args (world_with d)
    = (Ok opt, w0) /\
    set_loader nat unit string unit get_transforms load_dataset dataset_len opt w0
    = (Ok (tl, vl, sl), w1) /\
    fs _ _ _ w1 !! resume finished_args = Some (Pickle nat unit d).
Proof.
  eexists _, _, _, _, _, _. split; [ | split ].
  - match goal with
    | |- ?run = _ => let v := eval vm_compute in run in change run with v
    end.
    reflexivity.
  - match goal with
    | |- ?run = _ => let v := eval vm_compute in run in change run with v
    end.
    reflexivity.
  - vm_compute. reflexivity.
Qed.


(** Resuming the checkpoint of epoch 10 in a run of 10 epochs. *)
Lemma resume_from_last_epoch_witness :
  exists w', toy_main finished_args (world_with checkpoint10) = (Ok tt, w').
Proof.
  destruct (toy_setup checkpoint10) as (opt & w0 & tl & vl & sl & w1 & Hp & Hl & _).
  eexists. unfold toy_main.
  apply (resume_from_last_epoch_runs_nothing nat unit (list R) unit string unit
           float_repr get_transforms load_dataset dataset_len iterate SupResNet
           get_label_dim true forward output_finite FAR_forward ConR_loss regularizer regularizer
           regularizer optimizer_step set_optimizer adjust_learning_rate
           periodic_best_error finished_args (world_with checkpoint10)
           opt w0 tl vl sl w1 3%nat tt 10%Z eq_refl Hp Hl).
  - exists checkpoint10. repeat split.
  - cbn. lia.
Defined.




(** ** Evaluation *)

(** Two batches whose labels are what the model predicts after 0 steps. *)
Definition perfect_batches : list (list R * list R) :=
  [([1; 2]%R, [1 + 7; 2 + 7]%R); ([4]%R, [4 + 7]%R)].

Lemma perfect_predictions_witness :
  exists pear spear,
    validate nat unit (list R) unit string true forward output_finite perfect_batches
      (mk_module nat 0 true) world0
    = (Ok ([0; 0; pear; spear; 1]%R, mk_module nat 0 false), world0).
Proof.
  assert (Hne : perfect_batches <> []) by discriminate.
  assert (Hall : Forall (fun b : list R * list R =>
                           fst (forward 0 false (fst b)) = snd b) perfect_batches).
  { repeat constructor. }
  apply (validate_on_perfect_predictions nat unit (list R) unit string true
           forward output_finite perfect_batches (mk_module nat 0 true) world0
           eq_refl Hne Hall).
  - repeat constructor.
  - cbn. lia.
Defined.

(** ** The four-epoch run *)

Lemma toy_run_maes :
  exists st' w',
    loop world0 = (Ok st', w') /\
    valid_maes _ _ _ (trace _ _ _ w') = [5; 3; 4; 2]%R.
Proof.
  destruct toy_run as (st' & w' & Hrun & Htr).
  exists st', w'. split; [ exact Hrun | ].
  rewrite Htr, (valid_maes_run _ _ _ _ _ _ _ four_obs_well_formed).
  exact four_obs_maes.
Qed.

(** The validation MAEs 5, 3, 4, 2: the run ends with the best error 2. *)
Lemma best_error_minimum_witness :
  exists st' w', loop world0 = (Ok st', w') /\ best_error _ _ st' = 2%R.
Proof.
  destruct toy_run_maes as (st' & w' & Hrun & Hv).
  exists st', w'. split; [ exact Hrun | ].
  pose proof Hrun as H. unfold loop in H.
  apply best_error_is_the_minimum in H.
  destruct H as (t & Ht & _ & Hall & Hin).
  cbn [trace world0 app] in Ht. rewrite Ht in Hv. rewrite Hv in Hall, Hin.
  assert (H2 : (best_error _ _ st' <= 2)%R).
  { rewrite List.Forall_forall in Hall. apply Hall. cbn. auto. }
  unfold initial_best_error in Hin. cbn [In] in Hin.
  destruct Hin as [Hin | [Hin | [Hin | [Hin | [Hin | []]]]]]; lra.
Defined.







(** ** Files *)

(** A label file next to the run folders. *)
Definition world_with_labels : world nat unit string :=
  mk_world nat unit string (<["./data/labels.csv" := Blob nat unit]> ∅) [].

(** However the resumed run of [resume_args] ends there, the label file
    is kept. *)
Lemma main_keeps_other_files_witness :
  fs _ _ _ (snd (toy_main resume_args world_with_labels)) !! "./data/labels.csv"
  = Some (Blob nat unit).
Proof.
  destruct (toy_main resume_args world_with_labels) as [r w'] eqn:H.
  unfold toy_main in H.
  apply (main_writes_inside_run_folder _ _ _ _ _ _ _ _ _ _ _ _ _ _ _ _ _ _ _ _ _ _ _ _ _
           _ _ "./data/labels.csv") in H.
  - apply H. reflexivity.
  - intros mp mn sf Hd.
    assert (E : derive_names float_repr resume_args
                = Ok ("./save/AgeDB_models", "run7", "./save/AgeDB_models/run7"))
      by reflexivity.
    rewrite E in Hd. injection Hd as <- <- <-. reflexivity.
Defined.

(** After the four-epoch run the best checkpoint file holds the best
    error the run ended with. *)
Lemma best_file_witness :
  exists st' w' e saved,
    loop world0 = (Ok st', w') /\
    fs _ _ _ w' !! best_file opt4
    = Some (Pickle nat unit (best_checkpoint nat unit e saved (best_error _ _ st'))).
Proof.
  destruct toy_run_maes as (st' & w' & Hrun & Hv).
  pose proof Hrun as H. unfold loop in H.
  apply main_loop_obs in H as (s & obs & _ & _ & Hwf & Hb & _ & Htr).
  cbn [trace world0 app] in Htr.
  rewrite Htr, (valid_maes_run _ _ _ _ _ _ _ Hwf) in Hv.
  destruct (run_best_minimum _ _ _ obs initial_best_error initial_best_test)
    as (_ & Hall & _).
  assert (Hlt : (best_error _ _ st' < initial_best_error)%R).
  { rewrite Hb. destruct obs as [ | o obs]; [ discriminate | ].
    apply Forall_cons_iff in Hall as [Ho _]. cbn [map] in Hv.
    injection Hv as Hv _. rewrite Hv in Ho.
    apply Rle_lt_trans with (1 := Ho). unfold initial_best_error. lra. }
  pose proof Hrun as H. unfold loop in H.
  apply best_file_holds_the_best_error in H. destruct H as [H _].
  destruct (H Hlt) as (e & saved & _ & Hf).
  exists st', w', e, saved. split; [ exact Hrun | exact Hf ].
Defined.

(** The first epoch of the four-epoch run improves on 1e10; its best
    checkpoint holds the parameters after one step, which evaluate to the
    stored best error. *)
Lemma best_checkpoint_reproduces_witness :
  exists st' w' saved rest,
    body (mk_loop_state nat unit (mk_module nat 0 true) tt initial_best_error
            initial_best_test) 1%Z world0 = (Ok st', w') /\
    fs _ _ _ w' !! best_file opt4
    = Some (Pickle nat unit (best_checkpoint nat unit 1 saved (best_error _ _ st'))) /\
    validate nat unit (list R) unit string true forward output_finite (iterate loader 1) saved world0
    = (Ok (best_error _ _ st' :: rest, eval_mode nat saved), world0).
Proof.
  destruct (toy_epoch 0 true initial_best_error initial_best_test 1 world0)
    as (w' & H & _).
  pose proof H as H'. unfold body in H'.
  apply best_checkpoint_reproduces_best_error in H'.
  - destruct H' as (saved & Hf & _ & Hv). destruct (Hv world0) as (rest & Hr).
    eexists _, w', saved, rest. split; [ exact H | ]. split; [ exact Hf | exact Hr ].
  - cbn [best_error obs_state obs ob_valid valid_mae hd metrics].
    rewrite spec_MAE_single by (cbn; lra).
    unfold pymin, initial_best_error. cbn [level].
    destruct (Rlt_dec _ _); lra.
Defined.

(** The options of a later run that resumes the checkpoint of epoch 2. *)
Definition resume_epoch_2 : options := {|
  parsed := with_resume four_epochs "./save/AgeDB_models/run/ckpt_epoch_2.pth";
  model_path := "./save/AgeDB_models";
  model_name := "run";
  save_folder := "./save/AgeDB_models/run"
|}.

(** Epoch 2 of the four-epoch run, started after one step, writes a
    periodic checkpoint; a resume from it starts at epoch 3. *)
Lemma periodic_checkpoint_resumable_witness :
  exists st' w' m o w'',
    body (mk_loop_state nat unit (mk_module nat 1 false) tt initial_best_error
            initial_best_test) 2%Z world0 = (Ok st', w') /\
    main_resume nat unit string resume_epoch_2 (mk_module nat 0 true) tt w'
    = (Ok (m, o, inl 3%Z), w'').
Proof.
  destruct (toy_epoch 1 false initial_best_error initial_best_test 2 world0)
    as (w' & H & _).
  pose proof H as H'. unfold body in H'.
  apply (periodic_checkpoint_is_resumable _ _ _ _ _ _ _ _ _ _ _ _ _ _ _ _ _ _ _ _ _ _ _
           _ _ _ _ _ resume_epoch_2 (mk_module nat 0 true) tt) in H';
    [ | reflexivity | reflexivity ].
  eexists _, w', _, _, _. split; [ exact H | exact H' ].
Defined.


(** Two predictions for three labels. *)
Lemma validate_mismatch_witness :
  validate nat unit (list R) unit string true forward output_finite [([1; 2]%R, [3; 5; 4]%R)]
    (mk_module nat 1 true) world0
  = (Raise ValueError, world0).
Proof.
  destruct (validate_fails_with_value_error nat unit (list R) unit string true
              forward output_finite [([1; 2]%R, [3; 5; 4]%R)] (mk_module nat 1 true) world0)
    as [_ H].
  destruct H as [H _].
  - cbn. repeat split; discriminate.
  - apply H. reflexivity.
Defined.

End Cases.
